(** * The SQL guardrail of the looped reasoning agent

    A shallow embedding of the agent's security checkpoint and control loop:
    [src/tools/sql_detector.py], [src/tools/sql_validator.py],
    [src/tools/registry.py], [src/agent/nodes.py], [src/agent/guards.py] and
    [src/agent/graph.py].

    Conventions of the embedding.
    - Python [str] is [string]; texts are ASCII, so [upper], [\w] and [\s]
      are the ASCII ones (code points above 127 are neither word nor space
      characters here).
    - Python [int] is [Z]; counters that only grow from 0 are [nat].
    - A Python [dict] used as a map is a [gmap]; a [set] used for membership
      is a [gset]; a [set] that is iterated is the list of its elements.
    - An exception is a value: functions that can raise return [pyresult].
    - The backend, the SQL parser and the tools are external collaborators:
      they are the variables of the sections below. *)

From Stdlib Require Import ZArith Ascii String List Bool Lia.
From Stdlib Require Import Numbers.DecimalString.
From stdpp Require Import base gmap strings list.
Import ListNotations.
Open Scope string_scope.

(** ** Python string primitives *)

Module PyStr.

Definition nl : string := String (ascii_of_nat 10) EmptyString.

Definition code (c : ascii) : nat := nat_of_ascii c.

Definition is_lower (c : ascii) : bool := (97 <=? code c)%nat && (code c <=? 122)%nat.
Definition is_upper (c : ascii) : bool := (65 <=? code c)%nat && (code c <=? 90)%nat.
Definition is_digit (c : ascii) : bool := (48 <=? code c)%nat && (code c <=? 57)%nat.

(** [str.isspace] on ASCII: tab, LF, VT, FF, CR, the separators 28..31
    and the blank. *)
Definition is_space (c : ascii) : bool :=
  ((9 <=? code c)%nat && (code c <=? 13)%nat)
  || ((28 <=? code c)%nat && (code c <=? 32)%nat).

(** [\w]: letters, digits and the underscore. *)
Definition is_word (c : ascii) : bool :=
  is_lower c || is_upper c || is_digit c || (code c =? 95)%nat.

Definition upper_char (c : ascii) : ascii :=
  if is_lower c then ascii_of_nat (code c - 32) else c.

Definition lower_char (c : ascii) : ascii :=
  if is_upper c then ascii_of_nat (code c + 32) else c.

(** [s.upper()] *)
Fixpoint upper (s : string) : string :=
  match s with
  | EmptyString => EmptyString
  | String c s' => String (upper_char c) (upper s')
  end.

(** [s.startswith(p)] *)
Fixpoint startswith (p s : string) : bool :=
  match p, s with
  | EmptyString, _ => true
  | String a p', String b s' => Ascii.eqb a b && startswith p' s'
  | String _ _, EmptyString => false
  end.

(** [p in s] on strings *)
Fixpoint contains (p s : string) : bool :=
  startswith p s ||
  match s with
  | EmptyString => false
  | String _ s' => contains p s'
  end.

(** [lstrip] and [rstrip] of the characters that satisfy [f]. *)
Fixpoint lstrip_by (f : ascii -> bool) (s : string) : string :=
  match s with
  | EmptyString => EmptyString
  | String c s' => if f c then lstrip_by f s' else s
  end.

Fixpoint rstrip_by (f : ascii -> bool) (s : string) : string :=
  match s with
  | EmptyString => EmptyString
  | String c s' =>
      match rstrip_by f s' with
      | EmptyString => if f c then EmptyString else String c EmptyString
      | r => String c r
      end
  end.

(** [s.strip()] *)
Definition strip (s : string) : string := rstrip_by is_space (lstrip_by is_space s).

Definition in_chars (chars : string) (c : ascii) : bool :=
  existsb (Ascii.eqb c) (list_ascii_of_string chars).

(** [s.strip(chars)] *)
Definition strip_chars (chars s : string) : string :=
  rstrip_by (in_chars chars) (lstrip_by (in_chars chars) s).

(** [str(n)] for an [int] *)
Definition str_int (n : Z) : string := NilZero.string_of_int (Z.to_int n).

(** [x in xs] on a list of strings *)
Definition mem (x : string) (xs : list string) : bool := existsb (String.eqb x) xs.

End PyStr.

(** ** The fragment of Python's [re] the detector uses

    A backtracking matcher with Python's priorities: alternatives left to
    right, greedy repetition longest first, lazy repetition shortest first,
    leftmost match wins. One capturing group is enough for the patterns of
    the detector. *)

Module Re.
Import PyStr.

Inductive cset : Type :=
| CLit (c : ascii)            (* a literal character *)
| CAny                        (* .   *)
| CSpace                      (* \s  *)
| CWord                       (* \w  *)
| COneOf (chars : string)     (* [...]  *)
| CNoneOf (chars : string).   (* [^...] *)

Inductive regex : Type :=
| RChar (c : cset)
| REmpty
| RSeq (r1 r2 : regex)
| RAlt (r1 r2 : regex)
| RStar (greedy : bool) (r : regex)   (* r* and r*? *)
| RGroup (r : regex)                  (* ( r ), group 1 *)
| RWordB                              (* \b *)
| REnd.                               (* $  *)

Record flags : Type := { IGNORECASE : bool; DOTALL : bool; MULTILINE : bool }.

Definition no_flags : flags :=
  {| IGNORECASE := false; DOTALL := false; MULTILINE := false |}.

(** [r+], [r?], a literal word and a sequence of pieces. *)
Definition RPlus (r : regex) : regex := RSeq r (RStar true r).
Definition ROpt (r : regex) : regex := RAlt r REmpty.

Fixpoint RLit (s : string) : regex :=
  match s with
  | EmptyString => REmpty
  | String c s' => RSeq (RChar (CLit c)) (RLit s')
  end.

Fixpoint RCat (rs : list regex) : regex :=
  match rs with
  | [] => REmpty
  | r :: rs' => RSeq r (RCat rs')
  end.

Fixpoint RAny (rs : list regex) : regex :=
  match rs with
  | [] => REmpty
  | [r] => r
  | r :: rs' => RAlt r (RAny rs')
  end.

Definition char_eq (fl : flags) (a b : ascii) : bool :=
  if IGNORECASE fl then Ascii.eqb (lower_char a) (lower_char b) else Ascii.eqb a b.

Definition cset_matches (fl : flags) (c : cset) (a : ascii) : bool :=
  match c with
  | CLit b => char_eq fl a b
  | CAny => DOTALL fl || negb (Ascii.eqb a (ascii_of_nat 10))
  | CSpace => is_space a
  | CWord => is_word a
  | COneOf chars => existsb (char_eq fl a) (list_ascii_of_string chars)
  | CNoneOf chars => negb (existsb (char_eq fl a) (list_ascii_of_string chars))
  end.

(** The matcher's position: the character before it, the text after it,
    and group 1 (where it started, and its text once closed). *)
Record mstate : Type := {
  prev : option ascii;
  rest : string;
  gstart : option string;
  gtext : option string
}.

Definition advance (st : mstate) (a : ascii) (s' : string) : mstate :=
  {| prev := Some a; rest := s'; gstart := gstart st; gtext := gtext st |}.

Definition open_group (st : mstate) : mstate :=
  {| prev := prev st; rest := rest st; gstart := Some (rest st); gtext := gtext st |}.

(** The text consumed between two positions of one string. *)
Definition consumed (from to : string) : string :=
  substring 0 (String.length from - String.length to) from.

Definition close_group (st : mstate) : mstate :=
  {| prev := prev st; rest := rest st; gstart := gstart st;
     gtext := match gstart st with
              | Some from => Some (consumed from (rest st))
              | None => None
              end |}.

Definition word_before (st : mstate) : bool :=
  match prev st with Some c => is_word c | None => false end.

Definition word_after (st : mstate) : bool :=
  match rest st with String c _ => is_word c | EmptyString => false end.

(** [$]: the end of the text or just before its final newline; with
    MULTILINE, before any newline. *)
Definition at_end (fl : flags) (st : mstate) : bool :=
  match rest st with
  | EmptyString => true
  | String c s' =>
      Ascii.eqb c (ascii_of_nat 10) &&
      (MULTILINE fl || match s' with EmptyString => true | _ => false end)
  end.

Fixpoint rmatch (fl : flags) (r : regex) (st : mstate)
         (k : mstate -> option mstate) {struct r} : option mstate :=
  match r with
  | RChar c =>
      match rest st with
      | String a s' => if cset_matches fl c a then k (advance st a s') else None
      | EmptyString => None
      end
  | REmpty => k st
  | RSeq r1 r2 => rmatch fl r1 st (fun st' => rmatch fl r2 st' k)
  | RAlt r1 r2 =>
      match rmatch fl r1 st k with
      | Some res => Some res
      | None => rmatch fl r2 st k
      end
  | RStar greedy r' =>
      (fix loop (n : nat) (st : mstate) {struct n} : option mstate :=
         match n with
         | O => k st
         | S n' =>
             if greedy then
               match rmatch fl r' st (fun st' =>
                       if (String.length (rest st') <? String.length (rest st))%nat
                       then loop n' st' else None) with
               | Some res => Some res
               | None => k st
               end
             else
               match k st with
               | Some res => Some res
               | None =>
                   rmatch fl r' st (fun st' =>
                     if (String.length (rest st') <? String.length (rest st))%nat
                     then loop n' st' else None)
               end
         end) (S (String.length (rest st))) st
  | RGroup r' => rmatch fl r' (open_group st) (fun st' => k (close_group st'))
  | RWordB => if xorb (word_before st) (word_after st) then k st else None
  | REnd => if at_end fl st then k st else None
  end.

(** A match object: [start()], [group(0)], [group(1)], and what follows. *)
Record rematch : Type := {
  m_start : nat;
  group0 : string;
  group1 : option string;
  m_prev : option ascii;
  m_rest : string
}.

(** A match that starts at the current position. *)
Definition match_at (fl : flags) (r : regex) (p : option ascii) (s : string)
  (pos : nat) : option rematch :=
  match rmatch fl r {| prev := p; rest := s; gstart := None; gtext := None |} Some with
  | Some st => Some {| m_start := pos; group0 := consumed s (rest st);
                       group1 := gtext st; m_prev := prev st; m_rest := rest st |}
  | None => None
  end.

(** The leftmost match at or after the current position. *)
Fixpoint search_from (fl : flags) (r : regex) (p : option ascii) (s : string)
  (pos : nat) : option rematch :=
  match match_at fl r p s pos with
  | Some m => Some m
  | None =>
      match s with
      | EmptyString => None
      | String c s' => search_from fl r (Some c) s' (S pos)
      end
  end.

(** [re.search(r, s, flags)] *)
Definition search (fl : flags) (r : regex) (s : string) : option rematch :=
  search_from fl r None s 0.

(** [re.search(r, s, flags)] used as a condition. *)
Definition found (fl : flags) (r : regex) (s : string) : bool :=
  match search fl r s with Some _ => true | None => false end.

(** [re.finditer(r, s, flags)], for patterns that match no empty text
    (after an empty match the scan moves on by one character). *)
Fixpoint finditer_from (fuel : nat) (fl : flags) (r : regex) (p : option ascii)
  (s : string) (pos : nat) : list rematch :=
  match fuel with
  | O => []
  | S fuel' =>
      match search_from fl r p s pos with
      | None => []
      | Some m =>
          match group0 m, m_rest m with
          | EmptyString, EmptyString => [m]
          | EmptyString, String c s' =>
              m :: finditer_from fuel' fl r (Some c) s' (S (m_start m))
          | g, s' =>
              m :: finditer_from fuel' fl r (m_prev m) s'
                     (m_start m + String.length g)
          end
      end
  end.

(** ... from the start of the text. *)
Definition finditer (fl : flags) (r : regex) (s : string) : list rematch :=
  finditer_from (S (String.length s)) fl r None s 0.

(** [re.sub(r, '', s, flags)]: the text between the matches. *)
Fixpoint remove_from (ms : list rematch) (s : string) (pos : nat) : string :=
  match ms with
  | [] => s
  | m :: ms' =>
      substring 0 (m_start m - pos) s ++
      remove_from ms' (m_rest m) (m_start m + String.length (group0 m))
  end.

(** ... for every match of the pattern. *)
Definition sub_empty (fl : flags) (r : regex) (s : string) : string :=
  remove_from (finditer fl r s) s 0.

End Re.

(** ** [src/tools/sql_detector.py] *)

Module SqlDetector.
Import PyStr Re.

(** [SQL_KEYWORDS]: a Python set; it is only iterated, in an order the
    language leaves open, so the functions below take the order as an
    argument and [SQL_KEYWORDS] lists the keywords as the source does. *)
Definition SQL_KEYWORDS : list string :=
  ["SELECT"; "INSERT"; "UPDATE"; "DELETE"; "CREATE"; "DROP";
   "ALTER"; "TRUNCATE"; "MERGE"; "UPSERT"; "REPLACE"].

Definition ticks : regex := RLit "```".

Definition flags_block : flags :=
  {| IGNORECASE := true; DOTALL := true; MULTILINE := false |}.
Definition flags_dotall : flags :=
  {| IGNORECASE := false; DOTALL := true; MULTILINE := false |}.
Definition flags_inline : flags :=
  {| IGNORECASE := true; DOTALL := false; MULTILINE := true |}.
Definition flags_icase : flags :=
  {| IGNORECASE := true; DOTALL := false; MULTILINE := false |}.

(** [r'```(?:sql)?.*?```'] *)
Definition block_pattern : regex :=
  RCat [ticks; ROpt (RLit "sql"); RStar false (RChar CAny); ticks].

(** [r'```(?:sql)?\s*(.*?)```'] *)
Definition code_block_pattern : regex :=
  RCat [ticks; ROpt (RLit "sql"); RStar true (RChar CSpace);
        RGroup (RStar false (RChar CAny)); ticks].

Definition spaces1 : regex := RPlus (RChar CSpace).
Definition spaces0 : regex := RStar true (RChar CSpace).
Definition word1 : regex := RPlus (RChar CWord).

(** [\b{keyword}\b\s+ COLS \s+FROM\b], where COLS is a star or a
    comma-separated list of words, [\w+] then any number of [\s*,\s*\w+]. *)
Definition pattern_columns_from (keyword : string) : regex :=
  RCat [RWordB; RLit keyword; RWordB; spaces1;
        RAlt (RChar (CLit "*"))
             (RSeq word1 (RStar true (RCat [spaces0; RChar (CLit ","); spaces0; word1])));
        spaces1; RLit "FROM"; RWordB].

(** [rf'\b{keyword}\b\s+INTO\b'] *)
Definition pattern_into (keyword : string) : regex :=
  RCat [RWordB; RLit keyword; RWordB; spaces1; RLit "INTO"; RWordB].

(** [rf'\b{keyword}\b\s+TABLE\b'] *)
Definition pattern_table (keyword : string) : regex :=
  RCat [RWordB; RLit keyword; RWordB; spaces1; RLit "TABLE"; RWordB].

(** [rf'\b{keyword}\b\s+\w+\s+SET\b'] *)
Definition pattern_set (keyword : string) : regex :=
  RCat [RWordB; RLit keyword; RWordB; spaces1; word1; spaces1; RLit "SET"; RWordB].

(** [rf'\b{keyword}\b\s+FROM\s+\w+'] *)
Definition pattern_from (keyword : string) : regex :=
  RCat [RWordB; RLit keyword; RWordB; spaces1; RLit "FROM"; spaces1; word1].

(** [rf'\b({keyword}\b[^.;]*?(?:;|\.|\n|$))'] *)
Definition pattern_statement (keyword : string) : regex :=
  RSeq RWordB
    (RGroup (RCat [RLit keyword; RWordB; RStar false (RChar (CNoneOf ".;"));
                   RAny [RChar (CLit ";"); RChar (CLit "."); RLit nl; REnd]])).

(** [r'\b(FROM|INTO|TABLE|SET|WHERE|JOIN)\b'] *)
Definition pattern_confirm : regex :=
  RCat [RWordB;
        RGroup (RAny [RLit "FROM"; RLit "INTO"; RLit "TABLE"; RLit "SET";
                      RLit "WHERE"; RLit "JOIN"]);
        RWordB].

(** [r'[.!?]+$'] *)
Definition pattern_trailing : regex :=
  RSeq (RPlus (RChar (COneOf ".!?"))) REnd.

(** [match.group(1)] of a pattern whose group always takes part. *)
Definition group_1 (m : rematch) : string :=
  match group1 m with Some g => g | None => EmptyString end.

(** [contains_sql_patterns] *)
Definition contains_sql_patterns_in (keywords : list string) (text : string) : bool :=
  let text_upper := upper text in
  existsb (fun keyword => contains keyword text_upper) keywords.

(** ... with the keyword set of the module. *)
Definition contains_sql_patterns : string -> bool :=
  contains_sql_patterns_in SQL_KEYWORDS.

(** The loop over the keywords of [contains_sql]: the five searches made
    for one keyword. *)
Definition keyword_hits (text_upper keyword : string) : bool :=
  found flags_dotall (pattern_columns_from keyword) text_upper
  || found flags_dotall (pattern_into keyword) text_upper
  || found flags_dotall (pattern_table keyword) text_upper
  || found flags_dotall (pattern_set keyword) text_upper
  || found flags_dotall (pattern_from keyword) text_upper.

(** The first [if] of [contains_sql]: only the first fenced region that
    [re.search] finds is looked at. *)
Definition first_block_hits (keywords : list string) (text : string) : bool :=
  if found flags_block block_pattern text then
    match search flags_block code_block_pattern text with
    | Some code_content => contains_sql_patterns_in keywords (group_1 code_content)
    | None => false
    end
  else false.

(** [contains_sql] *)
Definition contains_sql_in (keywords : list string) (text : string) : bool :=
  if first_block_hits keywords text then true
  else
    let text_no_blocks := sub_empty flags_block block_pattern text in
    let text_upper := upper text_no_blocks in
    existsb (keyword_hits text_upper) keywords.

(** ... with the keyword set of the module. *)
Definition contains_sql : string -> bool := contains_sql_in SQL_KEYWORDS.

(** The first loop of [extract_sql_queries]: the fenced regions. *)
Definition block_queries (keywords : list string) (text : string) : list string :=
  flat_map (fun m =>
              let content := strip (group_1 m) in
              if negb (String.eqb content EmptyString) && contains_sql_patterns_in keywords content
              then [content] else [])
           (finditer flags_block code_block_pattern text).

(** The body of the inner loop over the inline matches. *)
Definition add_inline (queries : list string) (m : rematch) : list string :=
  let query := strip (group_1 m) in
  if found flags_icase pattern_confirm query then
    let query := sub_empty no_flags pattern_trailing query in
    if negb (mem query queries) then queries ++ [query] else queries
  else queries.

(** The body of the outer loop over the keywords. *)
Definition add_keyword (text : string) (queries : list string) (keyword : string)
  : list string :=
  fold_left add_inline (finditer flags_inline (pattern_statement keyword) text) queries.

(** [extract_sql_queries] *)
Definition extract_sql_queries_in (keywords : list string) (text : string)
  : list string :=
  fold_left (add_keyword text) keywords (block_queries keywords text).

(** ... with the keyword set of the module. *)
Definition extract_sql_queries : string -> list string :=
  extract_sql_queries_in SQL_KEYWORDS.

End SqlDetector.

(** ** Exceptions as values *)

Inductive pyresult (A : Type) : Type :=
| Ok (a : A)
| Raise (exn_type : string) (exn_msg : string).
Arguments Ok {A} a.
Arguments Raise {A} exn_type exn_msg.

(** ** The interface of the SQL parser ([sqlparse])

    The parser is an external library. What the validator reads of its
    answer is modelled here: the token tree, with the token type of a leaf
    and the class of a group, the text a token prints as, and the flattened
    stream of leaves. What the parser answers on a given text is a variable
    of the validator. *)

Module Sqlparse.

(** [sqlparse.tokens]: the token types; [Keyword] is the parent of
    [Keyword.DML] and the other keyword types, and [ttype is Keyword]
    holds for the parent only. *)
Inductive ttype : Type :=
| Keyword | Keyword_DML | Keyword_DDL | Keyword_CTE | Keyword_Other
| Name | Punctuation | Whitespace | Newline | Operator | Comparison_op
| Wildcard | Literal | Comment | Other.

Definition is_Keyword (t : ttype) : bool :=
  match t with Keyword => true | _ => false end.

(** [sqlparse.sql]: the classes of the composite tokens. *)
Inductive tclass : Type :=
| Statement | Parenthesis | Identifier | IdentifierList | Where
| Comparison | Function | OtherGroup.

Definition is_Parenthesis (c : tclass) : bool :=
  match c with Parenthesis => true | _ => false end.

(** A token is a leaf with a type and a value, or a group with the
    attribute [tokens]. *)
#[local] Unset Elimination Schemes.
Inductive token : Type :=
| Tok (ty : ttype) (value : string)
| Grp (cls : tclass) (tokens : list token).
#[local] Set Elimination Schemes.

(** [token.flatten()]: the leaves, left to right. *)
Fixpoint flatten (t : token) : list (ttype * string) :=
  match t with
  | Tok ty v => [(ty, v)]
  | Grp _ toks => flat_map flatten toks
  end.

(** [str(token)]: the values of the leaves, joined. *)
Definition str (t : token) : string :=
  fold_right (fun leaf acc => snd leaf ++ acc) EmptyString (flatten t).

(** The length of [str(token)], from its leaves. *)
Definition leaves_length (leaves : list (ttype * string)) : nat :=
  list_sum (map (fun leaf => String.length (snd leaf)) leaves).

(** What [sqlparse.parse] answers: the statements, or an exception. *)
Definition parser : Type := string -> pyresult (list token).

(** Two facts about the parser's answers that bound the re-parsing of
    [count_subqueries]: a statement holds no more text than the parser
    was given, and a [Parenthesis] group starts with its bracket. *)
Fixpoint well_bracketed (t : token) : bool :=
  match t with
  | Tok _ _ => true
  | Grp cls toks =>
      (if is_Parenthesis cls then PyStr.startswith "(" (str t) else true)
      && forallb well_bracketed toks
  end.

Definition keeps_text (parse : parser) : Prop :=
  forall query statement rest,
    parse query = Ok (statement :: rest) ->
    String.length (str statement) <= String.length query.

Definition keeps_brackets (parse : parser) : Prop :=
  forall query statement rest,
    parse query = Ok (statement :: rest) -> well_bracketed statement = true.

End Sqlparse.

(** ** [src/config/settings.py] *)

(** [Settings]: the fields the engine and the validator read. *)
Record Settings : Type := {
  max_iterations : Z;
  sql_max_joins : Z;
  sql_max_subqueries : Z
}.

(** The defaults of the class. *)
Definition default_settings : Settings :=
  {| max_iterations := 3; sql_max_joins := 3; sql_max_subqueries := 5 |}.

(** ** [src/tools/sql_validator.py] *)

Module SqlValidator.
Import PyStr Sqlparse.

(** [BLOCKED_KEYWORDS] *)
Definition BLOCKED_KEYWORDS : gset string :=
  list_to_set ["INSERT"; "UPDATE"; "DELETE"; "DROP";
               "ALTER"; "CREATE"; "TRUNCATE"; "REPLACE";
               "MERGE"; "UPSERT"; "GRANT"; "REVOKE";
               "EXEC"; "EXECUTE"].

(** A value stored in [metadata]. *)
Inductive pyval : Type :=
| VInt (n : Z)
| VStr (s : string).

(** [SQLValidationResult] *)
Record SQLValidationResult : Type := {
  valid : bool;
  errors : list string;
  warnings : list string;
  metadata : gmap string pyval
}.

(** [SQLValidationResult()] *)
Definition new_result : SQLValidationResult :=
  {| valid := true; errors := []; warnings := []; metadata := ∅ |}.

(** [result.valid = False; result.errors.append(msg)] *)
Definition fail (msg : string) (result : SQLValidationResult) : SQLValidationResult :=
  {| valid := false; errors := errors result ++ [msg];
     warnings := warnings result; metadata := metadata result |}.

(** [result.metadata[key] = v] *)
Definition set_meta (key : string) (v : pyval) (result : SQLValidationResult)
  : SQLValidationResult :=
  {| valid := valid result; errors := errors result;
     warnings := warnings result; metadata := <[key := v]> (metadata result) |}.

(** [count_joins]: every leaf of type [Keyword] whose upper-cased value
    contains JOIN counts; every group is descended into. *)
Fixpoint count_joins (statement : token) : nat :=
  match statement with
  | Tok _ _ => 0
  | Grp _ toks =>
      list_sum (map (fun tok =>
                       match tok with
                       | Tok ty v =>
                           if is_Keyword ty && contains "JOIN" (upper v) then 1 else 0
                       | Grp _ _ => count_joins tok
                       end) toks)
  end.

Section Validator.

(** [sqlparse.parse], [Statement.get_type] and [sqlparse.format] with
    [reindent=True, keyword_case='upper']. *)
Variable parse : parser.
Variable get_type : token -> string.
Variable format_sql : string -> string.

(** What one [Parenthesis] token adds in [count_subqueries]: the text
    between its brackets is parsed again; an exception of the parser is
    swallowed. [rec] is the recursive call on the inner statement. *)
Definition paren_subqueries (rec : token -> nat) (tok : token) : nat :=
  let inner_sql := strip_chars "()" (str tok) in
  match parse inner_sql with
  | Ok (inner :: _) =>
      if String.eqb (get_type inner) "SELECT" then 1 + rec inner else 0
  | Ok [] => 0
  | Raise _ _ => 0
  end.

(** [count_subqueries] re-parses text, so its recursion is not on the
    token tree: [depth] bounds the nesting of re-parsed statements. A
    parser that gives back the text it was given needs no more than
    the length of the text (see [count_subqueries_enough]). *)
Fixpoint count_subqueries_upto (depth : nat) (statement : token) {struct depth} : nat :=
  match depth with
  | O => 0
  | S depth' =>
      (fix walk (statement : token) : nat :=
         match statement with
         | Tok _ _ => 0
         | Grp _ toks =>
             list_sum (map (fun tok =>
                              match tok with
                              | Tok _ _ => 0
                              | Grp cls _ =>
                                  if is_Parenthesis cls
                                  then paren_subqueries (count_subqueries_upto depth') tok
                                  else walk tok
                              end) toks)
         end) statement
  end.

(** [count_subqueries] *)
Definition count_subqueries (statement : token) : nat :=
  count_subqueries_upto (S (String.length (str statement))) statement.

(** Layer 3: one error for each leaf of type [Keyword] whose upper-cased
    value is on the blocklist. *)
Definition blocked_errors (statement : token) : list string :=
  flat_map (fun leaf : ttype * string =>
              if is_Keyword (fst leaf) then
                let keyword := upper (snd leaf) in
                if bool_decide (keyword ∈ BLOCKED_KEYWORDS)
                then ["Blocked keyword found: " ++ keyword] else []
              else [])
           (flatten statement).

(** Layers 3, 4 and 5 of [validate_sql_query]. *)
Definition layer3 (statement : token) (result : SQLValidationResult)
  : SQLValidationResult :=
  fold_left (fun r msg => fail msg r) (blocked_errors statement) result.

Definition layer4 (settings : Settings) (statement : token)
  (result : SQLValidationResult) : SQLValidationResult :=
  let join_count := count_joins statement in
  let result := set_meta "join_count" (VInt (Z.of_nat join_count)) result in
  if (Z.of_nat join_count >? sql_max_joins settings)%Z then
    fail ("Too many JOINs: " ++ str_int (Z.of_nat join_count)
          ++ " (max: " ++ str_int (sql_max_joins settings) ++ ")") result
  else result.

Definition layer5 (settings : Settings) (statement : token)
  (result : SQLValidationResult) : SQLValidationResult :=
  let subquery_count := count_subqueries statement in
  let result := set_meta "subquery_count" (VInt (Z.of_nat subquery_count)) result in
  if (Z.of_nat subquery_count >? sql_max_subqueries settings)%Z then
    fail ("Too many subqueries: " ++ str_int (Z.of_nat subquery_count)
          ++ " (max: " ++ str_int (sql_max_subqueries settings) ++ ")") result
  else result.

(** [validate_sql_query] *)
Definition validate_sql_query (settings : Settings) (query : string)
  : SQLValidationResult :=
  let result := new_result in
  match parse query with
  | Raise _ e => fail ("SQL parsing failed: " ++ e) result
  | Ok [] => fail "Empty or invalid SQL query" result
  | Ok (statement :: _) =>
      let stmt_type := get_type statement in
      if negb (String.eqb stmt_type "SELECT") then
        fail ("Only SELECT statements allowed, got: " ++ stmt_type) result
      else
        let result := layer3 statement result in
        let result := layer4 settings statement result in
        let result := layer5 settings statement result in
        set_meta "formatted_query" (VStr (format_sql query)) result
  end.

(** The error of layer 4 and of layer 5, when the count is over the
    limit, and the test that a layer added none. *)
Definition join_error (settings : Settings) (statement : token) : list string :=
  let join_count := Z.of_nat (count_joins statement) in
  if (join_count >? sql_max_joins settings)%Z
  then ["Too many JOINs: " ++ str_int join_count
        ++ " (max: " ++ str_int (sql_max_joins settings) ++ ")"]
  else [].

Definition subquery_error (settings : Settings) (statement : token) : list string :=
  let subquery_count := Z.of_nat (count_subqueries statement) in
  if (subquery_count >? sql_max_subqueries settings)%Z
  then ["Too many subqueries: " ++ str_int subquery_count
        ++ " (max: " ++ str_int (sql_max_subqueries settings) ++ ")"]
  else [].

End Validator.

Definition no_errors (l : list string) : bool :=
  match l with [] => true | _ => false end.

End SqlValidator.

(** ** [src/tools/registry.py] *)

Module Registry.
Import SqlValidator.

(** A tool: its name and [tool.invoke], which may raise. *)
Record BaseTool : Type := {
  name : string;
  invoke : gmap string pyval -> pyresult string
}.

(** [ToolRegistry] *)
Record ToolRegistry : Type := { _tools : gmap string BaseTool }.

(** [ToolRegistry()] *)
Definition empty_registry : ToolRegistry := {| _tools := ∅ |}.

(** [register] *)
Definition register (self : ToolRegistry) (tool : BaseTool) : ToolRegistry :=
  {| _tools := <[name tool := tool]> (_tools self) |}.

(** [get_tool_schemas] *)
Definition get_tool_schemas (self : ToolRegistry) : list BaseTool :=
  map snd (map_to_list (_tools self)).

(** [execute_tool] *)
Definition execute_tool (self : ToolRegistry) (tool_name : string)
  (tool_input : gmap string pyval) : pyresult string :=
  match _tools self !! tool_name with
  | None => Raise "ValueError" ("Unknown tool: " ++ tool_name)
  | Some tool => invoke tool tool_input
  end.

End Registry.

(** ** [src/agent/state.py] *)

Module State.
Import SqlValidator.

(** A tool invocation request of an assistant message. *)
Record ToolCall : Type := {
  tc_name : string;
  tc_args : gmap string pyval;
  tc_id : string
}.

(** The messages of the transcript. [OtherObject] stands for an element
    that has neither the attribute [content] nor [tool_calls]. *)
Inductive Message : Type :=
| SystemMessage (content : string)
| HumanMessage (content : string)
| AIMessage (content : string) (tool_calls : list ToolCall)
| ToolMessage (content : string) (tool_call_id : string)
| OtherObject.

(** [isinstance(m, SystemMessage)] *)
Definition is_SystemMessage (m : Message) : bool :=
  match m with SystemMessage _ => true | _ => false end.

(** [m.content], when [hasattr(m, 'content')] *)
Definition content_of (m : Message) : option string :=
  match m with
  | SystemMessage c | HumanMessage c | AIMessage c _ | ToolMessage c _ => Some c
  | OtherObject => None
  end.

(** [m.tool_calls], when [hasattr(m, 'tool_calls')] *)
Definition tool_calls_of (m : Message) : option (list ToolCall) :=
  match m with
  | AIMessage _ tcs => Some tcs
  | _ => None
  end.

(** An entry of [sql_violations]. *)
Record Violation : Type := {
  v_query : string;
  v_errors : list string;
  v_metadata : gmap string pyval
}.

(** [AgentState]. A key a caller may leave out is an [option] ([None]:
    the key is absent); [tool_output] may also hold Python's [None]
    ([Some None]). *)
Record AgentState : Type := {
  messages : list Message;
  user_input : string;
  tool_output : option (option string);
  iteration_count : Z;
  should_continue : option bool;
  sql_safe : option bool;
  sql_violations : option (list Violation);
  guard_checked : option bool
}.

(** The dictionary a node returns: the keys it sets. *)
Record Update : Type := {
  u_messages : list Message;
  u_tool_output : option string;
  u_iteration_count : option Z;
  u_should_continue : option bool;
  u_sql_safe : option bool;
  u_sql_violations : option (list Violation);
  u_guard_checked : option bool
}.

(** [{}] *)
Definition no_update : Update :=
  {| u_messages := []; u_tool_output := None; u_iteration_count := None;
     u_should_continue := None; u_sql_safe := None; u_sql_violations := None;
     u_guard_checked := None |}.

Definition overwrite {A : Type} (old : option A) (new : option A) : option A :=
  match new with Some _ => new | None => old end.

(** How the graph merges a node's result into the state: [messages] has
    the reducer [add], so new messages are appended; every other key is
    overwritten. *)
Definition apply_update (state : AgentState) (u : Update) : AgentState :=
  {| messages := messages state ++ u_messages u;
     user_input := user_input state;
     tool_output := match u_tool_output u with
                    | Some out => Some (Some out)
                    | None => tool_output state
                    end;
     iteration_count := match u_iteration_count u with
                        | Some n => n
                        | None => iteration_count state
                        end;
     should_continue := overwrite (should_continue state) (u_should_continue u);
     sql_safe := overwrite (sql_safe state) (u_sql_safe u);
     sql_violations := overwrite (sql_violations state) (u_sql_violations u);
     guard_checked := overwrite (guard_checked state) (u_guard_checked u) |}.

(** [state.get(key, default)] *)
Definition get {A : Type} (field : option A) (default : A) : A :=
  match field with Some v => v | None => default end.

(** The state [ChatCLI.run] starts a turn with. *)
Definition initial_state (user_input : string) : AgentState :=
  {| messages := [HumanMessage user_input];
     user_input := user_input;
     tool_output := Some None;
     iteration_count := 0;
     should_continue := Some false;
     sql_safe := None;
     sql_violations := None;
     guard_checked := None |}.

End State.

(** ** [src/agent/nodes.py] *)

Module Nodes.
Import PyStr SqlValidator Registry State.

Definition SYSTEM_PROMPT : string :=
"You are a helpful AI assistant with access to SQL validation tools.

CRITICAL SECURITY RULES FOR SQL QUERIES:
========================================
1. ALWAYS use the 'sql_query_constructor' tool to validate ANY SQL query
2. NEVER write raw SQL queries directly in your response without validation
3. If a user provides SQL, you MUST validate it with the tool before discussing it
4. If you need to suggest SQL, use the tool FIRST, then present the validated result

Workflow for SQL-related requests:
1. User asks about SQL → Call sql_query_constructor tool
2. Tool validates the query → You explain the validation results
3. NEVER output SQL without going through the tool

This ensures all SQL queries are checked for security violations (destructive operations, complexity limits, etc.).
".

(** What the backend answers: the content and the tool invocation
    requests of an assistant message. *)
Record AIResponse : Type := {
  r_content : string;
  r_tool_calls : list ToolCall
}.

(** [llm_with_tools.invoke]: the backend, bound to the tool schemas. *)
Definition backend : Type := list BaseTool -> list Message -> AIResponse.

(** The local [messages] of [think_node]: the sequence handed to the
    backend. *)
Definition think_input (state : AgentState) : list Message :=
  match messages state with
  | first :: _ =>
      if negb (is_SystemMessage first)
      then SystemMessage SYSTEM_PROMPT :: messages state
      else messages state
  | [] => messages state
  end.

(** [think_node] *)
Definition think_node (llm : backend) (registry : ToolRegistry) (state : AgentState)
  : Update :=
  let response := llm (get_tool_schemas registry) (think_input state) in
  {| u_messages := [AIMessage (r_content response) (r_tool_calls response)];
     u_tool_output := None;
     u_iteration_count := Some (iteration_count state + 1)%Z;
     u_should_continue := None; u_sql_safe := None; u_sql_violations := None;
     u_guard_checked := None |}.

(** [respond_node] *)
Definition respond_node (state : AgentState) : Update := no_update.

(** [act_node]. Reading the last message and its first tool call happens
    before the [try]; only the dispatch is guarded. *)
Definition act_node (registry : ToolRegistry) (state : AgentState) : pyresult Update :=
  match last (messages state) with
  | None => Raise "IndexError" "list index out of range"
  | Some last_message =>
      match tool_calls_of last_message with
      | None => Raise "AttributeError" "tool_calls"
      | Some [] => Raise "IndexError" "list index out of range"
      | Some (tool_call :: _) =>
          let tool_message_content :=
            match execute_tool registry (tc_name tool_call) (tc_args tool_call) with
            | Ok result => result
            | Raise _ e => "Error: " ++ e
            end in
          Ok {| u_messages := [ToolMessage tool_message_content (tc_id tool_call)];
                u_tool_output := Some tool_message_content;
                u_iteration_count := None; u_should_continue := None;
                u_sql_safe := None; u_sql_violations := None;
                u_guard_checked := None |}
      end
  end.

(** The content of the Tool message that [act_node] builds for a request,
    and the dictionary it returns. *)
Definition dispatch_text (registry : ToolRegistry) (tool_call : ToolCall) : string :=
  match execute_tool registry (tc_name tool_call) (tc_args tool_call) with
  | Ok result => result
  | Raise _ e => "Error: " ++ e
  end.

Definition tool_update (text : string) (tool_call : ToolCall) : Update :=
  {| u_messages := [ToolMessage text (tc_id tool_call)];
     u_tool_output := Some text;
     u_iteration_count := None; u_should_continue := None;
     u_sql_safe := None; u_sql_violations := None;
     u_guard_checked := None |}.

(** [observe_node] *)
Definition observe_node (state : AgentState) : pyresult Update :=
  match get (tool_output state) (Some EmptyString) with
  | None => Raise "AttributeError" "'NoneType' object has no attribute 'startswith'"
  | Some out =>
      Ok {| u_messages := []; u_tool_output := None; u_iteration_count := None;
            u_should_continue := Some (startswith "Error:" out);
            u_sql_safe := None; u_sql_violations := None; u_guard_checked := None |}
  end.

End Nodes.

(** ** [src/agent/guards.py] *)

Module Guards.
Import SqlDetector SqlValidator Sqlparse State.

Section Guard.

Variable settings : Settings.
Variable parse : parser.
Variable get_type : token -> string.
Variable format_sql : string -> string.

(** [validate_sql_query], which reads the settings itself. *)
Definition validate : string -> SQLValidationResult :=
  validate_sql_query parse get_type format_sql settings.

(** The three keys the guard returns. *)
Definition verdict (safe : bool) (violations : list Violation) : Update :=
  {| u_messages := []; u_tool_output := None; u_iteration_count := None;
     u_should_continue := None;
     u_sql_safe := Some safe;
     u_sql_violations := Some violations;
     u_guard_checked := Some true |}.

(** The body of the loop over the extracted queries. *)
Definition check_query (violations : list Violation) (query : string)
  : list Violation :=
  let result := validate query in
  if negb (valid result) then
    violations ++ [{| v_query := query; v_errors := errors result;
                      v_metadata := metadata result |}]
  else violations.

(** The record the loop appends for a query that fails. *)
Definition violation_of (query : string) : Violation :=
  {| v_query := query; v_errors := errors (validate query);
     v_metadata := metadata (validate query) |}.

(** [sql_validation_guard] *)
Definition sql_validation_guard (state : AgentState) : Update :=
  match last (messages state) with
  | None => verdict true []
  | Some last_message =>
      match content_of last_message with
      | None => verdict true []
      | Some content =>
          if negb (contains_sql content) then verdict true []
          else
            let queries := extract_sql_queries content in
            let violations := fold_left check_query queries [] in
            let is_safe := (length violations =? 0)%nat in
            verdict is_safe violations
      end
  end.

(** What the guard answers once it has read the content of the last
    message. *)
Definition content_verdict (content : string) : Update :=
  if negb (contains_sql content) then verdict true []
  else
    let queries := extract_sql_queries content in
    let violations := fold_left check_query queries [] in
    verdict (length violations =? 0)%nat violations.

End Guard.

End Guards.

(** ** [src/agent/graph.py] *)

Module Graph.
Import PyStr SqlValidator Sqlparse Registry State Nodes Guards.

(** [should_use_tool] *)
Definition should_use_tool (state : AgentState) : pyresult string :=
  match last (messages state) with
  | None => Raise "IndexError" "list index out of range"
  | Some last_message =>
      match tool_calls_of last_message with
      | Some (_ :: _) => Ok "use_tool"
      | _ => Ok "respond"
      end
  end.

(** [should_continue_thinking] *)
Definition should_continue_thinking (settings : Settings) (state : AgentState)
  : string :=
  if (iteration_count state >=? max_iterations settings)%Z then "finish"
  else if get (should_continue state) false then "continue"
  else "finish".

(** [is_sql_safe] *)
Definition is_sql_safe (state : AgentState) : string :=
  if negb (get (guard_checked state) false) then "safe"
  else if get (sql_safe state) true then "safe" else "unsafe".

(** The nodes of the graph and its end. *)
Inductive node : Type := think | act | observe | respond | sql_guard | END.

(** The conditional edges: the table that maps a decision to a node. A
    decision that is not in the table stops the run with an error. *)
Definition edge (table : list (string * node)) (decision : string) : pyresult node :=
  match find (fun entry => String.eqb (fst entry) decision) table with
  | Some entry => Ok (snd entry)
  | None => Raise "KeyError" decision
  end.

Definition think_edges : list (string * node) := [("use_tool", act); ("respond", respond)].
Definition observe_edges : list (string * node) := [("continue", think); ("finish", respond)].
Definition sql_guard_edges : list (string * node) := [("safe", END); ("unsafe", think)].

Section Engine.

Variable settings : Settings.
Variable parse : parser.
Variable get_type : token -> string.
Variable format_sql : string -> string.
Variable llm : backend.
Variable registry : ToolRegistry.

Definition bind {A B : Type} (r : pyresult A) (f : A -> pyresult B) : pyresult B :=
  match r with
  | Ok a => f a
  | Raise t e => Raise t e
  end.

(** One step of the compiled graph of [create_agent_graph]: run the
    node, merge what it returns, follow the edge. *)
Definition step (n : node) (state : AgentState) : pyresult (node * AgentState) :=
  match n with
  | think =>
      let state' := apply_update state (think_node llm registry state) in
      bind (should_use_tool state') (fun decision =>
      bind (edge think_edges decision) (fun next => Ok (next, state')))
  | act =>
      bind (act_node registry state) (fun u => Ok (observe, apply_update state u))
  | observe =>
      bind (observe_node state) (fun u =>
      let state' := apply_update state u in
      bind (edge observe_edges (should_continue_thinking settings state'))
           (fun next => Ok (next, state')))
  | respond =>
      Ok (sql_guard, apply_update state (respond_node state))
  | sql_guard =>
      let state' :=
        apply_update state
          (sql_validation_guard settings parse get_type format_sql state) in
      bind (edge sql_guard_edges (is_sql_safe state')) (fun next => Ok (next, state'))
  | END => Ok (END, state)
  end.

(** [steps] steps of the graph from a node. *)
Fixpoint run (steps : nat) (n : node) (state : AgentState)
  : pyresult (node * AgentState) :=
  match steps with
  | O => Ok (n, state)
  | S steps' => bind (step n state) (fun ns => run steps' (fst ns) (snd ns))
  end.

End Engine.

(** The system preamble, and a transcript that holds no system message
    (the transcript of a turn: the user's message, then what THINK and
    ACT append). *)
Definition preamble : Message := SystemMessage SYSTEM_PROMPT.

Definition no_system (transcript : list Message) : Prop :=
  Forall (fun m => is_SystemMessage m = false) transcript.

(** A backend that never asks for a tool and whose every answer the guard
    finds unsafe. *)
Definition persistently_unsafe (settings : Settings) (parse : parser)
  (get_type : token -> string) (format_sql : string -> string) (llm : backend) : Prop :=
  forall tools transcript,
    r_tool_calls (llm tools transcript) = []
    /\ u_sql_safe (content_verdict settings parse get_type format_sql
                     (r_content (llm tools transcript))) = Some false.

End Graph.

(** ** Sample collaborators

    The answers of the parser on the queries of the examples, as the
    parser builds them, and a backend and a tool to run the engine with. *)

Module Sample.
Import PyStr Sqlparse SqlValidator Registry State Nodes.

Definition ws : token := Tok Whitespace " ".
Definition kw (v : string) : token := Tok Keyword v.
Definition ident (n : string) : token := Grp Identifier [Tok Name n].

Definition q_select : string := "SELECT * FROM users WHERE age > 18".
Definition q_delete : string := "DELETE FROM users WHERE id = 1".
Definition q_drop : string := "DROP TABLE users;".
Definition q_joins3 : string := "SELECT * FROM a JOIN b JOIN c JOIN d".
Definition q_joins4 : string := "SELECT * FROM a JOIN b JOIN c JOIN d JOIN e".
Definition q_nested : string := "SELECT * FROM (SELECT 1)".
Definition q_inner : string := "SELECT 1".
Definition q_stacked : string := "SELECT 1; DROP TABLE users".

Definition where_clause (column op value : string) : token :=
  Grp Where [kw "WHERE"; ws;
             Grp Comparison [ident column; ws; Tok Comparison_op op; ws;
                             Tok Literal value]].

Definition t_select : token :=
  Grp Statement [Tok Keyword_DML "SELECT"; ws; Tok Wildcard "*"; ws; kw "FROM"; ws;
                 ident "users"; ws; where_clause "age" ">" "18"].

Definition t_delete : token :=
  Grp Statement [Tok Keyword_DML "DELETE"; ws; kw "FROM"; ws; ident "users"; ws;
                 where_clause "id" "=" "1"].

Definition t_drop : token :=
  Grp Statement [Tok Keyword_DDL "DROP"; ws; kw "TABLE"; ws; ident "users";
                 Tok Punctuation ";"].

Definition select_from (table : string) : list token :=
  [Tok Keyword_DML "SELECT"; ws; Tok Wildcard "*"; ws; kw "FROM"; ws; ident table].

Definition join (table : string) : list token := [ws; kw "JOIN"; ws; ident table].

Definition t_joins3 : token :=
  Grp Statement (select_from "a" ++ join "b" ++ join "c" ++ join "d").

Definition t_joins4 : token :=
  Grp Statement (select_from "a" ++ join "b" ++ join "c" ++ join "d" ++ join "e").

Definition t_inner : token :=
  Grp Statement [Tok Keyword_DML "SELECT"; ws; Tok Literal "1"].

Definition t_nested : token :=
  Grp Statement [Tok Keyword_DML "SELECT"; ws; Tok Wildcard "*"; ws; kw "FROM"; ws;
                 Grp Parenthesis [Tok Punctuation "("; Tok Keyword_DML "SELECT"; ws;
                                  Tok Literal "1"; Tok Punctuation ")"]].

(** The parser splits a text at the semicolons that end a statement. *)
Definition t_stacked : list token :=
  [Grp Statement [Tok Keyword_DML "SELECT"; ws; Tok Literal "1"; Tok Punctuation ";"; ws];
   Grp Statement [Tok Keyword_DDL "DROP"; ws; kw "TABLE"; ws; ident "users"]].

Definition parse_table : list (string * list token) :=
  [(EmptyString, []);
   (q_select, [t_select]); (q_delete, [t_delete]); (q_drop, [t_drop]);
   (q_joins3, [t_joins3]); (q_joins4, [t_joins4]);
   (q_nested, [t_nested]); (q_inner, [t_inner]);
   (q_stacked, t_stacked)].

(** A text that is not in the table comes back as one statement of one
    unclassified leaf. *)
Definition parse : parser := fun query =>
  match find (fun entry => String.eqb (fst entry) query) parse_table with
  | Some entry => Ok (snd entry)
  | None => Ok [Grp Statement [Tok Other query]]
  end.

Definition is_blank (t : token) : bool :=
  match t with
  | Tok Whitespace _ | Tok Newline _ | Tok Comment _ => true
  | _ => false
  end.

(** [Statement.get_type]: the upper-cased value of the first token that
    is neither blank nor comment when that is a DML or DDL keyword,
    UNKNOWN otherwise. *)
Definition get_type (statement : token) : string :=
  match statement with
  | Grp _ toks =>
      match find (fun t => negb (is_blank t)) toks with
      | Some (Tok Keyword_DML v) | Some (Tok Keyword_DDL v) => upper v
      | _ => "UNKNOWN"
      end
  | Tok _ _ => "UNKNOWN"
  end.

(** The rendering of the statement is not looked at by the engine. *)
Definition format_sql (query : string) : string := query.

Definition validate : string -> SQLValidationResult :=
  validate_sql_query parse get_type format_sql default_settings.

(** Two fenced regions, the second one destructive. *)
Definition later_block_text : string :=
  "```" ++ nl ++ "hi" ++ nl ++ "``` ```sql" ++ nl ++ "DROP TABLE users;" ++ nl ++ "```".

(** The same fenced region twice. *)
Definition repeated_block_text : string :=
  "```sql" ++ nl ++ "SELECT * FROM users" ++ nl ++ "``` and again ```sql" ++ nl
  ++ "SELECT * FROM users" ++ nl ++ "```".

(** A tool that fails, and a registry that holds it. *)
Definition failing_tool : BaseTool :=
  {| name := "broken"; invoke := fun _ => Raise "RuntimeError" "boom" |}.

Definition echo_tool : BaseTool :=
  {| name := "echo"; invoke := fun _ => Ok "done" |}.

Definition registry : ToolRegistry :=
  register (register empty_registry failing_tool) echo_tool.

(** A backend that asks for two tools, and the state in which THINK leaves
    the first turn with it. *)
Definition requesting_llm : backend :=
  fun _ _ =>
    {| r_content := EmptyString;
       r_tool_calls := [{| tc_name := "broken"; tc_args := ∅; tc_id := "call_1" |};
                        {| tc_name := "echo"; tc_args := ∅; tc_id := "call_2" |}] |}.

Definition two_calls_state : AgentState :=
  apply_update (initial_state "run it")
    (think_node requesting_llm registry (initial_state "run it")).

(** A backend that answers every transcript with the same text. *)
Definition constant_llm (text : string) : backend :=
  fun _ _ => {| r_content := text; r_tool_calls := [] |}.

End Sample.

(** ** [src/tools/sql_validator.py]: the tool and its registration *)

Module SqlTool.
Import PyStr Sqlparse SqlValidator Registry.

(** [str(v)] of a metadata value, as an f-string renders it. *)
Definition str_val (v : pyval) : string :=
  match v with
  | VInt n => str_int n
  | VStr s => s
  end.

(** [sep.join(items)] *)
Fixpoint join (sep : string) (items : list string) : string :=
  match items with
  | [] => EmptyString
  | [item] => item
  | item :: rest => item ++ sep ++ join sep rest
  end.

(** [d[key]], which raises [KeyError] when the key is absent. *)
Definition getitem (d : gmap string pyval) (key : string) : pyresult pyval :=
  match d !! key with
  | Some v => Ok v
  | None => Raise "KeyError" key
  end.

Section Tool.

Variable parse : parser.
Variable get_type : token -> string.
Variable format_sql : string -> string.
Variable settings : Settings.

(** The two reports of [sql_query_constructor]. *)
Definition valid_report (formatted_query join_count subquery_count : pyval) : string :=
  "✓ SQL Query Valid!" ++ nl ++ nl
  ++ "Formatted Query:" ++ nl
  ++ str_val formatted_query ++ nl ++ nl
  ++ "Analysis:" ++ nl
  ++ "- JOINs: " ++ str_val join_count ++ "/" ++ str_int (sql_max_joins settings) ++ nl
  ++ "- Subqueries: " ++ str_val subquery_count ++ "/"
  ++ str_int (sql_max_subqueries settings) ++ nl ++ nl
  ++ "This query is safe and ready for execution (dry-run mode)." ++ nl.

Definition failed_report (errors : list string) : string :=
  let error_msg := join nl (map (fun err => "  - " ++ err) errors) in
  "✗ SQL Query Validation Failed!" ++ nl ++ nl
  ++ "Errors:" ++ nl
  ++ error_msg ++ nl ++ nl
  ++ "Please fix these issues before proceeding." ++ nl.

(** [sql_query_constructor], the function under the [@tool] decorator. *)
Definition sql_query_constructor (query : string) : pyresult string :=
  let result := validate_sql_query parse get_type format_sql settings query in
  if valid result then
    match getitem (metadata result) "formatted_query" with
    | Raise t e => Raise t e
    | Ok formatted_query =>
        match getitem (metadata result) "join_count" with
        | Raise t e => Raise t e
        | Ok join_count =>
            match getitem (metadata result) "subquery_count" with
            | Raise t e => Raise t e
            | Ok subquery_count =>
                Ok (valid_report formatted_query join_count subquery_count)
            end
        end
    end
  else Ok (failed_report (errors result)).

(** The tool object that the decorator builds: it is named after the
    function and calls it with the argument [query] of its input; an input
    without a string under [query] is refused before the function runs. *)
Definition sql_query_constructor_tool : BaseTool :=
  {| name := "sql_query_constructor";
     invoke := fun tool_input =>
       match tool_input !! "query" with
       | Some (VStr query) => sql_query_constructor query
       | _ => Raise "ValidationError" "query"
       end |}.

(** [_registry] once the module is imported: [register_tool] has put the
    tool into the registry that [ToolRegistry()] made. *)
Definition _registry : ToolRegistry :=
  register empty_registry sql_query_constructor_tool.

End Tool.

End SqlTool.

(** ** Vocabulary of the statements below *)

Module Spec.
Import PyStr Sqlparse SqlValidator Registry State Nodes Guards Graph.

(** One text occurs in another, and one text is the end of another. *)
Definition occurs_in (a b : string) : Prop :=
  exists pre post, b = pre ++ a ++ post.

Definition suffix_of (a b : string) : Prop :=
  exists pre, b = pre ++ a.

(** A position of the matcher inside a text: what is left to read is an end
    of the text, an open group started inside the text and before the
    position, and a closed group holds a piece of the text. *)
Definition inside (text : string) (st : Re.mstate) : Prop :=
  suffix_of (Re.rest st) text
  /\ (forall from, Re.gstart st = Some from ->
        suffix_of (Re.rest st) from /\ suffix_of from text)
  /\ (forall g, Re.gtext st = Some g -> occurs_in g text).

(** The loop of the matcher for a repetition, with the matcher of the
    repeated expression as its argument. *)
Definition star_loop (body : Re.mstate -> (Re.mstate -> option Re.mstate) -> option Re.mstate)
  (greedy : bool) (k : Re.mstate -> option Re.mstate)
  : nat -> Re.mstate -> option Re.mstate :=
  fix loop (n : nat) (st : Re.mstate) {struct n} : option Re.mstate :=
    match n with
    | O => k st
    | S n' =>
        if greedy then
          match body st (fun st' =>
                  if (String.length (Re.rest st') <? String.length (Re.rest st))%nat
                  then loop n' st' else None) with
          | Some res => Some res
          | None => k st
          end
        else
          match k st with
          | Some res => Some res
          | None =>
              body st (fun st' =>
                if (String.length (Re.rest st') <? String.length (Re.rest st))%nat
                then loop n' st' else None)
          end
    end.

(** A text starts with a word, up to what the flags ignore. *)
Fixpoint starts_like (fl : Re.flags) (word s : string) : bool :=
  match word, s with
  | EmptyString, _ => true
  | String c word', String a s' => Re.char_eq fl a c && starts_like fl word' s'
  | String _ _, EmptyString => false
  end.

(** A word made of upper-case letters. *)
Definition all_upper (word : string) : bool :=
  forallb is_upper (list_ascii_of_string word).

(** A text of ASCII characters. *)
Definition ascii_text (s : string) : bool :=
  forallb (fun c => (code c <? 128)%nat) (list_ascii_of_string s).

(** The 256 characters. *)
Definition all_ascii : list ascii := map ascii_of_nat (seq 0 256).

(** A word with no blank at its start and none at its end. *)
Definition starts_solid (word : string) : bool :=
  match word with
  | String a _ => negb (is_space a)
  | EmptyString => false
  end.

Fixpoint ends_solid (word : string) : bool :=
  match word with
  | EmptyString => false
  | String a EmptyString => negb (is_space a)
  | String _ word' => ends_solid word'
  end.

Definition solid (word : string) : bool := starts_solid word && ends_solid word.

(** A leaf that [count_joins] counts. *)
Definition is_join_keyword (leaf : ttype * string) : bool :=
  is_Keyword (fst leaf) && contains "JOIN" (upper (snd leaf)).

(** What the validator reads of an answer of the parser: the exception, or
    the first statement if there is one. *)
Definition first_statement (answer : pyresult (list token)) : pyresult (option token) :=
  match answer with
  | Ok [] => Ok None
  | Ok (statement :: _) => Ok (Some statement)
  | Raise t e => Raise t e
  end.

(** Limits that allow at least what other limits allow. *)
Definition at_least_as_permissive (loose tight : Settings) : Prop :=
  (sql_max_joins tight <= sql_max_joins loose)%Z
  /\ (sql_max_subqueries tight <= sql_max_subqueries loose)%Z.

(** A registry that [register] built, starting from [ToolRegistry()]. *)
Inductive built : ToolRegistry -> Prop :=
| built_empty : built empty_registry
| built_register (registry : ToolRegistry) (tool : BaseTool) :
    built registry -> built (register registry tool).

(** [isinstance(m, AIMessage)] *)
Definition is_AIMessage (m : Message) : bool :=
  match m with AIMessage _ _ => true | _ => false end.

(** What a node needs of the state it is entered with: ACT a tool
    invocation request in the last message, OBSERVE a tool output that is
    not Python's [None]. *)
Definition ready (n : node) (state : AgentState) : Prop :=
  match n with
  | act => should_use_tool state = Ok "use_tool"
  | observe => tool_output state <> Some None
  | _ => True
  end.

(** The answer of the backend on a THINK step, the state after the step,
    and the state after the guard has run. *)
Definition answer (llm : backend) (registry : ToolRegistry) (state : AgentState)
  : AIResponse :=
  llm (get_tool_schemas registry) (think_input state).

Definition after_think (llm : backend) (registry : ToolRegistry) (state : AgentState)
  : AgentState :=
  apply_update state (think_node llm registry state).

Definition after_guard (settings : Settings) (parse : parser)
  (get_type : token -> string) (format_sql : string -> string) (state : AgentState)
  : AgentState :=
  apply_update state (sql_validation_guard settings parse get_type format_sql state).

(** The output OBSERVE reads: an absent key reads as the empty text. *)
Definition observed (state : AgentState) : string :=
  match tool_output state with
  | Some (Some out) => out
  | _ => EmptyString
  end.

(** The state after ACT has dispatched a request and OBSERVE has read the
    output. *)
Definition after_tool (registry : ToolRegistry) (state : AgentState)
  (tool_call : ToolCall) : AgentState :=
  let text := dispatch_text registry tool_call in
  apply_update (apply_update state (tool_update text tool_call))
    {| u_messages := []; u_tool_output := None; u_iteration_count := None;
       u_should_continue := Some (startswith "Error:" text);
       u_sql_safe := None; u_sql_violations := None; u_guard_checked := None |}.

(** A backend that asks for a tool on every transcript, with a registry in
    which the dispatch of what it asks for fails. *)
Definition always_failing (llm : backend) (registry : ToolRegistry) : Prop :=
  forall tools transcript, exists tool_call others,
    r_tool_calls (llm tools transcript) = tool_call :: others
    /\ startswith "Error:" (dispatch_text registry tool_call) = true.

End Spec.

(** ** More sample collaborators *)

Module MoreSamples.
Import PyStr Sqlparse SqlValidator Registry State Nodes SqlTool.

(** A backend whose first answer of a turn is destructive SQL and whose
    later answers are plain text. *)
Definition retrying_llm : backend :=
  fun _ transcript =>
    {| r_content := if (length transcript <=? 2)%nat then Sample.q_drop else "Done.";
       r_tool_calls := [] |}.

(** A backend that asks for the tool [echo]. *)
Definition echo_llm : backend :=
  fun _ _ =>
    {| r_content := EmptyString;
       r_tool_calls := [{| tc_name := "echo"; tc_args := ∅; tc_id := "call_1" |}] |}.

(** A request for the validation of a query, and a state whose last message
    carries it. *)
Definition validation_request (query : string) : ToolCall :=
  {| tc_name := "sql_query_constructor";
     tc_args := {[ "query" := VStr query ]};
     tc_id := "call_7" |}.

Definition validation_state (query : string) : AgentState :=
  apply_update (initial_state query)
    {| u_messages := [AIMessage EmptyString [validation_request query]];
       u_tool_output := None; u_iteration_count := Some 1%Z;
       u_should_continue := None; u_sql_safe := None; u_sql_violations := None;
       u_guard_checked := None |}.

(** A selection followed by the keyword EXEC, which the lexer types as a
    plain keyword, and the sample parser extended with it. *)
Definition q_exec : string := "SELECT * FROM users EXEC".

Definition t_exec : token :=
  Grp Statement (Sample.select_from "users" ++ [Sample.ws; Sample.kw "EXEC"]).

Definition exec_parse : parser := fun query =>
  if String.eqb query q_exec then Ok [t_exec] else Sample.parse query.

(** Six subqueries, each nested in the one before, written on one line,
    and what [strip('()')] leaves of the text of the outermost bracket:
    all its closing brackets are gone. *)
Definition q_nested6 : string :=
  "SELECT * FROM (SELECT * FROM (SELECT * FROM (SELECT * FROM "
  ++ "(SELECT * FROM (SELECT * FROM (SELECT * FROM users))))))".

Definition q_unclosed : string :=
  "SELECT * FROM (SELECT * FROM (SELECT * FROM (SELECT * FROM "
  ++ "(SELECT * FROM (SELECT * FROM users".

Definition select_star_from : list token :=
  [Tok Keyword_DML "SELECT"; Sample.ws; Tok Wildcard "*"; Sample.ws;
   Sample.kw "FROM"; Sample.ws].

(** The parser groups matching brackets, one group inside the other ... *)
Fixpoint subquery (depth : nat) : list token :=
  match depth with
  | O => Sample.select_from "users"
  | S depth' =>
      select_star_from
      ++ [Grp Parenthesis ([Tok Punctuation "("] ++ subquery depth'
                           ++ [Tok Punctuation ")"])]
  end.

(** ... and leaves a bracket that is never closed as a leaf. *)
Fixpoint unclosed (depth : nat) : list token :=
  match depth with
  | O => Sample.select_from "users"
  | S depth' => select_star_from ++ [Tok Punctuation "("] ++ unclosed depth'
  end.

Definition t_nested6 : token := Grp Statement (subquery 6).
Definition t_unclosed : token := Grp Statement (unclosed 5).

Definition nested_parse : parser := fun query =>
  if String.eqb query q_nested6 then Ok [t_nested6]
  else if String.eqb query q_unclosed then Ok [t_unclosed]
  else Sample.parse query.

(** The registry of the running program, with the sample parser. *)
Definition tool_registry : ToolRegistry :=
  _registry Sample.parse Sample.get_type Sample.format_sql default_settings.

End MoreSamples.

(** * Properties *)

(** ** Strings and token trees *)

Module TokenFacts.
Import PyStr Sqlparse.

Lemma token_ind (P : token -> Prop) :
  (forall ty v, P (Tok ty v)) ->
  (forall cls toks, Forall P toks -> P (Grp cls toks)) ->
  forall t, P t.
Proof.
  intros Hleaf Hgroup.
  fix IH 1. intros [ty v|cls toks].
  - apply Hleaf.
  - apply Hgroup. induction toks as [|t toks IHtoks]; constructor.
    + apply IH.
    + exact IHtoks.
Qed.

Lemma lstrip_by_length (f : ascii -> bool) (s : string) :
  String.length (lstrip_by f s) <= String.length s.
Proof.
  induction s as [|c s IH]; simpl; [lia|].
  destruct (f c); simpl; lia.
Qed.

Lemma rstrip_by_length (f : ascii -> bool) (s : string) :
  String.length (rstrip_by f s) <= String.length s.
Proof.
  induction s as [|c s IH]; simpl; [lia|].
  destruct (rstrip_by f s); [destruct (f c)|]; simpl in *; lia.
Qed.

(** Stripping the brackets of a text that starts with one shortens it. *)
Lemma strip_brackets_shorter (s : string) :
  startswith "(" s = true ->
  String.length (strip_chars "()" s) < String.length s.
Proof.
  intros Hc. destruct s as [|c s]; [discriminate|].
  cbn [startswith] in Hc. rewrite andb_true_r in Hc.
  apply Ascii.eqb_eq in Hc. subst c.
  unfold strip_chars. cbn [lstrip_by].
  change (in_chars "()" "("%char) with true. cbv iota. cbn [String.length].
  pose proof (rstrip_by_length (in_chars "()") (lstrip_by (in_chars "()") s)).
  pose proof (lstrip_by_length (in_chars "()") s). lia.
Qed.

Lemma append_length (a b : string) :
  String.length (a ++ b) = String.length a + String.length b.
Proof. induction a as [|c a IH]; simpl; [reflexivity | by rewrite IH]. Qed.

Lemma str_length (t : token) : String.length (str t) = leaves_length (flatten t).
Proof.
  unfold str, leaves_length. induction (flatten t) as [|leaf leaves IH]; simpl.
  - reflexivity.
  - by rewrite append_length, IH.
Qed.

Lemma leaves_length_app (a b : list (ttype * string)) :
  leaves_length (a ++ b) = leaves_length a + leaves_length b.
Proof. unfold leaves_length. by rewrite map_app, list_sum_app. Qed.

(** A token holds no more text than the group it is in. *)
Lemma child_length (cls : tclass) (toks : list token) (tok : token) :
  In tok toks -> String.length (str tok) <= String.length (str (Grp cls toks)).
Proof.
  rewrite !str_length. simpl. induction toks as [|t toks IH]; intros Hin; [destruct Hin|].
  simpl. rewrite leaves_length_app. destruct Hin as [->|Hin]; [lia|].
  specialize (IH Hin). lia.
Qed.

Lemma child_well_bracketed (cls : tclass) (toks : list token) (tok : token) :
  well_bracketed (Grp cls toks) = true -> In tok toks -> well_bracketed tok = true.
Proof.
  simpl. intros Hwb Hin. apply andb_prop in Hwb. destruct Hwb as [_ Hall].
  rewrite forallb_forall in Hall. by apply Hall.
Qed.

Lemma list_sum_map_ext {A : Type} (f g : A -> nat) (l : list A) :
  (forall x, In x l -> f x = g x) -> list_sum (map f l) = list_sum (map g l).
Proof.
  induction l as [|x l IH]; intros Hext; simpl; [reflexivity|].
  rewrite (Hext x (or_introl eq_refl)), IH; [reflexivity|].
  intros y Hy. apply Hext. by right.
Qed.

End TokenFacts.

(** ** The validator *)

Module ValidatorFacts.
Import PyStr Sqlparse SqlValidator.

Section Facts.

Variable parse : parser.
Variable get_type : token -> string.
Variable format_sql : string -> string.
Variable settings : Settings.

Local Abbreviation validate := (validate_sql_query parse get_type format_sql settings).
Local Abbreviation subqueries := (count_subqueries parse get_type).
Local Abbreviation join_error := (join_error settings).
Local Abbreviation subquery_error := (subquery_error parse get_type settings).

Lemma fold_fail msgs : forall r,
  let r' := fold_left (fun r msg => fail msg r) msgs r in
  valid r' = valid r && no_errors msgs
  /\ errors r' = (errors r ++ msgs)%list
  /\ warnings r' = warnings r
  /\ metadata r' = metadata r.
Proof.
  induction msgs as [|msg msgs IH]; intros r; simpl.
  - rewrite andb_true_r, app_nil_r. auto.
  - destruct (IH (fail msg r)) as (Hv & He & Hw & Hm).
    rewrite Hv, He, Hw, Hm. simpl.
    rewrite andb_false_r, <- app_assoc. auto.
Qed.

(** What the three accumulating layers and the final rendering leave in
    the result of a statement that passed the type layer. *)
Lemma select_verdict query statement rest :
  parse query = Ok (statement :: rest) ->
  get_type statement = "SELECT" ->
  let r := validate query in
  valid r = no_errors (blocked_errors statement)
            && no_errors (join_error statement)
            && no_errors (subquery_error statement)
  /\ errors r = (blocked_errors statement ++ join_error statement
                 ++ subquery_error statement)%list
  /\ warnings r = []
  /\ metadata r =
       <["formatted_query" := VStr (format_sql query)]>
         (<["subquery_count" := VInt (Z.of_nat (subqueries statement))]>
            (<["join_count" := VInt (Z.of_nat (count_joins statement))]> ∅)).
Proof.
  intros Hparse Htype. unfold validate_sql_query.
  rewrite Hparse, Htype. simpl negb. cbv iota.
  unfold layer3.
  destruct (fold_fail (blocked_errors statement) new_result) as (Hv & He & Hw & Hm).
  set (r3 := fold_left _ _ _) in *. simpl in Hv, He, Hw, Hm.
  unfold layer5, layer4, join_error, subquery_error.
  destruct (Z.of_nat (count_joins statement) >? sql_max_joins settings)%Z;
    destruct (Z.of_nat (subqueries statement) >? sql_max_subqueries settings)%Z;
    simpl; rewrite ?Hv, ?He, ?Hw, ?Hm, ?app_nil_r, ?andb_true_r, ?andb_false_r;
    rewrite <- ?app_assoc; auto.
Qed.

Lemma early_verdict query :
  (forall statement rest,
      parse query = Ok (statement :: rest) -> get_type statement <> "SELECT") ->
  let r := validate query in
  valid r = false /\ metadata r = ∅ /\ exists msg, errors r = [msg].
Proof.
  intros Hearly. unfold validate_sql_query.
  destruct (parse query) as [[|statement rest]|t e] eqn:Hparse; simpl; eauto.
  destruct (String.eqb_spec (get_type statement) "SELECT") as [Heq|Hne]; simpl; eauto.
  exfalso. eapply Hearly; eauto.
Qed.

End Facts.

Section Subqueries.

Variable parse : parser.
Variable get_type : token -> string.
Hypothesis parse_keeps_text : keeps_text parse.
Hypothesis parse_keeps_brackets : keeps_brackets parse.

Local Abbreviation upto := (count_subqueries_upto parse get_type).
Local Abbreviation subqueries := (count_subqueries parse get_type).

(** What one token of a statement adds to the count at a given depth:
    the body of the loop of [count_subqueries]. *)
Lemma count_subqueries_upto_S (depth : nat) (cls : tclass) (toks : list token) :
  upto (S depth) (Grp cls toks)
  = list_sum (map (fun tok =>
                     match tok with
                     | Tok _ _ => 0
                     | Grp c _ =>
                         if is_Parenthesis c
                         then paren_subqueries parse get_type (upto depth) tok
                         else upto (S depth) tok
                     end) toks).
Proof. reflexivity. Qed.

Lemma paren_subqueries_ext (f g : token -> nat) (tok : token) (bound : nat) :
  well_bracketed tok = true ->
  (exists toks, tok = Grp Parenthesis toks) ->
  String.length (str tok) <= bound ->
  (forall inner, well_bracketed inner = true ->
                 String.length (str inner) < bound -> f inner = g inner) ->
  paren_subqueries parse get_type f tok = paren_subqueries parse get_type g tok.
Proof.
  intros Hwb [toks ->] Hlen Hext. unfold paren_subqueries.
  destruct (parse _) as [[|inner rest]|] eqn:Hparse; try reflexivity.
  destruct (String.eqb _ _); [|reflexivity].
  f_equal. apply Hext.
  - eapply parse_keeps_brackets, Hparse.
  - pose proof (parse_keeps_text _ _ _ Hparse) as Hinner.
    simpl in Hwb. apply andb_prop in Hwb. destruct Hwb as [Hstart _].
    pose proof (TokenFacts.strip_brackets_shorter _ Hstart). lia.
Qed.

(** Any two depths above the length of the text give the same count. *)
Lemma count_subqueries_upto_stable (d1 : nat) : forall d2 statement,
  well_bracketed statement = true ->
  String.length (str statement) < d1 ->
  String.length (str statement) < d2 ->
  upto d1 statement = upto d2 statement.
Proof.
  induction d1 as [|d1 IHd]; intros d2 statement Hwb H1 H2; [lia|].
  destruct d2 as [|d2]; [lia|].
  revert Hwb H1 H2. induction statement as [ty v|cls toks IHtoks] using TokenFacts.token_ind;
    intros Hwb H1 H2; [reflexivity|].
  rewrite !count_subqueries_upto_S.
  apply TokenFacts.list_sum_map_ext. intros tok Hin.
  pose proof (TokenFacts.child_length cls toks tok Hin) as Hlen.
  pose proof (TokenFacts.child_well_bracketed cls toks tok Hwb Hin) as Hwbtok.
  rewrite List.Forall_forall in IHtoks. specialize (IHtoks tok Hin).
  destruct tok as [ty v|c sub]; [reflexivity|].
  destruct c; simpl is_Parenthesis; cbv iota;
    try (apply IHtoks; [exact Hwbtok | lia | lia]).
  apply (paren_subqueries_ext _ _ _ (String.length (str (Grp Parenthesis sub))));
    [exact Hwbtok | eauto | lia |].
  intros inner Hwbi Hleni. apply IHd; [exact Hwbi | lia | lia].
Qed.

(** The depth that [count_subqueries] starts with is enough: a greater
    one counts the same. *)
Lemma count_subqueries_enough (depth : nat) (statement : token) :
  well_bracketed statement = true ->
  String.length (str statement) < depth ->
  upto depth statement = subqueries statement.
Proof.
  intros Hwb Hlen. unfold count_subqueries.
  apply count_subqueries_upto_stable; [exact Hwb | exact Hlen | lia].
Qed.

(** So [count_subqueries] obeys the recursion of the source: a
    [Parenthesis] token whose inner text parses to a SELECT statement
    counts one plus the subqueries of that statement, any other group
    counts its own subqueries. *)
Lemma count_subqueries_unfold (cls : tclass) (toks : list token) :
  well_bracketed (Grp cls toks) = true ->
  subqueries (Grp cls toks)
  = list_sum (map (fun tok =>
                     match tok with
                     | Tok _ _ => 0
                     | Grp c _ =>
                         if is_Parenthesis c
                         then paren_subqueries parse get_type subqueries tok
                         else subqueries tok
                     end) toks).
Proof.
  intros Hwb. unfold count_subqueries at 1. rewrite count_subqueries_upto_S.
  apply TokenFacts.list_sum_map_ext. intros tok Hin.
  pose proof (TokenFacts.child_length cls toks tok Hin) as Hlen.
  pose proof (TokenFacts.child_well_bracketed cls toks tok Hwb Hin) as Hwbtok.
  destruct tok as [ty v|c sub]; [reflexivity|].
  destruct c; simpl is_Parenthesis; cbv iota;
    try (apply count_subqueries_enough; [exact Hwbtok | lia]).
  apply (paren_subqueries_ext _ _ _ (String.length (str (Grp cls toks))));
    [exact Hwbtok | eauto | lia |].
  intros inner Hwbi Hleni. by apply count_subqueries_enough.
Qed.

End Subqueries.

(** The sample parser has the two properties, and on the nested query of
    the examples the count is one. *)
Lemma sample_parse_keeps_text : keeps_text Sample.parse.
Proof.
  intros query statement rest H. unfold Sample.parse, Sample.parse_table in H.
  cbn [find fst snd] in H.
  repeat match type of H with
         | context [String.eqb ?known query] =>
             destruct (String.eqb_spec known query) as [<-|_];
             [first [discriminate | injection H as <- _; vm_compute; lia]|]
         end.
  injection H as <- _. unfold str. cbn [flatten flat_map app fold_right snd].
  rewrite TokenFacts.append_length. simpl. lia.
Qed.

Lemma sample_parse_keeps_brackets : keeps_brackets Sample.parse.
Proof.
  intros query statement rest H. unfold Sample.parse, Sample.parse_table in H.
  cbn [find fst snd] in H.
  repeat match type of H with
         | context [String.eqb ?known query] =>
             destruct (String.eqb_spec known query) as [<-|_];
             [first [discriminate | injection H as <- _; reflexivity]|]
         end.
  injection H as <- _. reflexivity.
Qed.

Lemma sample_nested_count :
  count_subqueries Sample.parse Sample.get_type Sample.t_nested = 1
  /\ forall depth, String.length Sample.q_nested < depth ->
       count_subqueries_upto Sample.parse Sample.get_type depth Sample.t_nested = 1.
Proof.
  split; [reflexivity|]. intros depth Hdepth.
  rewrite (count_subqueries_enough Sample.parse Sample.get_type
             sample_parse_keeps_text sample_parse_keeps_brackets);
    [reflexivity | reflexivity | exact Hdepth].
Qed.

(** X27. When the parser raises, or returns no statement (as it does for
    the empty query), the result is invalid and carries one parse-error
    message, and nothing was recorded in the metadata; the exception of
    the parser is turned into that message, so validation itself does not
    raise. *)
Theorem parse_failure_is_reported
  (parse : parser) (get_type : token -> string) (format_sql : string -> string)
  (settings : Settings) (query : string) :
  (parse query = Ok [] \/ exists t e, parse query = Raise t e) ->
  let r := validate_sql_query parse get_type format_sql settings query in
  valid r = false
  /\ metadata r = ∅
  /\ match parse query with
     | Raise _ e => errors r = ["SQL parsing failed: " ++ e]
     | Ok _ => errors r = ["Empty or invalid SQL query"]
     end.
Proof.
  intros Hfail r. subst r. unfold validate_sql_query.
  destruct Hfail as [Hempty | (t & e & Hraise)].
  - rewrite Hempty. simpl. auto.
  - rewrite Hraise. simpl. auto.
Qed.

(** C5. A query whose parsed statement is classified as anything but
    SELECT is invalid, and its only error names the detected type; a
    valid result therefore comes from a SELECT-classified statement; and
    the DELETE statement of the specification, which the parser
    classifies as DELETE, is rejected with an error that names DELETE. *)
Theorem only_select_passes_type_layer
  (parse : parser) (get_type : token -> string) (format_sql : string -> string)
  (settings : Settings) (query : string) (statement : token) (rest : list token) :
  parse query = Ok (statement :: rest) ->
  let r := validate_sql_query parse get_type format_sql settings query in
  (get_type statement <> "SELECT" ->
     valid r = false
     /\ errors r = ["Only SELECT statements allowed, got: " ++ get_type statement])
  /\ (valid r = true -> get_type statement = "SELECT")
  /\ (query = "DELETE FROM users WHERE id = 1" -> get_type statement = "DELETE" ->
        valid r = false
        /\ errors r = ["Only SELECT statements allowed, got: DELETE"]).
Proof.
  intros Hparse r.
  assert (Hreject : get_type statement <> "SELECT" ->
            valid r = false
            /\ errors r = ["Only SELECT statements allowed, got: " ++ get_type statement]).
  { intros Hne. subst r. unfold validate_sql_query. rewrite Hparse.
    destruct (String.eqb_spec (get_type statement) "SELECT") as [Heq|_];
      [contradiction | simpl; auto]. }
  split; [exact Hreject|]. split.
  - intros Hvalid.
    destruct (String.eqb_spec (get_type statement) "SELECT") as [Heq|Hne]; [exact Heq|].
    destruct (Hreject Hne) as [Hv _]. congruence.
  - intros _ Htype.
    assert (Hne : get_type statement <> "SELECT") by (rewrite Htype; discriminate).
    destruct (Hreject Hne) as [Hv He]. rewrite Htype in He. auto.
Qed.

(** The DELETE statement on the sample parser. *)
Lemma only_select_passes_type_layer_witness :
  Sample.parse Sample.q_delete = Ok [Sample.t_delete]
  /\ valid (Sample.validate Sample.q_delete) = false
  /\ errors (Sample.validate Sample.q_delete)
     = ["Only SELECT statements allowed, got: DELETE"].
Proof.
  split; [reflexivity|].
  exact (proj2 (proj2 (only_select_passes_type_layer Sample.parse Sample.get_type
                         Sample.format_sql default_settings Sample.q_delete
                         Sample.t_delete [] eq_refl)) eq_refl eq_refl).
Defined.


(** The comparisons of layers 4 and 5, on the counts that [count_joins]
    and [count_subqueries] return for a SELECT-classified statement
    without blocked keyword: a count equal to its limit passes, a count
    one above it adds an error that reports the count and the limit; the
    limits are 3 and 5 unless configured otherwise. What
    [count_subqueries] returns for nested subqueries is another matter. *)
Theorem limits_are_inclusive
  (parse : parser) (get_type : token -> string) (format_sql : string -> string)
  (settings : Settings) (query : string) (statement : token) (rest : list token) :
  parse query = Ok (statement :: rest) ->
  get_type statement = "SELECT" ->
  blocked_errors statement = [] ->
  let r := validate_sql_query parse get_type format_sql settings query in
  let joins := Z.of_nat (count_joins statement) in
  let subs := Z.of_nat (count_subqueries parse get_type statement) in
  let max_joins := sql_max_joins settings in
  let max_subs := sql_max_subqueries settings in
  (joins = max_joins -> (subs <= max_subs)%Z -> valid r = true /\ errors r = [])
  /\ (joins = (max_joins + 1)%Z ->
        valid r = false
        /\ In ("Too many JOINs: " ++ str_int joins ++ " (max: " ++ str_int max_joins ++ ")")
              (errors r))
  /\ (subs = max_subs -> (joins <= max_joins)%Z -> valid r = true /\ errors r = [])
  /\ (subs = (max_subs + 1)%Z ->
        valid r = false
        /\ In ("Too many subqueries: " ++ str_int subs ++ " (max: " ++ str_int max_subs ++ ")")
              (errors r))
  /\ sql_max_joins default_settings = 3%Z
  /\ sql_max_subqueries default_settings = 5%Z.
Proof.
  intros Hparse Htype Hblocked r joins subs max_joins max_subs.
  destruct (select_verdict parse get_type format_sql settings query statement rest
              Hparse Htype) as (Hv & He & _ & _).
  fold r in Hv, He. rewrite Hblocked in Hv, He. simpl in Hv, He.
  unfold join_error, subquery_error in Hv, He.
  fold joins subs max_joins max_subs in Hv, He.
  assert (Hwithin : (joins <= max_joins)%Z -> (subs <= max_subs)%Z ->
                    valid r = true /\ errors r = []).
  { intros Hj Hs.
    destruct (Z.gtb_spec joins max_joins); [lia|].
    destruct (Z.gtb_spec subs max_subs); [lia|].
    rewrite Hv, He. auto. }
  repeat split.
  - apply Hwithin; lia.
  - apply Hwithin; lia.
  - destruct (Z.gtb_spec joins max_joins); [|lia]. rewrite Hv. reflexivity.
  - destruct (Z.gtb_spec joins max_joins); [|lia]. rewrite He. left. reflexivity.
  - apply Hwithin; lia.
  - apply Hwithin; lia.
  - destruct (Z.gtb_spec subs max_subs); [|lia]. rewrite Hv.
    apply andb_false_r.
  - destruct (Z.gtb_spec subs max_subs); [|lia]. rewrite He.
    apply in_or_app. right. left. reflexivity.
Qed.

(** Three JOINs under the default limits, on the sample parser. *)
Lemma limits_are_inclusive_witness :
  (Sample.parse Sample.q_joins3 = Ok [Sample.t_joins3]
   /\ Sample.get_type Sample.t_joins3 = "SELECT"
   /\ blocked_errors Sample.t_joins3 = []
   /\ Z.of_nat (count_joins Sample.t_joins3) = sql_max_joins default_settings)
  /\ valid (Sample.validate Sample.q_joins3) = true
  /\ errors (Sample.validate Sample.q_joins3) = [].
Proof.
  split; [repeat split; reflexivity|].
  refine (proj1 (limits_are_inclusive Sample.parse Sample.get_type Sample.format_sql
                   default_settings Sample.q_joins3 Sample.t_joins3 []
                   eq_refl eq_refl eq_refl) eq_refl _).
  vm_compute. discriminate.
Defined.

(** C10. For a query that parses and is classified as SELECT the metadata
    holds [join_count], [subquery_count] and [formatted_query] whether
    the result is valid or not, since the blocklist, the JOIN limit and
    the subquery limit only add their errors to the list; the metadata is
    empty exactly for the early returns: a parse failure or a statement
    that is not classified as SELECT. *)
Theorem metadata_survives_errors
  (parse : parser) (get_type : token -> string) (format_sql : string -> string)
  (settings : Settings) (query : string) :
  let r := validate_sql_query parse get_type format_sql settings query in
  (forall statement rest,
      parse query = Ok (statement :: rest) ->
      get_type statement = "SELECT" ->
      metadata r !! "join_count" = Some (VInt (Z.of_nat (count_joins statement)))
      /\ metadata r !! "subquery_count"
         = Some (VInt (Z.of_nat (count_subqueries parse get_type statement)))
      /\ metadata r !! "formatted_query" = Some (VStr (format_sql query))
      /\ errors r = (blocked_errors statement
                     ++ join_error settings statement
                     ++ subquery_error parse get_type settings statement)%list)
  /\ (metadata r = ∅ <->
      ~ exists statement rest,
          parse query = Ok (statement :: rest) /\ get_type statement = "SELECT").
Proof.
  intros r. split.
  - intros statement rest Hparse Htype.
    destruct (select_verdict parse get_type format_sql settings query statement rest
                Hparse Htype) as (_ & He & _ & Hm).
    fold r in He, Hm. rewrite Hm, He.
    repeat split; by simplify_map_eq.
  - split.
    + intros Hempty (statement & rest & Hparse & Htype).
      destruct (select_verdict parse get_type format_sql settings query statement rest
                  Hparse Htype) as (_ & _ & _ & Hm).
      fold r in Hm. rewrite Hempty in Hm.
      apply (f_equal (fun m => m !! "formatted_query")) in Hm.
      by simplify_map_eq.
    + intros Hearly.
      apply (early_verdict parse get_type format_sql settings query).
      intros statement rest Hparse Htype. apply Hearly. eauto.
Qed.

(** The empty query on the sample parser. *)
Lemma parse_failure_is_reported_witness :
  Sample.parse EmptyString = Ok []
  /\ valid (Sample.validate EmptyString) = false
  /\ errors (Sample.validate EmptyString) = ["Empty or invalid SQL query"].
Proof.
  split; [reflexivity|].
  destruct (parse_failure_is_reported Sample.parse Sample.get_type Sample.format_sql
              default_settings EmptyString (or_introl eq_refl)) as (Hv & _ & He).
  split; [exact Hv | exact He].
Defined.

(** C3. The validator does not check that a text parses into a single
    statement: the text [SELECT 1; DROP TABLE users], which the parser
    splits into a SELECT and a DROP statement, is judged by its first
    statement alone and comes out valid, without error, although the
    module and the tool promise that only SELECT passes and that DROP is
    refused. *)
Theorem stacked_statements_are_accepted :
  Sample.parse Sample.q_stacked = Ok Sample.t_stacked
  /\ map Sample.get_type Sample.t_stacked = ["SELECT"; "DROP"]
  /\ (~ exists statement, Sample.parse Sample.q_stacked = Ok [statement])
  /\ valid (Sample.validate Sample.q_stacked) = true
  /\ errors (Sample.validate Sample.q_stacked) = [].
Proof.
  split; [reflexivity|]. split; [reflexivity|]. split; [|split; reflexivity].
  intros [statement H]. vm_compute in H. discriminate.
Qed.

End ValidatorFacts.

(** ** The detector *)

Module DetectorFacts.
Import PyStr Re SqlDetector.

Lemma mem_false (x : string) (xs : list string) : mem x xs = false -> x ∉ xs.
Proof.
  unfold mem. intros Hmem Hin.
  apply list_elem_of_In in Hin.
  assert (Hex : existsb (String.eqb x) xs = true).
  { apply existsb_exists. exists x. split; [exact Hin | apply String.eqb_refl]. }
  congruence.
Qed.

(** The inline scan adds a statement only when it is not in the list
    yet. *)
Lemma add_inline_NoDup (queries : list string) (m : rematch) :
  NoDup queries -> NoDup (add_inline queries m).
Proof.
  intros Hnd. unfold add_inline.
  destruct (found flags_icase pattern_confirm _); [|exact Hnd].
  destruct (mem _ queries) eqn:Hmem; simpl; [exact Hnd|].
  apply NoDup_app. split; [exact Hnd|]. split.
  - intros x Hx Hin. apply list_elem_of_singleton in Hin. subst x.
    exact (mem_false _ _ Hmem Hx).
  - apply NoDup_singleton.
Qed.

Lemma add_keyword_NoDup (text : string) (queries : list string) (keyword : string) :
  NoDup queries -> NoDup (add_keyword text queries keyword).
Proof.
  unfold add_keyword.
  generalize (finditer flags_inline (pattern_statement keyword) text).
  intros ms. revert queries.
  induction ms as [|m ms IH]; intros queries Hnd; simpl; [exact Hnd|].
  apply IH. apply add_inline_NoDup. exact Hnd.
Qed.

(** What holds of the extractor: it repeats no statement unless two
    fenced regions hold the same text, in whatever order the keywords
    are taken. *)
Lemma extract_NoDup (keywords : list string) (text : string) :
  NoDup (block_queries keywords text) ->
  NoDup (extract_sql_queries_in keywords text).
Proof.
  unfold extract_sql_queries_in.
  generalize (block_queries keywords text). intros queries.
  revert queries.
  induction keywords as [|keyword keywords' IH]; intros queries Hnd; simpl; [exact Hnd|].
  apply IH. apply add_keyword_NoDup. exact Hnd.
Qed.

(** What holds of the detector: a keyword in the first fenced region
    flags the text. *)
Lemma contains_sql_first_block (keywords : list string) (text : string) :
  first_block_hits keywords text = true -> contains_sql_in keywords text = true.
Proof. intros H. unfold contains_sql_in. rewrite H. reflexivity. Qed.

(** The order in which the keyword set is iterated does not change what
    the detector answers. *)
Lemma existsb_order {A : Type} (f : A -> bool) (l l' : list A) :
  l ≡ₚ l' -> existsb f l = existsb f l'.
Proof.
  induction 1 as [|x l l' _ IH|x y l|l l' l'' _ IH1 _ IH2]; simpl.
  - reflexivity.
  - by rewrite IH.
  - destruct (f x), (f y); reflexivity.
  - by rewrite IH1.
Qed.

Lemma contains_sql_any_order (keywords : list string) (text : string) :
  keywords ≡ₚ SQL_KEYWORDS -> contains_sql_in keywords text = contains_sql text.
Proof.
  intros Hperm. unfold contains_sql, contains_sql_in, first_block_hits,
    contains_sql_patterns_in.
  destruct (found flags_block block_pattern text);
    [destruct (search flags_block code_block_pattern text) as [m|]|];
    repeat rewrite (existsb_order _ keywords SQL_KEYWORDS Hperm); reflexivity.
Qed.

(** The inline scan only appends to the list it is given. *)
Lemma add_keywords_extend (text : string) (keywords : list string) :
  forall queries, exists added,
    fold_left (add_keyword text) keywords queries = (queries ++ added)%list.
Proof.
  assert (Hinline : forall ms queries, exists added,
             fold_left add_inline ms queries = (queries ++ added)%list).
  { induction ms as [|m ms IH]; intros queries; simpl.
    - exists []. by rewrite app_nil_r.
    - destruct (IH (add_inline queries m)) as [added ->]. unfold add_inline.
      destruct (found flags_icase pattern_confirm _); [|eauto].
      destruct (negb _); [|eauto].
      rewrite <- app_assoc. eauto. }
  induction keywords as [|keyword keywords' IH]; intros queries; simpl.
  - exists []. by rewrite app_nil_r.
  - destruct (IH (add_keyword text queries keyword)) as [added ->].
    destruct (Hinline (finditer flags_inline (pattern_statement keyword) text) queries)
      as [added' Hadded]. unfold add_keyword. rewrite Hadded, <- app_assoc. eauto.
Qed.

(** The repeated statement of [Sample.repeated_block_text] comes back twice
    in whatever order the keywords are taken. *)
Lemma extract_repeats_in_any_order (keywords : list string) :
  keywords ≡ₚ SQL_KEYWORDS ->
  exists added,
    extract_sql_queries_in keywords Sample.repeated_block_text
    = ("SELECT * FROM users" :: "SELECT * FROM users" :: added)%list.
Proof.
  intros Hperm. unfold extract_sql_queries_in.
  assert (Hblocks : block_queries keywords Sample.repeated_block_text
                    = ["SELECT * FROM users"; "SELECT * FROM users"]).
  { transitivity (block_queries SQL_KEYWORDS Sample.repeated_block_text);
      [|vm_compute; reflexivity].
    unfold block_queries. apply flat_map_ext. intros m.
    unfold contains_sql_patterns_in. by rewrite (existsb_order _ _ _ Hperm). }
  rewrite Hblocks.
  destruct (add_keywords_extend Sample.repeated_block_text keywords
              ["SELECT * FROM users"; "SELECT * FROM users"]) as [added ->].
  exists added. reflexivity.
Qed.

(** C4. The text holds two fenced regions; the second one is the
    statement DROP TABLE users; which holds the keyword DROP with its
    companion TABLE and is detected when it stands alone or in the first
    region; here [contains_sql] answers false, because only the first
    region is looked at and all regions are removed before the inline
    scan, while [extract_sql_queries] does find the statement. *)
Theorem contains_sql_skips_later_blocks :
  map group_1 (finditer flags_block code_block_pattern Sample.later_block_text)
  = ["hi" ++ nl; "DROP TABLE users;" ++ nl]
  /\ contains_sql_patterns ("DROP TABLE users;" ++ nl) = true
  /\ contains_sql "DROP TABLE users;" = true
  /\ contains_sql ("```sql" ++ nl ++ "DROP TABLE users;" ++ nl ++ "```") = true
  /\ extract_sql_queries Sample.later_block_text = ["DROP TABLE users;"]
  /\ contains_sql Sample.later_block_text = false.
Proof. vm_compute. repeat split. Qed.

(** C8. The text holds the same fenced region twice, and the extractor
    returns its statement twice: the fenced regions are appended without
    the membership test that the inline scan makes. *)
Theorem extract_repeats_fenced_statement :
  extract_sql_queries Sample.repeated_block_text
  = ["SELECT * FROM users"; "SELECT * FROM users"]
  /\ ~ NoDup (extract_sql_queries Sample.repeated_block_text).
Proof.
  assert (H : extract_sql_queries Sample.repeated_block_text
              = ["SELECT * FROM users"; "SELECT * FROM users"])
    by (vm_compute; reflexivity).
  split; [exact H|]. rewrite H. intros Hnd.
  apply NoDup_cons in Hnd. destruct Hnd as [Hnotin _].
  apply Hnotin. apply list_elem_of_here.
Qed.

End DetectorFacts.

(** ** The guard *)

Module GuardFacts.
Import SqlDetector SqlValidator Sqlparse State Guards.

Section Facts.

Variable settings : Settings.
Variable parse : parser.
Variable get_type : token -> string.
Variable format_sql : string -> string.

Local Abbreviation validate := (Guards.validate settings parse get_type format_sql).
Local Abbreviation check_query := (check_query settings parse get_type format_sql).
Local Abbreviation guard := (sql_validation_guard settings parse get_type format_sql).

Lemma check_queries (queries : list string) : forall violations,
  fold_left check_query queries violations
  = (violations
     ++ map (violation_of settings parse get_type format_sql)
            (filter (fun query => negb (valid (validate query))) queries))%list.
Proof.
  induction queries as [|query queries' IH]; intros violations; simpl.
  - by rewrite app_nil_r.
  - rewrite IH. unfold Guards.check_query at 1, filter. simpl.
    destruct (valid (validate query)); simpl.
    + reflexivity.
    + by rewrite <- app_assoc.
Qed.

Lemma guard_on_content (state : AgentState) (m : Message) (content : string) :
  last (messages state) = Some m ->
  content_of m = Some content ->
  guard state = content_verdict settings parse get_type format_sql content.
Proof.
  intros Hlast Hcontent. unfold sql_validation_guard, content_verdict.
  by rewrite Hlast, Hcontent.
Qed.

End Facts.

(** C1. The guard always sets [guard_checked]; with no message, a last
    message without content, or a content in which the detector finds no
    SQL, the verdict is safe with no violation; otherwise the violations
    are the records of the extracted statements that fail validation, one
    for each, in their order, and the verdict is safe exactly when there is
    none, that is when every extracted statement is valid. *)
Theorem guard_verdict
  (settings : Settings) (parse : parser) (get_type : token -> string)
  (format_sql : string -> string) (state : AgentState) :
  let u := sql_validation_guard settings parse get_type format_sql state in
  let validate := validate_sql_query parse get_type format_sql settings in
  u_guard_checked u = Some true
  /\ (messages state = [] -> u_sql_safe u = Some true /\ u_sql_violations u = Some [])
  /\ (forall m, last (messages state) = Some m ->
       (content_of m = None ->
          u_sql_safe u = Some true /\ u_sql_violations u = Some [])
       /\ (forall content, content_of m = Some content ->
             (contains_sql content = false ->
                u_sql_safe u = Some true /\ u_sql_violations u = Some [])
             /\ (contains_sql content = true ->
                   let queries := extract_sql_queries content in
                   let invalid := filter (fun q => negb (valid (validate q))) queries in
                   u_sql_violations u
                   = Some (map (fun q => {| v_query := q;
                                            v_errors := errors (validate q);
                                            v_metadata := metadata (validate q) |})
                               invalid)
                   /\ (u_sql_safe u = Some true <-> invalid = [])
                   /\ (u_sql_safe u = Some true <->
                         forall q, q ∈ queries -> valid (validate q) = true)))).
Proof.
  intros u validate. subst u. unfold sql_validation_guard.
  split.
  { destruct (last (messages state)) as [m|]; [|reflexivity].
    destruct (content_of m) as [content|]; [|reflexivity].
    destruct (contains_sql content); reflexivity. }
  split.
  { intros Hnil. rewrite Hnil. simpl. auto. }
  intros m Hlast. rewrite Hlast. split.
  { intros Hnone. rewrite Hnone. simpl. auto. }
  intros content Hcontent. rewrite Hcontent. split.
  { intros Hno. rewrite Hno. simpl. auto. }
  intros Hsql. rewrite Hsql. simpl negb. cbv iota.
  rewrite check_queries. simpl app.
  unfold violation_of, Guards.validate. fold validate.
  set (queries := extract_sql_queries content).
  set (invalid := filter (fun q => negb (valid (validate q))) queries).
  simpl. rewrite length_map.
  assert (Hzero : (length invalid =? 0)%nat = true <-> invalid = []).
  { destruct invalid; simpl; split; congruence. }
  assert (Hsafe : Some (length invalid =? 0)%nat = Some true <-> invalid = []).
  { rewrite <- Hzero. split; congruence. }
  split; [reflexivity|]. split; [exact Hsafe|].
  rewrite Hsafe. subst invalid. split.
  - intros Hnone q Hq.
    destruct (valid (validate q)) eqn:Hv; [reflexivity|].
    assert (Hin : q ∈ filter (fun q => negb (valid (validate q))) queries).
    { apply list_elem_of_filter. rewrite Hv. split; [exact I | exact Hq]. }
    rewrite Hnone in Hin. by apply not_elem_of_nil in Hin.
  - intros Hall.
    destruct (filter _ queries) as [|q rest] eqn:Hf; [reflexivity|].
    assert (Hin : q ∈ filter (fun q => negb (valid (validate q))) queries)
      by (rewrite Hf; apply list_elem_of_here).
    apply list_elem_of_filter in Hin. destruct Hin as [Hneg Hq].
    rewrite (Hall q Hq) in Hneg. simpl in Hneg. contradiction.
Qed.

End GuardFacts.

(** ** The engine *)

Module EngineFacts.
Import PyStr SqlDetector SqlValidator Sqlparse Registry State Nodes Guards Graph.

Lemma apply_no_update (state : AgentState) : apply_update state no_update = state.
Proof. destruct state. unfold apply_update. simpl. by rewrite app_nil_r. Qed.

Section Facts.

Variable settings : Settings.
Variable parse : parser.
Variable get_type : token -> string.
Variable format_sql : string -> string.
Variable llm : backend.
Variable registry : ToolRegistry.

Local Abbreviation step := (step settings parse get_type format_sql llm registry).
Local Abbreviation run := (run settings parse get_type format_sql llm registry).
Local Abbreviation guard := (sql_validation_guard settings parse get_type format_sql).

Lemma run_S (k : nat) (n : node) (state : AgentState) :
  run (S k) n state = bind (step n state) (fun ns => run k (fst ns) (snd ns)).
Proof. reflexivity. Qed.

Lemma run_add (a b : nat) : forall n state,
  run (a + b) n state = bind (run a n state) (fun ns => run b (fst ns) (snd ns)).
Proof.
  induction a as [|a IH]; intros n state; simpl; [reflexivity|].
  destruct (step n state) as [[n' state']|t e]; simpl; [apply IH | reflexivity].
Qed.

(** After the guard has run, the edge depends on its verdict alone. *)
Lemma is_sql_safe_after_guard (state : AgentState) :
  is_sql_safe (apply_update state (guard state))
  = if get (u_sql_safe (guard state)) true then "safe" else "unsafe".
Proof.
  unfold is_sql_safe, sql_validation_guard.
  destruct (last (messages state)) as [m|]; [|reflexivity].
  destruct (content_of m) as [content|]; [|reflexivity].
  destruct (negb (contains_sql content)); [reflexivity|].
  simpl. destruct (length _ =? 0)%nat; reflexivity.
Qed.

Lemma guard_sets_verdict (state : AgentState) :
  exists safe, u_sql_safe (guard state) = Some safe.
Proof.
  unfold sql_validation_guard.
  destruct (last (messages state)) as [m|]; [|eauto].
  destruct (content_of m) as [content|]; [|eauto].
  destruct (negb (contains_sql content)); simpl; eauto.
Qed.

Lemma step_sql_guard (state : AgentState) :
  step sql_guard state
  = Ok (if get (u_sql_safe (guard state)) true then END else think,
        apply_update state (guard state)).
Proof.
  unfold Graph.step. rewrite is_sql_safe_after_guard.
  destruct (get (u_sql_safe (guard state)) true); reflexivity.
Qed.

(** One regeneration: THINK, RESPOND, GUARD and back to THINK. *)
Lemma regeneration (state : AgentState) :
  persistently_unsafe settings parse get_type format_sql llm ->
  exists state', run 3 think state = Ok (think, state')
                 /\ iteration_count state' = (iteration_count state + 1)%Z.
Proof.
  intros Hunsafe.
  set (response := llm (get_tool_schemas registry) (think_input state)).
  destruct (Hunsafe (get_tool_schemas registry) (think_input state))
    as [Hcalls Hverdict]. fold response in Hcalls, Hverdict.
  set (state1 := apply_update state (think_node llm registry state)).
  assert (Hlast : last (messages state1)
                  = Some (AIMessage (r_content response) (r_tool_calls response))).
  { unfold state1. simpl. apply last_snoc. }
  assert (Hthink : step think state = Ok (respond, state1)).
  { unfold Graph.step. fold state1. unfold should_use_tool.
    rewrite Hlast. simpl. rewrite Hcalls. reflexivity. }
  assert (Hrespond : step respond state1 = Ok (sql_guard, state1)).
  { unfold Graph.step, respond_node. by rewrite apply_no_update. }
  assert (Hguard : guard state1
                   = content_verdict settings parse get_type format_sql
                       (r_content response)).
  { eapply GuardFacts.guard_on_content; [exact Hlast | reflexivity]. }
  exists (apply_update state1 (guard state1)). split.
  - rewrite run_S, Hthink. cbn [bind fst snd].
    rewrite run_S, Hrespond. cbn [bind fst snd].
    rewrite run_S, step_sql_guard, Hguard, Hverdict. reflexivity.
  - rewrite Hguard. unfold content_verdict.
    destruct (negb _); reflexivity.
Qed.

Lemma regenerations (n : nat) : forall state,
  persistently_unsafe settings parse get_type format_sql llm ->
  exists state', run (3 * n) think state = Ok (think, state')
                 /\ iteration_count state' = (iteration_count state + Z.of_nat n)%Z.
Proof.
  induction n as [|n IH]; intros state Hunsafe.
  - exists state. split; [reflexivity | lia].
  - destruct (regeneration state Hunsafe) as (state1 & Hrun1 & Hcount1).
    destruct (IH state1 Hunsafe) as (state' & Hrun & Hcount).
    exists state'. split; [|lia].
    replace (3 * S n) with (3 + 3 * n) by lia.
    rewrite run_add, Hrun1. exact Hrun.
Qed.

End Facts.

(** C2. Once the guard has run, an unsafe verdict sends the engine back
    to THINK whatever the iteration count and the budget are, and the
    engine ends exactly when the verdict is safe; so with a backend whose
    every answer is unsafe the engine is back at THINK after every third
    step, with an iteration count that passes any bound, [max_iterations]
    included. *)
Theorem guard_edge_ignores_budget
  (settings : Settings) (parse : parser) (get_type : token -> string)
  (format_sql : string -> string) (llm : backend) (registry : ToolRegistry)
  (state : AgentState) :
  let step := step settings parse get_type format_sql llm registry in
  let run := run settings parse get_type format_sql llm registry in
  let u := sql_validation_guard settings parse get_type format_sql state in
  (guard_checked state = Some true -> sql_safe state = Some false ->
     is_sql_safe state = "unsafe"
     /\ edge sql_guard_edges (is_sql_safe state) = Ok think)
  /\ (guard_checked state = Some true ->
        (edge sql_guard_edges (is_sql_safe state) = Ok END <-> sql_safe state <> Some false))
  /\ (u_sql_safe u = Some false -> step sql_guard state = Ok (think, apply_update state u))
  /\ (step sql_guard state = Ok (END, apply_update state u) <-> u_sql_safe u = Some true)
  /\ (persistently_unsafe settings parse get_type format_sql llm ->
        (forall n, exists state',
            run (3 * n) think state = Ok (think, state')
            /\ iteration_count state' = (iteration_count state + Z.of_nat n)%Z)
        /\ exists n state',
            run (3 * n) think state = Ok (think, state')
            /\ (iteration_count state' > max_iterations settings)%Z).
Proof.
  intros step run u. subst step run u.
  split; [|split; [|split; [|split]]].
  - intros Hchecked Hsafe. unfold is_sql_safe. rewrite Hchecked, Hsafe. auto.
  - intros Hchecked. unfold is_sql_safe. rewrite Hchecked. simpl.
    destruct (sql_safe state) as [[|]|]; vm_compute; split; intros H;
      solve [reflexivity | discriminate | intros H'; discriminate
             | exfalso; apply H; reflexivity].
  - intros Hunsafe. rewrite step_sql_guard, Hunsafe. reflexivity.
  - rewrite step_sql_guard.
    destruct (guard_sets_verdict settings parse get_type format_sql state) as [safe Hs].
    rewrite Hs. destruct safe; simpl; split; congruence.
  - intros Hunsafe. split.
    + intros n. by apply regenerations.
    + set (n := Z.to_nat (max_iterations settings - iteration_count state + 1)).
      destruct (regenerations settings parse get_type format_sql llm registry n
                  state Hunsafe) as (state' & Hrun & Hcount).
      exists n, state'. split; [exact Hrun|]. lia.
Qed.

(** A backend that answers DROP TABLE users; to every transcript. *)
Lemma guard_edge_ignores_budget_witness :
  persistently_unsafe default_settings Sample.parse Sample.get_type Sample.format_sql
    (Sample.constant_llm Sample.q_drop)
  /\ exists n state',
      run default_settings Sample.parse Sample.get_type Sample.format_sql
        (Sample.constant_llm Sample.q_drop) Sample.registry (3 * n) think
        (initial_state "Remove table") = Ok (think, state')
      /\ (iteration_count state' > max_iterations default_settings)%Z.
Proof.
  assert (Hunsafe : persistently_unsafe default_settings Sample.parse Sample.get_type
                      Sample.format_sql (Sample.constant_llm Sample.q_drop)).
  { intros tools transcript. split; reflexivity. }
  split; [exact Hunsafe|].
  exact (proj2 (proj2 (proj2 (proj2 (proj2
           (guard_edge_ignores_budget default_settings Sample.parse Sample.get_type
              Sample.format_sql (Sample.constant_llm Sample.q_drop) Sample.registry
              (initial_state "Remove table"))))) Hunsafe)).
Defined.

(** Every step appends to the transcript, and what it appends is no
    system message. *)
Lemma step_appends
  (settings : Settings) (parse : parser) (get_type : token -> string)
  (format_sql : string -> string) (llm : backend) (registry : ToolRegistry)
  (n n' : node) (state state' : AgentState) :
  step settings parse get_type format_sql llm registry n state = Ok (n', state') ->
  exists appended, messages state' = (messages state ++ appended)%list
                   /\ no_system appended.
Proof.
  unfold no_system. destruct n; simpl; intros Hstep.
  - destruct (should_use_tool _) as [decision|]; [|discriminate]. simpl in Hstep.
    destruct (edge think_edges decision); [|discriminate]. simpl in Hstep.
    injection Hstep as _ <-. simpl. eexists. split; [reflexivity|].
    repeat constructor.
  - unfold act_node in Hstep.
    destruct (last (messages state)) as [m|]; [|discriminate].
    destruct (tool_calls_of m) as [[|tool_call others]|]; try discriminate.
    simpl in Hstep. injection Hstep as _ <-. simpl. eexists. split; [reflexivity|].
    repeat constructor.
  - destruct (observe_node state) as [u|] eqn:Hobs; [|discriminate]. simpl in Hstep.
    destruct (edge observe_edges _); [|discriminate]. simpl in Hstep.
    injection Hstep as _ <-. exists []. split; [|constructor].
    unfold observe_node in Hobs. destruct (get (tool_output state) _); [|discriminate].
    injection Hobs as <-. reflexivity.
  - injection Hstep as _ <-. exists []. split; [reflexivity | constructor].
  - destruct (edge sql_guard_edges _); [|discriminate]. simpl in Hstep.
    injection Hstep as _ <-. exists []. split; [|constructor].
    unfold sql_validation_guard.
    destruct (last (messages state)) as [m|]; [|reflexivity].
    destruct (content_of m) as [content|]; [|reflexivity].
    destruct (negb (contains_sql content)); reflexivity.
  - injection Hstep as _ <-. exists []. split; [by rewrite app_nil_r | constructor].
Qed.

(** The transcript of a turn that the chat loop starts is never empty and
    never holds a system message. *)
Lemma turn_transcript
  (settings : Settings) (parse : parser) (get_type : token -> string)
  (format_sql : string -> string) (llm : backend) (registry : ToolRegistry)
  (user_input : string) (steps : nat) : forall n n' state state',
  messages state <> [] -> no_system (messages state) ->
  run settings parse get_type format_sql llm registry steps n state = Ok (n', state') ->
  messages state' <> [] /\ no_system (messages state').
Proof.
  induction steps as [|steps IH]; intros n n' state state' Hne Hns Hrun.
  - injection Hrun as _ <-. auto.
  - simpl in Hrun.
    destruct (step _ _ _ _ _ _ n state) as [[n1 state1]|] eqn:Hstep; [|discriminate].
    simpl in Hrun.
    destruct (step_appends _ _ _ _ _ _ _ _ _ _ Hstep) as (appended & Hmsgs & Happ).
    apply (IH n1 n' state1 state'); [| |exact Hrun].
    + rewrite Hmsgs. destruct (messages state); [contradiction | discriminate].
    + rewrite Hmsgs. apply Forall_app. auto.
Qed.

(** C7 (as amended). On a THINK step over a transcript that is not empty
    and holds no system message, the backend receives the system preamble
    followed by the transcript, hence the preamble exactly once, in first
    place; the stored transcript only grows by the answer of the backend:
    the preamble is not stored, before or after the step, and the
    transcript stays without system message for the next THINK step. *)
Theorem preamble_is_handed_not_stored
  (llm : backend) (registry : ToolRegistry) (state : AgentState) :
  messages state <> [] ->
  no_system (messages state) ->
  let response := llm (get_tool_schemas registry) (preamble :: messages state) in
  let state' := apply_update state (think_node llm registry state) in
  think_input state = preamble :: messages state
  /\ (preamble ∉ messages state)
  /\ messages state'
     = (messages state ++ [AIMessage (r_content response) (r_tool_calls response)])%list
  /\ hd_error (messages state') = hd_error (messages state)
  /\ (preamble ∉ messages state')
  /\ no_system (messages state').
Proof.
  intros Hne Hns response state'.
  assert (Hnotin : forall transcript, no_system transcript -> preamble ∉ transcript).
  { intros transcript Hall Hin. unfold no_system in Hall.
    rewrite Forall_forall in Hall. apply Hall in Hin. discriminate. }
  assert (Hinput : think_input state = preamble :: messages state).
  { unfold think_input. destruct (messages state) as [|first others]; [contradiction|].
    apply Forall_cons in Hns. destruct Hns as [Hfirst _]. by rewrite Hfirst. }
  assert (Hstored : messages state'
                    = (messages state
                       ++ [AIMessage (r_content response) (r_tool_calls response)])%list).
  { subst state' response. simpl. unfold think_node. rewrite Hinput. reflexivity. }
  assert (Hns' : no_system (messages state')).
  { rewrite Hstored. apply Forall_app. split; [exact Hns|]. repeat constructor. }
  repeat split; auto.
  rewrite Hstored. destruct (messages state); [contradiction | reflexivity].
Qed.

(** The first THINK step of a turn. *)
Lemma preamble_is_handed_not_stored_witness :
  (messages (initial_state "hi") <> [] /\ no_system (messages (initial_state "hi")))
  /\ think_input (initial_state "hi") = [preamble; HumanMessage "hi"]
  /\ messages (apply_update (initial_state "hi")
                 (think_node (Sample.constant_llm "Hello") Sample.registry
                    (initial_state "hi")))
     = [HumanMessage "hi"; AIMessage "Hello" []].
Proof.
  assert (Hne : messages (initial_state "hi") <> []) by discriminate.
  assert (Hns : no_system (messages (initial_state "hi")))
    by (repeat constructor).
  split; [split; assumption|].
  destruct (preamble_is_handed_not_stored (Sample.constant_llm "Hello") Sample.registry
              (initial_state "hi") Hne Hns) as (Hinput & _ & Hstored & _).
  split; [exact Hinput | exact Hstored].
Defined.

(** C7 (as stated) fails: after the first THINK step of a turn the stored
    transcript starts with the message of the user, and the preamble is
    not in it. *)
Lemma stored_transcript_has_no_preamble :
  let state' := apply_update (initial_state "hi")
                  (think_node (Sample.constant_llm "Hello") Sample.registry
                     (initial_state "hi")) in
  messages state' = [HumanMessage "hi"; AIMessage "Hello" []]
  /\ hd_error (messages state') <> Some preamble
  /\ (preamble ∉ messages state').
Proof.
  simpl. split; [reflexivity|]. split; [discriminate|].
  intros Hin. apply list_elem_of_In in Hin. simpl in Hin.
  destruct Hin as [H|[H|[]]]; discriminate.
Qed.

(** What ACT does when the last message carries a tool invocation
    request. *)
Lemma act_node_on_request (registry : ToolRegistry) (state : AgentState) :
  should_use_tool state = Ok "use_tool" ->
  exists content tool_call others,
    last (messages state) = Some (AIMessage content (tool_call :: others))
    /\ act_node registry state
       = Ok (tool_update (dispatch_text registry tool_call) tool_call).
Proof.
  unfold should_use_tool, act_node. intros Hedge.
  destruct (last (messages state)) as [m|]; [|discriminate].
  destruct m as [c|c|c tcs|c i|]; simpl in Hedge; try discriminate.
  destruct tcs as [|tool_call others]; [discriminate|]. simpl.
  exists c, tool_call, others. split; reflexivity.
Qed.




End EngineFacts.

(** ** The registry *)

Module RegistryFacts.
Import SqlValidator Registry Spec.

(** X1. A tool that was registered is the one that [execute_tool] runs
    under its name, a later registration under the same name replaces it,
    and a registration leaves the tools of every other name as they were. *)
Theorem register_then_execute (registry : ToolRegistry) (tool other : BaseTool)
  (tool_name : string) (tool_input : gmap string pyval) :
  execute_tool (register registry tool) (name tool) tool_input = invoke tool tool_input
  /\ (name other = name tool ->
      register (register registry other) tool = register registry tool)
  /\ (tool_name <> name tool ->
      execute_tool (register registry tool) tool_name tool_input
      = execute_tool registry tool_name tool_input).
Proof.
  unfold execute_tool, register. simpl. split; [|split].
  - by rewrite lookup_insert_eq.
  - intros Hsame. f_equal. rewrite Hsame. apply insert_insert_eq.
  - intros Hother. by rewrite lookup_insert_ne.
Qed.

Lemma built_names (registry : ToolRegistry) :
  built registry ->
  forall key tool, _tools registry !! key = Some tool -> name tool = key.
Proof.
  induction 1 as [|registry new _ IH]; intros key tool; simpl.
  - by rewrite lookup_empty.
  - destruct (decide (name new = key)) as [<-|Hne].
    + rewrite lookup_insert_eq. by intros [= <-].
    + rewrite lookup_insert_ne by exact Hne. apply IH.
Qed.

(** X2. In a registry built by registrations every tool is stored under
    its own name, so the schemas handed to the backend carry pairwise
    distinct names, and each of them is dispatched to itself. *)
Theorem schemas_are_distinct (registry : ToolRegistry) :
  built registry ->
  NoDup (map name (get_tool_schemas registry))
  /\ forall tool tool_input,
      tool ∈ get_tool_schemas registry ->
      execute_tool registry (name tool) tool_input = invoke tool tool_input.
Proof.
  intros Hbuilt. pose proof (built_names registry Hbuilt) as Hnames.
  unfold get_tool_schemas.
  assert (Hkeys : map name (map snd (map_to_list (_tools registry)))
                  = map fst (map_to_list (_tools registry))).
  { rewrite map_map. apply map_ext_in. intros [key tool] Hin. simpl.
    apply Hnames. apply elem_of_map_to_list. by apply list_elem_of_In. }
  split.
  - rewrite Hkeys. apply NoDup_fst_map_to_list.
  - intros tool tool_input Hin. apply list_elem_of_In, in_map_iff in Hin.
    destruct Hin as ([key stored] & Heq & Hin). simpl in Heq. subst stored.
    apply list_elem_of_In, elem_of_map_to_list in Hin.
    unfold execute_tool. rewrite (Hnames key tool Hin) in *. by rewrite Hin.
Qed.

Lemma schemas_are_distinct_witness :
  built Sample.registry
  /\ NoDup (map name (get_tool_schemas Sample.registry)).
Proof.
  assert (Hbuilt : built Sample.registry) by (repeat constructor).
  split; [exact Hbuilt|].
  exact (proj1 (schemas_are_distinct Sample.registry Hbuilt)).
Defined.

End RegistryFacts.

(** ** More on the validator and its tool *)

Module ValidatorMore.
Import PyStr Sqlparse SqlValidator Registry SqlTool Spec.

Lemma errors_decide_validity
  (parse : parser) (get_type : token -> string) (format_sql : string -> string)
  (settings : Settings) (query : string) :
  let r := validate_sql_query parse get_type format_sql settings query in
  (valid r = true <-> errors r = []) /\ warnings r = [].
Proof.
  intros r.
  destruct (parse query) as [[|statement rest]|t e] eqn:Hparse;
    try (subst r; unfold validate_sql_query; rewrite Hparse; simpl;
         split; [split; discriminate | reflexivity]).
  destruct (String.eqb_spec (get_type statement) "SELECT") as [Htype|Hne].
  - destruct (ValidatorFacts.select_verdict parse get_type format_sql settings query
                statement rest Hparse Htype) as (Hv & He & Hw & _).
    fold r in Hv, He, Hw. rewrite Hv, He. split; [|exact Hw].
    destruct (blocked_errors statement), (join_error settings statement),
      (subquery_error parse get_type settings statement); simpl;
      split; congruence.
  - subst r. unfold validate_sql_query. rewrite Hparse.
    destruct (String.eqb_spec (get_type statement) "SELECT"); [contradiction|].
    simpl. split; [split; discriminate | reflexivity].
Qed.

(** X3. Whatever the parser answers, a result is valid exactly when it
    carries no error, and it never carries a warning. *)
Theorem valid_iff_no_errors
  (parse : parser) (get_type : token -> string) (format_sql : string -> string)
  (settings : Settings) (query : string) :
  let r := validate_sql_query parse get_type format_sql settings query in
  (valid r = true <-> errors r = []) /\ warnings r = [].
Proof. apply errors_decide_validity. Qed.

Lemma filter_flat_map_length {A B : Type} (p : B -> bool) (f : A -> list B) (l : list A) :
  length (List.filter p (flat_map f l))
  = list_sum (map (fun x => length (List.filter p (f x))) l).
Proof.
  induction l as [|x l IH]; simpl; [reflexivity|].
  by rewrite List.filter_app, length_app, IH.
Qed.

(** X4. The JOIN count of a statement is the number of leaves of its
    flattened token stream that are of type Keyword and hold JOIN in their
    upper-cased value: how deep a JOIN is nested, and in which kind of
    group, makes no difference. *)
Theorem count_joins_is_flat (cls : tclass) (toks : list token) :
  count_joins (Grp cls toks)
  = length (List.filter is_join_keyword (flatten (Grp cls toks))).
Proof.
  assert (Hall : forall t,
             match t with
             | Tok _ _ => True
             | Grp _ _ => count_joins t = length (List.filter is_join_keyword (flatten t))
             end).
  { induction t as [ty v|c ts IH] using TokenFacts.token_ind; [exact I|].
    cbn [count_joins flatten]. rewrite filter_flat_map_length.
    apply TokenFacts.list_sum_map_ext. intros tok Hin.
    rewrite List.Forall_forall in IH. specialize (IH tok Hin).
    destruct tok as [ty v|c' ts']; [|exact IH].
    cbn [flatten List.filter]. unfold is_join_keyword. cbn [fst snd].
    destruct (is_Keyword ty && contains "JOIN" (upper v)); reflexivity. }
  exact (Hall (Grp cls toks)).
Qed.

Lemma first_statement_cases (parse1 parse2 : parser) (query : string) :
  first_statement (parse1 query) = first_statement (parse2 query) ->
  match parse1 query, parse2 query with
  | Ok [], Ok [] => True
  | Ok (s1 :: _), Ok (s2 :: _) => s1 = s2
  | Raise t1 e1, Raise t2 e2 => t1 = t2 /\ e1 = e2
  | _, _ => False
  end.
Proof.
  destruct (parse1 query) as [[|s1 r1]|t1 e1], (parse2 query) as [[|s2 r2]|t2 e2];
    simpl; intros H; try discriminate; try exact I; injection H; auto.
Qed.

Lemma count_subqueries_upto_first
  (parse1 parse2 : parser) (get_type : token -> string) :
  (forall query, first_statement (parse1 query) = first_statement (parse2 query)) ->
  forall depth statement,
    count_subqueries_upto parse1 get_type depth statement
    = count_subqueries_upto parse2 get_type depth statement.
Proof.
  intros Hfirst. induction depth as [|depth IHd]; intros statement; [reflexivity|].
  induction statement as [ty v|cls toks IH] using TokenFacts.token_ind; [reflexivity|].
  rewrite !ValidatorFacts.count_subqueries_upto_S.
  apply TokenFacts.list_sum_map_ext. intros tok Hin.
  rewrite List.Forall_forall in IH. specialize (IH tok Hin).
  destruct tok as [ty v|c sub]; [reflexivity|].
  destruct (is_Parenthesis c); [|exact IH].
  unfold paren_subqueries.
  pose proof (first_statement_cases parse1 parse2 _
                (Hfirst (strip_chars "()" (str (Grp c sub))))) as Hcase.
  destruct (parse1 _) as [[|s1 r1]|t1 e1], (parse2 _) as [[|s2 r2]|t2 e2];
    try contradiction; try reflexivity.
  subst s2. by rewrite IHd.
Qed.

(** X5. The validator reads of the parser's answer only whether it raised
    and which statement comes first: two parsers that agree on that, for
    the query and for every text in brackets, give the same result, so the
    statements that follow the first one have no part in the verdict. *)
Theorem only_first_statement_counts
  (parse1 parse2 : parser) (get_type : token -> string) (format_sql : string -> string)
  (settings : Settings) (query : string) :
  (forall text, first_statement (parse1 text) = first_statement (parse2 text)) ->
  validate_sql_query parse1 get_type format_sql settings query
  = validate_sql_query parse2 get_type format_sql settings query.
Proof.
  intros Hfirst. unfold validate_sql_query.
  pose proof (first_statement_cases parse1 parse2 query (Hfirst query)) as Hcase.
  destruct (parse1 query) as [[|s1 r1]|t1 e1], (parse2 query) as [[|s2 r2]|t2 e2];
    try contradiction; try reflexivity.
  - subst s2. destruct (negb _); [reflexivity|].
    unfold layer5, count_subqueries.
    by rewrite (count_subqueries_upto_first parse1 parse2 get_type Hfirst).
  - destruct Hcase as [_ ->]. reflexivity.
Qed.

(** The parser that forgets every statement after the first. *)
Lemma only_first_statement_counts_witness :
  let truncated : parser := fun text =>
    match Sample.parse text with
    | Ok (statement :: _) => Ok [statement]
    | answer => answer
    end in
  (forall text, first_statement (Sample.parse text) = first_statement (truncated text))
  /\ validate_sql_query Sample.parse Sample.get_type Sample.format_sql default_settings
       Sample.q_stacked
     = validate_sql_query truncated Sample.get_type Sample.format_sql default_settings
         Sample.q_stacked.
Proof.
  intros truncated.
  assert (Hfirst : forall text,
             first_statement (Sample.parse text) = first_statement (truncated text)).
  { intros text. unfold truncated.
    destruct (Sample.parse text) as [[|statement rest]|t e]; reflexivity. }
  split; [exact Hfirst|].
  exact (only_first_statement_counts Sample.parse truncated Sample.get_type
           Sample.format_sql default_settings Sample.q_stacked Hfirst).
Defined.

(** X6. Raising a limit never turns a valid query into an invalid one. *)
Theorem looser_limits_keep_valid
  (parse : parser) (get_type : token -> string) (format_sql : string -> string)
  (tight loose : Settings) (query : string) :
  at_least_as_permissive loose tight ->
  valid (validate_sql_query parse get_type format_sql tight query) = true ->
  valid (validate_sql_query parse get_type format_sql loose query) = true.
Proof.
  intros [Hjoins Hsubs] Hvalid.
  destruct (parse query) as [[|statement rest]|t e] eqn:Hparse;
    try (unfold validate_sql_query in Hvalid; rewrite Hparse in Hvalid; discriminate).
  destruct (String.eqb_spec (get_type statement) "SELECT") as [Htype|Hne].
  - destruct (ValidatorFacts.select_verdict parse get_type format_sql tight query
                statement rest Hparse Htype) as (Hv & _).
    destruct (ValidatorFacts.select_verdict parse get_type format_sql loose query
                statement rest Hparse Htype) as (Hv' & _).
    rewrite Hv in Hvalid. rewrite Hv'.
    apply andb_prop in Hvalid. destruct Hvalid as [Hvalid Hs].
    apply andb_prop in Hvalid. destruct Hvalid as [Hb Hj].
    rewrite Hb. unfold join_error, subquery_error in *.
    destruct (Z.gtb_spec (Z.of_nat (count_joins statement)) (sql_max_joins tight));
      [discriminate|].
    destruct (Z.gtb_spec (Z.of_nat (count_subqueries parse get_type statement))
                (sql_max_subqueries tight)); [discriminate|].
    destruct (Z.gtb_spec (Z.of_nat (count_joins statement)) (sql_max_joins loose));
      [lia|].
    destruct (Z.gtb_spec (Z.of_nat (count_subqueries parse get_type statement))
                (sql_max_subqueries loose)); [lia|].
    reflexivity.
  - unfold validate_sql_query in Hvalid. rewrite Hparse in Hvalid.
    destruct (String.eqb_spec (get_type statement) "SELECT"); [contradiction|].
    discriminate.
Qed.

Lemma looser_limits_keep_valid_witness :
  let loose := {| max_iterations := 3; sql_max_joins := 10; sql_max_subqueries := 10 |} in
  at_least_as_permissive loose default_settings
  /\ valid (validate_sql_query Sample.parse Sample.get_type Sample.format_sql
              default_settings Sample.q_joins3) = true
  /\ valid (validate_sql_query Sample.parse Sample.get_type Sample.format_sql
              loose Sample.q_joins3) = true.
Proof.
  intros loose.
  assert (Hloose : at_least_as_permissive loose default_settings)
    by (split; vm_compute; discriminate).
  split; [exact Hloose|]. split; [reflexivity|].
  exact (looser_limits_keep_valid Sample.parse Sample.get_type Sample.format_sql
           default_settings loose Sample.q_joins3 Hloose eq_refl).
Defined.

Section ToolFacts.

Variable parse : parser.
Variable get_type : token -> string.
Variable format_sql : string -> string.
Variable settings : Settings.

Local Abbreviation validate := (validate_sql_query parse get_type format_sql settings).
Local Abbreviation tool_function :=
  (sql_query_constructor parse get_type format_sql settings).

Lemma tool_report (query : string) :
  exists report,
    tool_function query = Ok report
    /\ startswith "Error:" report = false
    /\ (valid (validate query) = true ->
          exists statement rest,
            parse query = Ok (statement :: rest)
            /\ report = valid_report settings (VStr (format_sql query))
                          (VInt (Z.of_nat (count_joins statement)))
                          (VInt (Z.of_nat (count_subqueries parse get_type statement))))
    /\ (valid (validate query) = false ->
          report = failed_report (errors (validate query))).
Proof.
  unfold sql_query_constructor.
  destruct (valid (validate query)) eqn:Hvalid.
  - destruct (parse query) as [[|statement rest]|t e] eqn:Hparse;
      try (unfold validate_sql_query in Hvalid; rewrite Hparse in Hvalid; discriminate).
    destruct (String.eqb_spec (get_type statement) "SELECT") as [Htype|Hne].
    + destruct (ValidatorFacts.select_verdict parse get_type format_sql settings query
                  statement rest Hparse Htype) as (_ & _ & _ & Hm).
      rewrite Hm. unfold getitem. simplify_map_eq.
      eexists. split; [reflexivity|]. split; [reflexivity|]. split; [|discriminate].
      intros _. exists statement, rest. split; reflexivity.
    + unfold validate_sql_query in Hvalid. rewrite Hparse in Hvalid.
      destruct (String.eqb_spec (get_type statement) "SELECT"); [contradiction|].
      discriminate.
  - eexists. split; [reflexivity|]. split; [reflexivity|]. split; [discriminate|].
    reflexivity.
Qed.

(** X7. [sql_query_constructor] never raises: the three metadata keys it
    reads are there whenever the result is valid. Its report is the valid
    one, with the rendering and the two counts, for a valid query and the
    failed one, with one line for each error, otherwise; and no report
    begins with Error:. *)
Theorem tool_always_reports (query : string) :
  exists report,
    tool_function query = Ok report
    /\ startswith "Error:" report = false
    /\ (valid (validate query) = true ->
          exists statement rest,
            parse query = Ok (statement :: rest)
            /\ report = valid_report settings (VStr (format_sql query))
                          (VInt (Z.of_nat (count_joins statement)))
                          (VInt (Z.of_nat (count_subqueries parse get_type statement))))
    /\ (valid (validate query) = false ->
          report = failed_report (errors (validate query))).
Proof. apply tool_report. Qed.

End ToolFacts.

End ValidatorMore.

(** ** More on the engine *)

Module EngineMore.
Import PyStr SqlDetector SqlValidator Sqlparse Registry State Nodes Guards Graph Spec.

Section Facts.

Variable settings : Settings.
Variable parse : parser.
Variable get_type : token -> string.
Variable format_sql : string -> string.
Variable llm : backend.
Variable registry : ToolRegistry.

Local Abbreviation step := (step settings parse get_type format_sql llm registry).
Local Abbreviation run := (run settings parse get_type format_sql llm registry).
Local Abbreviation guard := (sql_validation_guard settings parse get_type format_sql).
Local Abbreviation verdict_of := (content_verdict settings parse get_type format_sql).
Local Abbreviation run_S := (EngineFacts.run_S settings parse get_type format_sql llm registry).

Lemma after_think_messages (state : AgentState) :
  messages (after_think llm registry state)
  = (messages state
     ++ [AIMessage (r_content (answer llm registry state))
           (r_tool_calls (answer llm registry state))])%list.
Proof. reflexivity. Qed.

(** THINK always returns, and leads to ACT exactly when the answer carries a
    tool invocation request. *)
Lemma step_think (state : AgentState) :
  step think state
  = Ok (match r_tool_calls (answer llm registry state) with
        | [] => respond
        | _ :: _ => act
        end, after_think llm registry state).
Proof.
  unfold Graph.step. fold (after_think llm registry state).
  unfold should_use_tool. rewrite after_think_messages, last_snoc. simpl.
  destruct (r_tool_calls (answer llm registry state)); reflexivity.
Qed.

Lemma step_respond (state : AgentState) : step respond state = Ok (sql_guard, state).
Proof. unfold Graph.step, respond_node. by rewrite EngineFacts.apply_no_update. Qed.

Lemma step_guard (state : AgentState) :
  step sql_guard state
  = Ok (if get (u_sql_safe (guard state)) true then END else think,
        after_guard settings parse get_type format_sql state).
Proof. apply EngineFacts.step_sql_guard. Qed.

Lemma step_act (state : AgentState) (content : string) (tool_call : ToolCall)
  (others : list ToolCall) :
  last (messages state) = Some (AIMessage content (tool_call :: others)) ->
  step act state
  = Ok (observe,
        apply_update state (tool_update (dispatch_text registry tool_call) tool_call)).
Proof.
  intros Hlast. unfold Graph.step, act_node. rewrite Hlast. reflexivity.
Qed.

Lemma step_observe (state : AgentState) :
  tool_output state <> Some None ->
  step observe state
  = Ok (if startswith "Error:" (observed state)
           && (iteration_count state <? max_iterations settings)%Z
        then think else respond,
        apply_update state
          {| u_messages := []; u_tool_output := None; u_iteration_count := None;
             u_should_continue := Some (startswith "Error:" (observed state));
             u_sql_safe := None; u_sql_violations := None; u_guard_checked := None |}).
Proof.
  intros Hout.
  assert (Hrel : (iteration_count state <? max_iterations settings)%Z
                 = negb (iteration_count state >=? max_iterations settings)%Z)
    by (rewrite Z.geb_leb, Z.ltb_antisym; reflexivity).
  rewrite Hrel.
  unfold Graph.step, observe_node, observed, should_continue_thinking.
  destruct (tool_output state) as [[out|]|]; [|contradiction|];
    cbn [get bind apply_update iteration_count u_iteration_count should_continue
         u_should_continue overwrite];
    destruct (iteration_count state >=? max_iterations settings)%Z;
    rewrite ?andb_false_r, ?andb_true_r; cbn [negb]; try reflexivity;
    destruct (startswith "Error:" _); reflexivity.
Qed.

Lemma step_ready (n : node) (state : AgentState) :
  ready n state ->
  exists n' state', step n state = Ok (n', state') /\ ready n' state'.
Proof.
  destruct n; intros Hready.
  - rewrite step_think. do 2 eexists. split; [reflexivity|].
    destruct (r_tool_calls (answer llm registry state)) as [|tool_call others] eqn:Hcalls;
      [exact I|].
    cbn [ready]. unfold should_use_tool.
    rewrite after_think_messages, last_snoc. cbn [tool_calls_of]. by rewrite Hcalls.
  - destruct (EngineFacts.act_node_on_request registry state Hready)
      as (content & tool_call & others & Hlast & _).
    rewrite (step_act state content tool_call others Hlast).
    do 2 eexists. split; [reflexivity|]. cbn. discriminate.
  - rewrite (step_observe state Hready). do 2 eexists. split; [reflexivity|].
    destruct (_ && _); exact I.
  - rewrite step_respond. do 2 eexists. split; [reflexivity | exact I].
  - rewrite step_guard. do 2 eexists. split; [reflexivity|].
    destruct (get _ true); exact I.
  - do 2 eexists. split; [reflexivity | exact I].
Qed.

(** X8. No step of the graph raises. A run of any length, started at a
    node with a state that node can read (at THINK, RESPOND and the guard:
    any state), returns normally, when the backend answers and with the
    exceptions of the tools caught by ACT: ACT is always entered with a
    request to dispatch and OBSERVE never with Python's None as tool
    output. *)
Theorem run_never_raises (steps : nat) : forall (n : node) (state : AgentState),
  ready n state ->
  exists n' state', run steps n state = Ok (n', state') /\ ready n' state'.
Proof.
  induction steps as [|steps IH]; intros n state Hready.
  - exists n, state. split; [reflexivity | exact Hready].
  - destruct (step_ready n state Hready) as (n1 & state1 & Hstep & Hready1).
    destruct (IH n1 state1 Hready1) as (n' & state' & Hrun & Hready').
    exists n', state'. split; [|exact Hready'].
    rewrite run_S, Hstep. exact Hrun.
Qed.

Lemma step_effect (n n' : node) (state state' : AgentState) :
  step n state = Ok (n', state') ->
  exists appended,
    messages state' = (messages state ++ appended)%list
    /\ no_system appended
    /\ user_input state' = user_input state
    /\ iteration_count state'
       = (iteration_count state
          + Z.of_nat (length (List.filter is_AIMessage appended)))%Z.
Proof.
  unfold no_system. destruct n; intros Hstep.
  - rewrite step_think in Hstep. injection Hstep as _ <-.
    eexists. split; [apply after_think_messages|].
    split; [repeat constructor|]. split; reflexivity.
  - unfold Graph.step, act_node in Hstep.
    destruct (last (messages state)) as [m|]; [|discriminate].
    destruct (tool_calls_of m) as [[|tool_call others]|]; try discriminate.
    simpl in Hstep. injection Hstep as _ <-. eexists. split; [reflexivity|].
    split; [repeat constructor|]. split; [reflexivity|]. cbn. lia.
  - unfold Graph.step in Hstep.
    destruct (observe_node state) as [u|] eqn:Hobs; [|discriminate]. simpl in Hstep.
    destruct (edge observe_edges _); [|discriminate]. simpl in Hstep.
    injection Hstep as _ <-. exists [].
    unfold observe_node in Hobs. destruct (get (tool_output state) _); [|discriminate].
    injection Hobs as <-. cbn. rewrite app_nil_r.
    split; [reflexivity|]. split; [constructor|]. split; [reflexivity | lia].
  - rewrite step_respond in Hstep. injection Hstep as _ <-. exists [].
    rewrite app_nil_r. split; [reflexivity|]. split; [constructor|].
    split; [reflexivity | cbn; lia].
  - rewrite step_guard in Hstep. injection Hstep as _ <-. exists [].
    unfold after_guard, sql_validation_guard.
    destruct (last (messages state)) as [m|];
      [destruct (content_of m) as [content|];
       [destruct (negb (contains_sql content))|]|];
      cbn; rewrite app_nil_r;
      (split; [reflexivity|]; split; [constructor|]; split; [reflexivity | lia]).
  - injection Hstep as _ <-. exists []. rewrite app_nil_r.
    split; [reflexivity|]. split; [constructor|]. split; [reflexivity | cbn; lia].
Qed.

(** X9. Along any run the transcript only grows, by messages that are no
    system messages, the user input stays what it was, and the iteration
    count grows by the number of assistant messages that were appended: it
    counts the answers of the backend and never goes down. *)
Theorem run_appends (steps : nat) : forall (n n' : node) (state state' : AgentState),
  run steps n state = Ok (n', state') ->
  exists appended,
    messages state' = (messages state ++ appended)%list
    /\ no_system appended
    /\ user_input state' = user_input state
    /\ iteration_count state'
       = (iteration_count state
          + Z.of_nat (length (List.filter is_AIMessage appended)))%Z.
Proof.
  induction steps as [|steps IH]; intros n n' state state' Hrun.
  - injection Hrun as _ <-. exists []. rewrite app_nil_r.
    split; [reflexivity|]. split; [constructor|]. split; [reflexivity | cbn; lia].
  - rewrite run_S in Hrun.
    destruct (step n state) as [[n1 state1]|] eqn:Hstep; [|discriminate].
    cbn [bind fst snd] in Hrun.
    destruct (step_effect n n1 state state1 Hstep) as (first & Hm1 & Hs1 & Hu1 & Hc1).
    destruct (IH n1 n' state1 state' Hrun) as (more & Hm2 & Hs2 & Hu2 & Hc2).
    exists (first ++ more)%list.
    split; [by rewrite Hm2, Hm1, app_assoc|].
    split; [apply Forall_app; auto|].
    split; [congruence|].
    rewrite Hc2, Hc1, List.filter_app, length_app. lia.
Qed.

(** X10. OBSERVE leads back to THINK exactly when the tool output begins
    with Error: and the iteration count is below [max_iterations], and to
    RESPOND otherwise; it records the first condition in [should_continue]
    and changes neither the transcript nor the count. *)
Theorem observe_gate (state : AgentState) :
  tool_output state <> Some None ->
  exists state',
    step observe state
    = Ok (if startswith "Error:" (observed state)
             && (iteration_count state <? max_iterations settings)%Z
          then think else respond, state')
    /\ should_continue state' = Some (startswith "Error:" (observed state))
    /\ messages state' = messages state
    /\ iteration_count state' = iteration_count state
    /\ ((iteration_count state >= max_iterations settings)%Z ->
        step observe state = Ok (respond, state')).
Proof.
  intros Hout. rewrite (step_observe state Hout). eexists.
  split; [reflexivity|]. split; [reflexivity|].
  split; [cbn; apply app_nil_r|]. split; [reflexivity|].
  intros Hbudget.
  destruct (Z.ltb_spec (iteration_count state) (max_iterations settings)); [lia|].
  by rewrite andb_false_r.
Qed.

Lemma verdict_shape (content : string) :
  exists safe violations,
    verdict_of content = verdict safe violations /\ (safe = true <-> violations = []).
Proof.
  unfold content_verdict. destruct (negb (contains_sql content)).
  - exists true, []. split; [reflexivity | split; reflexivity].
  - do 2 eexists. split; [reflexivity|].
    destruct (fold_left _ _ _); simpl; split; congruence.
Qed.

Lemma guard_after_think (state : AgentState) :
  guard (after_think llm registry state)
  = verdict_of (r_content (answer llm registry state)).
Proof.
  eapply GuardFacts.guard_on_content;
    [rewrite after_think_messages; apply last_snoc | reflexivity].
Qed.

(** THINK, RESPOND and the guard, for an answer without request. *)
Lemma think_respond_guard (state : AgentState) :
  r_tool_calls (answer llm registry state) = [] ->
  run 3 think state
  = Ok (if get (u_sql_safe (verdict_of (r_content (answer llm registry state)))) true
        then END else think,
        after_guard settings parse get_type format_sql (after_think llm registry state)).
Proof.
  intros Hcalls.
  rewrite run_S, step_think, Hcalls. cbn [bind fst snd].
  rewrite run_S, step_respond. cbn [bind fst snd].
  rewrite run_S, step_guard, guard_after_think. reflexivity.
Qed.

Lemma after_guard_fields (state : AgentState) (safe : bool) (violations : list Violation) :
  guard state = verdict safe violations ->
  let state' := after_guard settings parse get_type format_sql state in
  messages state' = messages state
  /\ iteration_count state' = iteration_count state
  /\ guard_checked state' = Some true
  /\ sql_safe state' = Some safe
  /\ sql_violations state' = Some violations.
Proof.
  intros Hguard. unfold after_guard. rewrite Hguard. cbn.
  rewrite app_nil_r. repeat split.
Qed.

Lemma plain_reply (state : AgentState) :
  let response := answer llm registry state in
  r_tool_calls response = [] ->
  u_sql_safe (verdict_of (r_content response)) = Some true ->
  exists state',
    run 3 think state = Ok (END, state')
    /\ messages state' = (messages state ++ [AIMessage (r_content response) []])%list
    /\ iteration_count state' = (iteration_count state + 1)%Z
    /\ guard_checked state' = Some true
    /\ sql_safe state' = Some true
    /\ sql_violations state' = Some [].
Proof.
  intros response Hcalls Hsafe. subst response.
  rewrite (think_respond_guard state Hcalls), Hsafe. eexists. split; [reflexivity|].
  destruct (verdict_shape (r_content (answer llm registry state)))
    as (safe & violations & Hverdict & Hiff).
  rewrite Hverdict in Hsafe. injection Hsafe as ->.
  destruct (after_guard_fields (after_think llm registry state) true violations)
    as (Hm & Hc & Hg & Hs & Hv); [by rewrite guard_after_think|].
  rewrite Hm, Hc, Hg, Hs, Hv, after_think_messages, Hcalls.
  rewrite (proj1 Hiff eq_refl). repeat split.
Qed.

(** X11. When the backend answers without asking for a tool and the guard
    accepts the text, the turn is over after THINK, RESPOND and the guard:
    the transcript has grown by that one answer, the iteration count by
    one, and the state records a checked, safe verdict without violation. *)
Theorem plain_reply_ends_turn (state : AgentState) :
  let response := answer llm registry state in
  r_tool_calls response = [] ->
  u_sql_safe (verdict_of (r_content response)) = Some true ->
  exists state',
    run 3 think state = Ok (END, state')
    /\ messages state' = (messages state ++ [AIMessage (r_content response) []])%list
    /\ iteration_count state' = (iteration_count state + 1)%Z
    /\ guard_checked state' = Some true
    /\ sql_safe state' = Some true
    /\ sql_violations state' = Some [].
Proof. apply plain_reply. Qed.

(** X12. When the guard rejects the answer, the engine is back at THINK
    with the rejected answer kept in the transcript; what the backend is
    handed for the next attempt is the transcript with that answer at its
    end, and neither the verdict nor the violations; when the next answer
    passes, the turn ends with both answers stored and the count raised by
    two. *)
Theorem rejected_answer_is_regenerated (state : AgentState) :
  let first := answer llm registry state in
  let state1 :=
    after_guard settings parse get_type format_sql (after_think llm registry state) in
  let second := answer llm registry state1 in
  r_tool_calls first = [] ->
  u_sql_safe (verdict_of (r_content first)) = Some false ->
  r_tool_calls second = [] ->
  u_sql_safe (verdict_of (r_content second)) = Some true ->
  run 3 think state = Ok (think, state1)
  /\ messages state1 = (messages state ++ [AIMessage (r_content first) []])%list
  /\ think_input state1 = think_input (after_think llm registry state)
  /\ exists state2,
      run 6 think state = Ok (END, state2)
      /\ messages state2
         = (messages state
            ++ [AIMessage (r_content first) []; AIMessage (r_content second) []])%list
      /\ iteration_count state2 = (iteration_count state + 2)%Z
      /\ sql_safe state2 = Some true.
Proof.
  intros first state1 second Hcalls1 Hunsafe Hcalls2 Hsafe.
  assert (Hrun1 : run 3 think state = Ok (think, state1)).
  { rewrite (think_respond_guard state Hcalls1). fold first. by rewrite Hunsafe. }
  destruct (verdict_shape (r_content first)) as (safe1 & violations1 & Hverdict1 & _).
  destruct (after_guard_fields (after_think llm registry state) safe1 violations1)
    as (Hm1 & Hc1 & _); [by rewrite guard_after_think|].
  fold state1 in Hm1, Hc1.
  assert (Hmsgs1 : messages state1
                   = (messages state ++ [AIMessage (r_content first) []])%list).
  { rewrite Hm1, after_think_messages. fold first. by rewrite Hcalls1. }
  split; [exact Hrun1|]. split; [exact Hmsgs1|].
  split; [unfold think_input; by rewrite Hm1|].
  destruct (plain_reply state1 Hcalls2 Hsafe)
    as (state2 & Hrun2 & Hm2 & Hc2 & _ & Hs2 & _).
  exists state2. split.
  - change 6 with (3 + 3).
    rewrite (EngineFacts.run_add settings parse get_type format_sql llm registry 3 3).
    rewrite Hrun1. exact Hrun2.
  - split; [|split; [|exact Hs2]].
    + fold second in Hm2. rewrite Hm2, Hmsgs1, <- app_assoc. reflexivity.
    + rewrite Hc2, Hc1. cbn. lia.
Qed.

(** THINK, ACT and OBSERVE, for an answer with a request. *)
Lemma think_act_observe (state : AgentState) (tool_call : ToolCall)
  (others : list ToolCall) :
  r_tool_calls (answer llm registry state) = tool_call :: others ->
  let text := dispatch_text registry tool_call in
  let state3 := after_tool registry (after_think llm registry state) tool_call in
  run 3 think state
  = Ok (if startswith "Error:" text
           && (iteration_count state + 1 <? max_iterations settings)%Z
        then think else respond, state3)
  /\ messages state3
     = (messages state
        ++ [AIMessage (r_content (answer llm registry state)) (tool_call :: others);
            ToolMessage text (tc_id tool_call)])%list
  /\ iteration_count state3 = (iteration_count state + 1)%Z.
Proof.
  intros Hcalls text state3. split; [|split].
  - rewrite run_S, step_think, Hcalls. cbn [bind fst snd].
    rewrite run_S.
    rewrite (step_act (after_think llm registry state)
               (r_content (answer llm registry state)) tool_call others);
      [|rewrite after_think_messages, Hcalls; apply last_snoc].
    cbn [bind fst snd]. rewrite run_S, step_observe; [|cbn; discriminate].
    reflexivity.
  - unfold state3, after_tool. cbn [messages apply_update u_messages tool_update].
    rewrite app_nil_r, after_think_messages, Hcalls, <- app_assoc. reflexivity.
  - reflexivity.
Qed.

(** X13. When the backend asks for a tool and the output does not begin
    with Error:, the backend is not asked again: after THINK, ACT, OBSERVE
    and RESPOND the guard inspects the Tool message, its verdict is the one
    of the tool output, and when that is safe the turn ends with the Tool
    message as the last message of the transcript. *)
Theorem tool_output_ends_turn (state : AgentState) (tool_call : ToolCall)
  (others : list ToolCall) :
  r_tool_calls (answer llm registry state) = tool_call :: others ->
  let text := dispatch_text registry tool_call in
  startswith "Error:" text = false ->
  exists state4,
    run 4 think state = Ok (sql_guard, state4)
    /\ last (messages state4) = Some (ToolMessage text (tc_id tool_call))
    /\ iteration_count state4 = (iteration_count state + 1)%Z
    /\ guard state4 = verdict_of text
    /\ (u_sql_safe (verdict_of text) = Some true ->
        exists state5,
          run 5 think state = Ok (END, state5)
          /\ last (messages state5) = Some (ToolMessage text (tc_id tool_call))
          /\ iteration_count state5 = (iteration_count state + 1)%Z).
Proof.
  intros Hcalls text Hok.
  destruct (think_act_observe state tool_call others Hcalls) as (Hrun3 & Hm3 & Hc3).
  fold text in Hrun3, Hm3. rewrite Hok in Hrun3. cbn [andb] in Hrun3.
  set (state3 := after_tool registry (after_think llm registry state) tool_call) in *.
  assert (Hlast : last (messages state3) = Some (ToolMessage text (tc_id tool_call))).
  { rewrite Hm3.
    change [AIMessage (r_content (answer llm registry state)) (tool_call :: others);
            ToolMessage text (tc_id tool_call)]
      with ([AIMessage (r_content (answer llm registry state)) (tool_call :: others)]
            ++ [ToolMessage text (tc_id tool_call)])%list.
    rewrite app_assoc. apply last_snoc. }
  assert (Hguard : guard state3 = verdict_of text)
    by (eapply GuardFacts.guard_on_content; [exact Hlast | reflexivity]).
  assert (Hrun4 : run 4 think state = Ok (sql_guard, state3)).
  { change 4 with (3 + 1).
    rewrite (EngineFacts.run_add settings parse get_type format_sql llm registry 3 1).
    rewrite Hrun3. cbn [bind fst snd]. rewrite run_S, step_respond. reflexivity. }
  exists state3. split; [exact Hrun4|]. split; [exact Hlast|].
  split; [exact Hc3|]. split; [exact Hguard|].
  intros Hsafe. exists (after_guard settings parse get_type format_sql state3). split.
  - change 5 with (4 + 1).
    rewrite (EngineFacts.run_add settings parse get_type format_sql llm registry 4 1).
    rewrite Hrun4. cbn [bind fst snd]. rewrite run_S, step_guard, Hguard, Hsafe.
    reflexivity.
  - destruct (verdict_shape text) as (safe & violations & Hverdict & _).
    destruct (after_guard_fields state3 safe violations) as (Hm & Hc & _);
      [by rewrite Hguard|].
    rewrite Hm, Hc. split; [exact Hlast | exact Hc3].
Qed.

Lemma failing_cycles (cycles : nat) : forall state,
  always_failing llm registry ->
  (iteration_count state + Z.of_nat (S cycles) = max_iterations settings)%Z ->
  exists state',
    run (3 * S cycles) think state = Ok (respond, state')
    /\ iteration_count state' = max_iterations settings
    /\ length (messages state') = length (messages state) + 2 * S cycles.
Proof.
  induction cycles as [|cycles IH]; intros state Hfail Hbudget;
    destruct (Hfail (get_tool_schemas registry) (think_input state))
      as (tool_call & others & Hcalls & Herror);
    destruct (think_act_observe state tool_call others Hcalls) as (Hrun3 & Hm3 & Hc3);
    rewrite Herror in Hrun3; cbn [andb] in Hrun3.
  - destruct (Z.ltb_spec (iteration_count state + 1) (max_iterations settings)); [lia|].
    eexists. split; [exact Hrun3|]. split; [lia|].
    rewrite Hm3, length_app. cbn. lia.
  - destruct (Z.ltb_spec (iteration_count state + 1) (max_iterations settings)); [|lia].
    destruct (IH (after_tool registry (after_think llm registry state) tool_call) Hfail)
      as (state' & Hrun & Hcount & Hlen); [lia|].
    exists state'. split; [|split; [exact Hcount|]].
    + replace (3 * S (S cycles)) with (3 + 3 * S cycles) by lia.
      rewrite (EngineFacts.run_add settings parse get_type format_sql llm registry).
      rewrite Hrun3. exact Hrun.
    + rewrite Hlen, Hm3, length_app. cbn. lia.
Qed.

(** X14. The budget bounds the retries after tool errors: with a backend
    that asks for a tool on every transcript and a dispatch that always
    fails, a run that starts below [max_iterations] goes through THINK, ACT
    and OBSERVE until the iteration count equals [max_iterations], and then
    OBSERVE leads to RESPOND; by then each cycle has appended its two
    messages. *)
Theorem budget_stops_retries (state : AgentState) :
  always_failing llm registry ->
  (iteration_count state < max_iterations settings)%Z ->
  let cycles := Z.to_nat (max_iterations settings - iteration_count state) in
  exists state',
    run (3 * cycles) think state = Ok (respond, state')
    /\ iteration_count state' = max_iterations settings
    /\ length (messages state') = length (messages state) + 2 * cycles.
Proof.
  intros Hfail Hbelow cycles.
  destruct cycles as [|cycles'] eqn:Hcycles; [lia|].
  apply failing_cycles; [exact Hfail | lia].
Qed.

End Facts.

(** A run of five steps with the backend that asks for two tools. *)
Lemma run_never_raises_witness :
  ready think (initial_state "run it")
  /\ exists n' state',
      run default_settings Sample.parse Sample.get_type Sample.format_sql
        Sample.requesting_llm Sample.registry 5 think (initial_state "run it")
      = Ok (n', state').
Proof.
  split; [exact I|].
  destruct (run_never_raises default_settings Sample.parse Sample.get_type
              Sample.format_sql Sample.requesting_llm Sample.registry 5 think
              (initial_state "run it") I) as (n' & state' & Hrun & _).
  exists n', state'. exact Hrun.
Defined.

(** The first three steps of a turn with a plain answer. *)
Lemma run_appends_witness :
  exists state',
    run default_settings Sample.parse Sample.get_type Sample.format_sql
      (Sample.constant_llm "Hello") Sample.registry 3 think (initial_state "hi")
    = Ok (END, state')
    /\ exists appended,
        messages state' = (messages (initial_state "hi") ++ appended)%list
        /\ iteration_count state'
           = (0 + Z.of_nat (length (List.filter is_AIMessage appended)))%Z.
Proof.
  eexists. split; [reflexivity|].
  destruct (run_appends default_settings Sample.parse Sample.get_type Sample.format_sql
              (Sample.constant_llm "Hello") Sample.registry 3 think END
              (initial_state "hi") _ eq_refl) as (appended & Hm & _ & _ & Hc).
  exists appended. split; [exact Hm | exact Hc].
Defined.

(** OBSERVE after a failed dispatch, below the budget. *)
Lemma observe_gate_witness :
  let state := after_tool Sample.registry Sample.two_calls_state
                 {| tc_name := "broken"; tc_args := ∅; tc_id := "call_1" |} in
  tool_output state <> Some None
  /\ exists state',
      step default_settings Sample.parse Sample.get_type Sample.format_sql
        Sample.requesting_llm Sample.registry observe state = Ok (think, state')
      /\ should_continue state' = Some true.
Proof.
  intros state.
  assert (Hout : tool_output state <> Some None) by discriminate.
  split; [exact Hout|].
  destruct (observe_gate default_settings Sample.parse Sample.get_type Sample.format_sql
              Sample.requesting_llm Sample.registry state Hout)
    as (state' & Hstep & Hcontinue & _).
  exists state'. split; [exact Hstep | exact Hcontinue].
Defined.

(** A plain answer to a greeting. *)
Lemma plain_reply_ends_turn_witness :
  let verdict :=
    content_verdict default_settings Sample.parse Sample.get_type Sample.format_sql
      "Hello" in
  u_sql_safe verdict = Some true
  /\ exists state',
      run default_settings Sample.parse Sample.get_type Sample.format_sql
        (Sample.constant_llm "Hello") Sample.registry 3 think (initial_state "hi")
      = Ok (END, state')
      /\ messages state' = [HumanMessage "hi"; AIMessage "Hello" []]
      /\ iteration_count state' = 1%Z.
Proof.
  intros verdict. split; [reflexivity|].
  destruct (plain_reply_ends_turn default_settings Sample.parse Sample.get_type
              Sample.format_sql (Sample.constant_llm "Hello") Sample.registry
              (initial_state "hi") eq_refl eq_refl)
    as (state' & Hrun & Hm & Hc & _).
  exists state'. split; [exact Hrun|]. split; [exact Hm | exact Hc].
Defined.

(** A destructive first answer and a plain second one. *)
Lemma rejected_answer_is_regenerated_witness :
  exists state2,
    run default_settings Sample.parse Sample.get_type Sample.format_sql
      MoreSamples.retrying_llm Sample.registry 6 think (initial_state "Remove table")
    = Ok (END, state2)
    /\ messages state2
       = [HumanMessage "Remove table"; AIMessage Sample.q_drop []; AIMessage "Done." []]
    /\ iteration_count state2 = 2%Z.
Proof.
  destruct (rejected_answer_is_regenerated default_settings Sample.parse Sample.get_type
              Sample.format_sql MoreSamples.retrying_llm Sample.registry
              (initial_state "Remove table") eq_refl eq_refl eq_refl eq_refl)
    as (_ & _ & _ & state2 & Hrun & Hm & Hc & _).
  exists state2. split; [exact Hrun|]. split; [exact Hm | exact Hc].
Defined.

(** A request for the tool that answers done. *)
Lemma tool_output_ends_turn_witness :
  dispatch_text Sample.registry
    {| tc_name := "echo"; tc_args := ∅; tc_id := "call_1" |} = "done"
  /\ exists state5,
      run default_settings Sample.parse Sample.get_type Sample.format_sql
        MoreSamples.echo_llm Sample.registry 5 think (initial_state "run it")
      = Ok (END, state5)
      /\ last (messages state5) = Some (ToolMessage "done" "call_1")
      /\ iteration_count state5 = 1%Z.
Proof.
  split; [reflexivity|].
  destruct (tool_output_ends_turn default_settings Sample.parse Sample.get_type
              Sample.format_sql MoreSamples.echo_llm Sample.registry
              (initial_state "run it")
              {| tc_name := "echo"; tc_args := ∅; tc_id := "call_1" |} []
              eq_refl eq_refl)
    as (_ & _ & _ & _ & _ & Hend).
  exact (Hend eq_refl).
Defined.

(** The backend that always asks for the tool that fails, under the default
    budget of three iterations. *)
Lemma budget_stops_retries_witness :
  always_failing Sample.requesting_llm Sample.registry
  /\ exists state',
      run default_settings Sample.parse Sample.get_type Sample.format_sql
        Sample.requesting_llm Sample.registry 9 think (initial_state "run it")
      = Ok (respond, state')
      /\ iteration_count state' = 3%Z
      /\ length (messages state') = 7.
Proof.
  assert (Hfail : always_failing Sample.requesting_llm Sample.registry).
  { intros tools transcript. do 2 eexists. split; reflexivity. }
  split; [exact Hfail|].
  assert (Hbelow : (iteration_count (initial_state "run it")
                    < max_iterations default_settings)%Z) by reflexivity.
  exact (budget_stops_retries default_settings Sample.parse Sample.get_type
           Sample.format_sql Sample.requesting_llm Sample.registry
           (initial_state "run it") Hfail Hbelow).
Defined.

End EngineMore.

(** ** The validation tool inside the engine, and more on the guard *)

Module GuardMore.
Import PyStr SqlDetector SqlValidator Sqlparse Registry State Nodes Guards Graph
  SqlTool Spec.

(** X15. A request for [sql_query_constructor] with a query, dispatched
    through a registry that holds the tool: ACT appends the report of the
    tool and OBSERVE leads to RESPOND with [should_continue] false, also
    when the report is the one of a failed validation; a query that fails
    validation does not send the engine back to THINK. *)
Theorem validation_report_is_not_retried
  (settings : Settings) (parse : parser) (get_type : token -> string)
  (format_sql : string -> string) (llm : backend) (registry : ToolRegistry)
  (state : AgentState) (content query : string) (tool_call : ToolCall)
  (others : list ToolCall) :
  last (messages state) = Some (AIMessage content (tool_call :: others)) ->
  tc_name tool_call = "sql_query_constructor" ->
  tc_args tool_call !! "query" = Some (VStr query) ->
  _tools registry !! "sql_query_constructor"
  = Some (sql_query_constructor_tool parse get_type format_sql settings) ->
  exists report state',
    sql_query_constructor parse get_type format_sql settings query = Ok report
    /\ run settings parse get_type format_sql llm registry 2 act state
       = Ok (respond, state')
    /\ messages state' = (messages state ++ [ToolMessage report (tc_id tool_call)])%list
    /\ should_continue state' = Some false.
Proof.
  intros Hlast Hname Hquery Htool.
  destruct (ValidatorMore.tool_report parse get_type format_sql settings query)
    as (report & Hreport & Hstart & _).
  assert (Htext : dispatch_text registry tool_call = report).
  { unfold dispatch_text, execute_tool. rewrite Hname, Htool. cbn [invoke].
    unfold sql_query_constructor_tool. cbn [invoke]. by rewrite Hquery, Hreport. }
  exists report. eexists. split; [exact Hreport|].
  rewrite EngineFacts.run_S.
  rewrite (EngineMore.step_act settings parse get_type format_sql llm registry
             state content tool_call others Hlast).
  cbn [bind fst snd]. rewrite EngineFacts.run_S.
  rewrite EngineMore.step_observe by (cbn; discriminate).
  rewrite Htext. cbn [observed apply_update tool_output u_tool_output tool_update].
  rewrite Hstart. cbn [andb bind fst snd Graph.run].
  split; [reflexivity|]. split; [|reflexivity].
  cbn. by rewrite app_nil_r.
Qed.

(** The DELETE statement, sent to the tool. *)
Lemma validation_report_is_not_retried_witness :
  exists state',
    run default_settings Sample.parse Sample.get_type Sample.format_sql
      Sample.requesting_llm MoreSamples.tool_registry 2 act
      (MoreSamples.validation_state Sample.q_delete)
    = Ok (respond, state')
    /\ last (messages state')
       = Some (ToolMessage
                 (failed_report ["Only SELECT statements allowed, got: DELETE"])
                 "call_7")
    /\ should_continue state' = Some false.
Proof.
  destruct (validation_report_is_not_retried default_settings Sample.parse
              Sample.get_type Sample.format_sql Sample.requesting_llm
              MoreSamples.tool_registry (MoreSamples.validation_state Sample.q_delete)
              EmptyString Sample.q_delete
              (MoreSamples.validation_request Sample.q_delete) []
              eq_refl eq_refl eq_refl eq_refl)
    as (report & state' & Hreport & Hrun & Hm & Hcontinue).
  exists state'. split; [exact Hrun|]. split; [|exact Hcontinue].
  rewrite Hm. injection Hreport as <-. reflexivity.
Defined.

(** X16. The verdict of the guard is a function of the text of the last
    message alone: not of the kind of message that carries it (a Tool or a
    user message is checked like an assistant message), nor of the earlier
    messages, nor of the rest of the state. *)
Theorem verdict_reads_last_text_only
  (settings : Settings) (parse : parser) (get_type : token -> string)
  (format_sql : string -> string) (state1 state2 : AgentState) (m1 m2 : Message)
  (content : string) :
  last (messages state1) = Some m1 ->
  last (messages state2) = Some m2 ->
  content_of m1 = Some content ->
  content_of m2 = Some content ->
  sql_validation_guard settings parse get_type format_sql state1
  = sql_validation_guard settings parse get_type format_sql state2.
Proof.
  intros Hlast1 Hlast2 Hc1 Hc2.
  rewrite (GuardFacts.guard_on_content settings parse get_type format_sql
             state1 m1 content Hlast1 Hc1).
  by rewrite (GuardFacts.guard_on_content settings parse get_type format_sql
                state2 m2 content Hlast2 Hc2).
Qed.

(** The same destructive text as an assistant message and as a Tool message
    after a harmless exchange. *)
Lemma verdict_reads_last_text_only_witness :
  let state1 := after_think (Sample.constant_llm Sample.q_drop) Sample.registry
                  (initial_state "Remove table") in
  let state2 := apply_update (initial_state "hi")
                  (tool_update Sample.q_drop
                     {| tc_name := "echo"; tc_args := ∅; tc_id := "call_1" |}) in
  sql_validation_guard default_settings Sample.parse Sample.get_type Sample.format_sql
    state1
  = sql_validation_guard default_settings Sample.parse Sample.get_type Sample.format_sql
      state2
  /\ u_sql_safe (sql_validation_guard default_settings Sample.parse Sample.get_type
                   Sample.format_sql state2) = Some false.
Proof.
  intros state1 state2. split; [|reflexivity].
  exact (verdict_reads_last_text_only default_settings Sample.parse Sample.get_type
           Sample.format_sql state1 state2
           (AIMessage Sample.q_drop []) (ToolMessage Sample.q_drop "call_1")
           Sample.q_drop eq_refl eq_refl eq_refl eq_refl).
Defined.

(** X17. Every violation that the guard reports is about a statement that
    was extracted from the text of the last message and that fails
    validation: it carries the errors and the metadata of that validation,
    and at least one error; and there are no more violations than
    extracted statements. *)
Theorem violations_carry_errors
  (settings : Settings) (parse : parser) (get_type : token -> string)
  (format_sql : string -> string) (state : AgentState) (violations : list Violation) :
  let validate := validate_sql_query parse get_type format_sql settings in
  u_sql_violations (sql_validation_guard settings parse get_type format_sql state)
  = Some violations ->
  Forall (fun v =>
            valid (validate (v_query v)) = false
            /\ v_errors v = errors (validate (v_query v))
            /\ v_errors v <> []
            /\ v_metadata v = metadata (validate (v_query v))) violations
  /\ (violations <> [] ->
      exists m content,
        last (messages state) = Some m
        /\ content_of m = Some content
        /\ length violations <= length (extract_sql_queries content)
        /\ forall v, v ∈ violations -> v_query v ∈ extract_sql_queries content).
Proof.
  intros validate. unfold sql_validation_guard.
  destruct (last (messages state)) as [m|];
    [|intros [= <-]; split; [constructor | congruence]].
  destruct (content_of m) as [content|] eqn:Hcontent;
    [|intros [= <-]; split; [constructor | congruence]].
  destruct (negb (contains_sql content));
    [intros [= <-]; split; [constructor | congruence]|].
  rewrite GuardFacts.check_queries. cbn [app u_sql_violations verdict].
  intros [= <-]. split.
  - apply Forall_forall. intros v Hv.
    apply list_elem_of_fmap in Hv. destruct Hv as (q & -> & Hq).
    apply list_elem_of_filter in Hq. destruct Hq as [Hinvalid _].
    unfold violation_of, Guards.validate in *. cbn. fold validate in Hinvalid |- *.
    destruct (valid (validate q)) eqn:Hvalid; [contradiction|].
    repeat split. intros Hnone.
    apply (ValidatorMore.errors_decide_validity parse get_type format_sql settings q)
      in Hnone. fold validate in Hnone. congruence.
  - intros _. exists m, content. split; [reflexivity|]. split; [exact Hcontent|]. split.
    + rewrite length_map. apply length_filter.
    + intros v Hv. apply list_elem_of_fmap in Hv. destruct Hv as (q & -> & Hq).
      apply list_elem_of_filter in Hq. by destruct Hq.
Qed.

(** The two violations of a text with a DROP and a DELETE statement. *)
Lemma violations_carry_errors_witness :
  let state := after_think (Sample.constant_llm Sample.q_drop) Sample.registry
                 (initial_state "Remove table") in
  exists violations,
    u_sql_violations (sql_validation_guard default_settings Sample.parse
                        Sample.get_type Sample.format_sql state) = Some violations
    /\ Forall (fun v => v_errors v <> []) violations
    /\ length violations = 1.
Proof.
  intros state. eexists. split; [reflexivity|].
  destruct (violations_carry_errors default_settings Sample.parse Sample.get_type
              Sample.format_sql state _ eq_refl) as [Hall _].
  split; [|reflexivity].
  eapply Forall_impl; [exact Hall|]. intros v (_ & _ & Hne & _). exact Hne.
Defined.

End GuardMore.

(** ** More on the detector *)

Module DetectorMore.
Import PyStr Re SqlDetector.

Lemma mem_true (x : string) (xs : list string) : mem x xs = true -> x ∈ xs.
Proof.
  unfold mem. intros Hmem. apply existsb_exists in Hmem.
  destruct Hmem as (y & Hin & Heq). apply String.eqb_eq in Heq. subst y.
  by apply list_elem_of_In.
Qed.

Lemma inline_adds_new (ms : list rematch) : forall queries,
  exists added,
    fold_left add_inline ms queries = (queries ++ added)%list
    /\ NoDup added
    /\ forall q, q ∈ added -> q ∉ queries.
Proof.
  induction ms as [|m ms IH]; intros queries; simpl.
  - exists []. rewrite app_nil_r. split; [reflexivity|]. split; [constructor|].
    intros q Hq. by apply not_elem_of_nil in Hq.
  - destruct (IH (add_inline queries m)) as (added & -> & Hnd & Hnew).
    unfold add_inline in *.
    destruct (found flags_icase pattern_confirm _); [|eauto].
    destruct (mem _ queries) eqn:Hmem; cbn [negb] in *; [eauto|].
    eexists (_ :: added). rewrite <- app_assoc. split; [reflexivity|]. split.
    + apply NoDup_cons. split; [|exact Hnd].
      intros Hin. apply (Hnew _ Hin). apply elem_of_app. right.
      apply list_elem_of_here.
    + intros q Hq. apply elem_of_cons in Hq. destruct Hq as [->|Hq].
      * by apply DetectorFacts.mem_false.
      * intros Hin. apply (Hnew q Hq). apply elem_of_app. by left.
Qed.

Lemma keywords_add_new (text : string) (keywords : list string) : forall queries,
  exists added,
    fold_left (add_keyword text) keywords queries = (queries ++ added)%list
    /\ NoDup added
    /\ forall q, q ∈ added -> q ∉ queries.
Proof.
  induction keywords as [|keyword keywords' IH]; intros queries; simpl.
  - exists []. rewrite app_nil_r. split; [reflexivity|]. split; [constructor|].
    intros q Hq. by apply not_elem_of_nil in Hq.
  - unfold add_keyword at 2.
    destruct (inline_adds_new (finditer flags_inline (pattern_statement keyword) text)
                queries) as (first & -> & Hnd1 & Hnew1).
    destruct (IH (queries ++ first)%list) as (more & -> & Hnd2 & Hnew2).
    exists (first ++ more)%list. rewrite app_assoc. split; [reflexivity|]. split.
    + apply NoDup_app. split; [exact Hnd1|]. split; [|exact Hnd2].
      intros q Hq Hq'. apply (Hnew2 q Hq'). apply elem_of_app. by right.
    + intros q Hq. apply elem_of_app in Hq. destruct Hq as [Hq|Hq].
      * by apply Hnew1.
      * intros Hin. apply (Hnew2 q Hq). apply elem_of_app. by left.
Qed.

(** X18. The extractor returns the statements of the fenced regions first,
    in the order of the regions, and after them the statements of the
    inline scan, each of which occurs once and is none of the fenced ones,
    in whatever order the keywords are taken; so the result repeats a
    statement only if two fenced regions hold the same text. *)
Theorem inline_statements_are_new (keywords : list string) (text : string) :
  exists inline,
    extract_sql_queries_in keywords text = (block_queries keywords text ++ inline)%list
    /\ NoDup inline
    /\ (forall q, q ∈ inline -> q ∉ block_queries keywords text)
    /\ (NoDup (block_queries keywords text) ->
        NoDup (extract_sql_queries_in keywords text)).
Proof.
  unfold extract_sql_queries_in.
  destruct (keywords_add_new text keywords (block_queries keywords text))
    as (inline & Heq & Hnd & Hnew).
  exists inline. rewrite Heq. repeat split; try assumption.
  intros Hblocks. apply NoDup_app. split; [exact Hblocks|]. split; [|exact Hnd].
  intros q Hq Hq'. exact (Hnew q Hq' Hq).
Qed.

(** X19. What [contains_sql] answers does not depend on the order in which
    the keyword set is iterated. *)
Theorem detection_ignores_keyword_order (keywords : list string) (text : string) :
  keywords ≡ₚ SQL_KEYWORDS -> contains_sql_in keywords text = contains_sql text.
Proof. apply DetectorFacts.contains_sql_any_order. Qed.

(** The keywords in reverse order. *)
Lemma detection_ignores_keyword_order_witness :
  reverse SQL_KEYWORDS ≡ₚ SQL_KEYWORDS
  /\ contains_sql_in (reverse SQL_KEYWORDS) "UPDATE users SET role = 'admin'" = true.
Proof.
  assert (Hperm : reverse SQL_KEYWORDS ≡ₚ SQL_KEYWORDS) by apply reverse_Permutation.
  split; [exact Hperm|].
  rewrite (detection_ignores_keyword_order (reverse SQL_KEYWORDS)
             "UPDATE users SET role = 'admin'" Hperm).
  reflexivity.
Defined.

End DetectorMore.

(** ** Texts and the matcher *)

Module TextFacts.
Import PyStr Re Spec.

#[local] Arguments String.append !s1 s2 : simpl nomatch.

Lemma append_assoc (a b c : string) : (a ++ b) ++ c = a ++ b ++ c.
Proof. induction a as [|x a IH]; simpl; [reflexivity | by rewrite IH]. Qed.

Lemma append_nil_r (a : string) : a ++ EmptyString = a.
Proof. induction a as [|x a IH]; simpl; [reflexivity | by rewrite IH]. Qed.

Lemma suffix_of_refl (a : string) : suffix_of a a.
Proof. by exists EmptyString. Qed.

Lemma suffix_of_trans (a b c : string) : suffix_of a b -> suffix_of b c -> suffix_of a c.
Proof.
  intros [p ->] [q ->]. exists (q ++ p). by rewrite append_assoc.
Qed.

Lemma suffix_of_tail (c : ascii) (a b : string) : suffix_of (String c a) b -> suffix_of a b.
Proof.
  intros [p ->]. exists (p ++ String c EmptyString). by rewrite append_assoc.
Qed.

Lemma suffix_occurs (a b : string) : suffix_of a b -> occurs_in a b.
Proof. intros [p ->]. exists p, EmptyString. by rewrite append_nil_r. Qed.

Lemma occurs_in_trans (a b c : string) : occurs_in a b -> occurs_in b c -> occurs_in a c.
Proof.
  intros (p & q & ->) (p' & q' & ->). exists (p' ++ p), (q ++ q').
  by rewrite !append_assoc.
Qed.

Lemma occurs_in_suffix (a b c : string) : occurs_in a b -> suffix_of b c -> occurs_in a c.
Proof. intros Hab Hbc. eapply occurs_in_trans; [exact Hab | by apply suffix_occurs]. Qed.

Lemma startswith_spec (p s : string) :
  startswith p s = true <-> exists post, s = p ++ post.
Proof.
  revert s. induction p as [|c p IH]; intros s; simpl.
  - split; [intros _; by exists s | reflexivity].
  - destruct s as [|a s]; [split; [discriminate | intros [post H]; discriminate]|].
    rewrite andb_true_iff, IH. split.
    + intros [Hc [post ->]]. apply Ascii.eqb_eq in Hc. subst a. by exists post.
    + intros [post [= -> ->]]. split; [apply Ascii.eqb_refl | by exists post].
Qed.

Lemma contains_spec (p s : string) : contains p s = true <-> occurs_in p s.
Proof.
  induction s as [|a s IH]; simpl.
  - rewrite orb_false_r, startswith_spec. split.
    + intros [post H]. by exists EmptyString, post.
    + intros ([|x pre] & post & H); [by exists post | discriminate].
  - rewrite orb_true_iff, IH, startswith_spec. split.
    + intros [[post H] | (pre & post & ->)].
      * by exists EmptyString, post.
      * by exists (String a pre), post.
    + intros ([|x pre] & post & H).
      * left. by exists post.
      * right. injection H as -> ->. by exists pre, post.
Qed.

Lemma upper_append (a b : string) : upper (a ++ b) = upper a ++ upper b.
Proof. induction a as [|x a IH]; simpl; [reflexivity | by rewrite IH]. Qed.

Lemma occurs_in_upper (a b : string) : occurs_in a b -> occurs_in (upper a) (upper b).
Proof.
  intros (p & q & ->). exists (upper p), (upper q). by rewrite !upper_append.
Qed.

(** A word that occurs in the upper-cased piece of a text occurs in the
    upper-cased text. *)
Lemma contains_upper_piece (word piece text : string) :
  occurs_in piece text ->
  contains word (upper piece) = true -> contains word (upper text) = true.
Proof.
  intros Hpiece Hword. apply contains_spec. apply contains_spec in Hword.
  eapply occurs_in_trans; [exact Hword | by apply occurs_in_upper].
Qed.

Lemma lstrip_by_suffix (f : ascii -> bool) (s : string) : suffix_of (lstrip_by f s) s.
Proof.
  induction s as [|c s IH]; simpl; [apply suffix_of_refl|].
  destruct (f c); [|apply suffix_of_refl].
  destruct IH as [p Hp]. exists (String c p). simpl. by rewrite <- Hp.
Qed.

Lemma rstrip_by_prefix (f : ascii -> bool) (s : string) :
  exists post, s = rstrip_by f s ++ post.
Proof.
  induction s as [|c s [post IH]]; simpl; [by exists EmptyString|].
  destruct (rstrip_by f s) as [|x r] eqn:Hr.
  - destruct (f c); [by exists (String c s) | exists s; reflexivity].
  - exists post. simpl in *. by rewrite <- IH.
Qed.

Lemma strip_occurs (s : string) : occurs_in (strip s) s.
Proof.
  unfold strip.
  destruct (rstrip_by_prefix is_space (lstrip_by is_space s)) as [post Hpost].
  destruct (lstrip_by_suffix is_space s) as [pre Hpre].
  exists pre, post. by rewrite <- Hpost.
Qed.

Lemma substring_prefix (pre post : string) :
  substring 0 (String.length pre) (pre ++ post) = pre.
Proof.
  induction pre as [|c pre IH]; simpl.
  - destruct post; reflexivity.
  - by rewrite IH.
Qed.

(** What was read between two positions is a piece of the first. *)
Lemma consumed_spec (from to : string) :
  suffix_of to from -> from = consumed from to ++ to.
Proof.
  intros [pre ->]. unfold consumed.
  rewrite TokenFacts.append_length.
  replace (String.length pre + String.length to - String.length to)
    with (String.length pre) by lia.
  by rewrite substring_prefix.
Qed.

Lemma consumed_occurs (text from to : string) :
  suffix_of to from -> suffix_of from text -> occurs_in (consumed from to) text.
Proof.
  intros Hto [pre ->]. exists pre, to. by rewrite <- consumed_spec.
Qed.

Section Matcher.

Variable fl : flags.
Variable text : string.

Lemma inside_advance (st : mstate) (a : ascii) (s' : string) :
  inside text st -> rest st = String a s' -> inside text (advance st a s').
Proof.
  intros (Hrest & Hstart & Htext) Heq. rewrite Heq in *.
  split; [|split]; simpl.
  - eapply suffix_of_tail, Hrest.
  - intros from Hfrom. destruct (Hstart from Hfrom) as [H1 H2].
    split; [eapply suffix_of_tail, H1 | exact H2].
  - exact Htext.
Qed.

Lemma inside_open (st : mstate) : inside text st -> inside text (open_group st).
Proof.
  intros (Hrest & Hstart & Htext). split; [|split]; simpl.
  - exact Hrest.
  - intros from [= <-]. split; [apply suffix_of_refl | exact Hrest].
  - exact Htext.
Qed.

Lemma inside_close (st : mstate) : inside text st -> inside text (close_group st).
Proof.
  intros (Hrest & Hstart & Htext). split; [|split]; simpl.
  - exact Hrest.
  - exact Hstart.
  - destruct (gstart st) as [from|]; [|discriminate].
    intros g [= <-]. destruct (Hstart from eq_refl) as [H1 H2].
    by apply consumed_occurs.
Qed.

Lemma rmatch_star (greedy : bool) (r : regex) (st : mstate)
  (k : mstate -> option mstate) :
  rmatch fl (RStar greedy r) st k
  = star_loop (rmatch fl r) greedy k (S (String.length (rest st))) st.
Proof. reflexivity. Qed.

(** Wherever the matcher hands over to its continuation, it is at a
    position inside the text, at or after the one it started from. *)
Lemma rmatch_inside (r : regex) : forall st k res,
  inside text st ->
  rmatch fl r st k = Some res ->
  exists st', inside text st' /\ suffix_of (rest st') (rest st) /\ k st' = Some res.
Proof.
  induction r as [c| |r1 IH1 r2 IH2|r1 IH1 r2 IH2|greedy r IH|r IH| |];
    intros st k res Hin Hm.
  - cbn [rmatch] in Hm. destruct (rest st) as [|a s'] eqn:Hrest; [discriminate|].
    destruct (cset_matches fl c a); [|discriminate].
    exists (advance st a s'). split; [by apply inside_advance|].
    split; [|exact Hm]. simpl. exists (String a EmptyString). reflexivity.
  - exists st. split; [exact Hin|]. split; [apply suffix_of_refl | exact Hm].
  - cbn [rmatch] in Hm. destruct (IH1 _ _ _ Hin Hm) as (st1 & Hin1 & Hs1 & Hm1).
    destruct (IH2 _ _ _ Hin1 Hm1) as (st2 & Hin2 & Hs2 & Hm2).
    exists st2. split; [exact Hin2|]. split; [|exact Hm2].
    eapply suffix_of_trans; eassumption.
  - cbn [rmatch] in Hm. destruct (rmatch fl r1 st k) as [res1|] eqn:H1.
    + injection Hm as <-. by apply IH1.
    + by apply IH2.
  - rewrite rmatch_star in Hm. revert Hm.
    generalize (S (String.length (rest st))). intros n. revert st res Hin.
    induction n as [|n IHn]; intros st res Hin Hm.
    + exists st. split; [exact Hin|]. split; [apply suffix_of_refl | exact Hm].
    + assert (Hmore : forall res',
                 rmatch fl r st
                   (fun st' =>
                      if (String.length (rest st') <? String.length (rest st))%nat
                      then star_loop (rmatch fl r) greedy k n st' else None) = Some res' ->
                 exists st', inside text st' /\ suffix_of (rest st') (rest st)
                             /\ k st' = Some res').
      { intros res' Hr. destruct (IH _ _ _ Hin Hr) as (st1 & Hin1 & Hs1 & Hk1).
        destruct (_ <? _)%nat; [|discriminate].
        destruct (IHn st1 res' Hin1 Hk1) as (st2 & Hin2 & Hs2 & Hk2).
        exists st2. split; [exact Hin2|]. split; [|exact Hk2].
        eapply suffix_of_trans; eassumption. }
      cbn [star_loop] in Hm. destruct greedy.
      * destruct (rmatch fl r st _) as [res1|] eqn:Hbody.
        -- injection Hm as <-. by apply Hmore.
        -- exists st. split; [exact Hin|]. split; [apply suffix_of_refl | exact Hm].
      * destruct (k st) as [res1|] eqn:Hk.
        -- injection Hm as <-. exists st. split; [exact Hin|].
           split; [apply suffix_of_refl | exact Hk].
        -- by apply Hmore.
  - cbn [rmatch] in Hm. destruct (IH _ _ _ (inside_open st Hin) Hm) as (st1 & Hin1 & Hs1 & Hk1).
    exists (close_group st1). split; [by apply inside_close|].
    split; [exact Hs1 | exact Hk1].
  - cbn [rmatch] in Hm. destruct (xorb _ _); [|discriminate].
    exists st. split; [exact Hin|]. split; [apply suffix_of_refl | exact Hm].
  - cbn [rmatch] in Hm. destruct (at_end fl st); [|discriminate].
    exists st. split; [exact Hin|]. split; [apply suffix_of_refl | exact Hm].
Qed.

(** A match holds pieces of the text, and the scan goes on inside it. *)
Lemma match_at_inside (r : regex) (p : option ascii) (pos : nat) (m : rematch) :
  match_at fl r p text pos = Some m ->
  suffix_of (m_rest m) text
  /\ forall g, group1 m = Some g -> occurs_in g text.
Proof.
  unfold match_at.
  destruct (rmatch fl r _ Some) as [st|] eqn:Hm; [|discriminate].
  intros [= <-]. cbn [m_rest group1].
  apply rmatch_inside in Hm.
  - destruct Hm as (st' & (Hrest & _ & Htext) & _ & [= ->]). auto.
  - split; [apply suffix_of_refl|]. split; discriminate.
Qed.

End Matcher.

Lemma search_from_found (fl : flags) (r : regex) (s : string) :
  forall p pos m,
    search_from fl r p s pos = Some m ->
    exists p' s' pos', suffix_of s' s /\ match_at fl r p' s' pos' = Some m.
Proof.
  induction s as [|c s IH]; intros p pos m; cbn [search_from].
  - destruct (match_at fl r p EmptyString pos) as [m'|] eqn:Hm; [|discriminate].
    intros [= <-]. exists p, EmptyString, pos. split; [apply suffix_of_refl | exact Hm].
  - destruct (match_at fl r p (String c s) pos) as [m'|] eqn:Hm.
    + intros [= <-]. exists p, (String c s), pos.
      split; [apply suffix_of_refl | exact Hm].
    + intros Hs. destruct (IH _ _ _ Hs) as (p' & s' & pos' & Hsuf & Hm').
      exists p', s', pos'. split; [|exact Hm'].
      eapply suffix_of_trans; [exact Hsuf|]. exists (String c EmptyString). reflexivity.
Qed.

Lemma finditer_from_found (fl : flags) (r : regex) (fuel : nat) :
  forall p s pos m,
    In m (finditer_from fuel fl r p s pos) ->
    exists p' s' pos', suffix_of s' s /\ match_at fl r p' s' pos' = Some m.
Proof.
  induction fuel as [|fuel IH]; intros p s pos m; cbn [finditer_from]; [intros []|].
  destruct (search_from fl r p s pos) as [m0|] eqn:Hsearch; [|intros []].
  destruct (search_from_found fl r s p pos m0 Hsearch) as (p0 & s0 & pos0 & Hsuf0 & Hm0).
  destruct (match_at_inside fl s0 r p0 pos0 m0 Hm0) as [Hrest0 _].
  assert (Hhead : m = m0 ->
            exists p' s' pos', suffix_of s' s /\ match_at fl r p' s' pos' = Some m).
  { intros ->. exists p0, s0, pos0. auto. }
  assert (Htail : forall p1 s1 pos1,
             suffix_of s1 (m_rest m0) ->
             In m (finditer_from fuel fl r p1 s1 pos1) ->
             exists p' s' pos', suffix_of s' s /\ match_at fl r p' s' pos' = Some m).
  { intros p1 s1 pos1 Hsuf1 Hin.
    destruct (IH _ _ _ _ Hin) as (p' & s' & pos' & Hsuf' & Hm').
    exists p', s', pos'. split; [|exact Hm'].
    eapply suffix_of_trans; [exact Hsuf'|].
    eapply suffix_of_trans; [exact Hsuf1|].
    eapply suffix_of_trans; eassumption. }
  destruct (group0 m0) as [|g0 gs]; [destruct (m_rest m0) as [|c s1] eqn:Hrest|].
  - intros [Heq|[]]. by apply Hhead.
  - intros [Heq|Hin]; [by apply Hhead|].
    eapply Htail; [|exact Hin]. exists (String c EmptyString). reflexivity.
  - intros [Heq|Hin]; [by apply Hhead|].
    eapply Htail; [apply suffix_of_refl | exact Hin].
Qed.

(** Group 1 of every match that [finditer] returns is a piece of the
    text. *)
Lemma finditer_group (fl : flags) (r : regex) (text : string) (m : rematch) :
  In m (finditer fl r text) -> occurs_in (SqlDetector.group_1 m) text.
Proof.
  intros Hin. unfold finditer in Hin.
  destruct (finditer_from_found fl r _ _ _ _ _ Hin) as (p' & s' & pos' & Hsuf & Hm).
  destruct (match_at_inside fl s' r p' pos' m Hm) as [_ Hgroup].
  unfold SqlDetector.group_1. destruct (group1 m) as [g|].
  - eapply occurs_in_suffix; [by apply Hgroup | exact Hsuf].
  - by exists EmptyString, text.
Qed.

Lemma all_ascii_complete (a : ascii) : In a all_ascii.
Proof.
  unfold all_ascii. rewrite <- (ascii_nat_embedding a).
  apply in_map, in_seq. pose proof (nat_ascii_bounded a). lia.
Qed.

Lemma same_letter_check :
  forallb (fun a =>
             forallb (fun c =>
                        implb (is_upper c && Ascii.eqb (lower_char a) (lower_char c))
                              (Ascii.eqb (upper_char a) c))
                     all_ascii)
          all_ascii = true.
Proof. vm_compute. reflexivity. Qed.

(** A character that equals an upper-case letter when the case is ignored
    is that letter once upper-cased. *)
Lemma same_letter (a c : ascii) :
  is_upper c = true ->
  Ascii.eqb (lower_char a) (lower_char c) = true ->
  upper_char a = c.
Proof.
  intros Hupper Hsame. pose proof same_letter_check as Hcheck.
  rewrite forallb_forall in Hcheck. specialize (Hcheck a (all_ascii_complete a)).
  rewrite forallb_forall in Hcheck. specialize (Hcheck c (all_ascii_complete c)).
  rewrite Hupper, Hsame in Hcheck. simpl in Hcheck. by apply Ascii.eqb_eq.
Qed.

Lemma starts_like_upper (fl : flags) (word s : string) :
  IGNORECASE fl = true ->
  all_upper word = true ->
  starts_like fl word s = true ->
  startswith word (upper s) = true.
Proof.
  intros Hfl. revert s. unfold all_upper.
  induction word as [|c word IH]; intros s Hupper Hlike; [reflexivity|].
  destruct s as [|a s]; [discriminate|].
  cbn [list_ascii_of_string forallb] in Hupper. apply andb_prop in Hupper.
  destruct Hupper as [Hc Hword].
  cbn [starts_like] in Hlike. apply andb_prop in Hlike. destruct Hlike as [Hchar Hlike].
  unfold char_eq in Hchar. rewrite Hfl in Hchar.
  cbn [upper startswith]. rewrite (same_letter a c Hc Hchar), Ascii.eqb_refl.
  by apply IH.
Qed.

(** A literal word matches only where the text starts like it. *)
Lemma rmatch_literal (fl : flags) (word : string) : forall st k res,
  rmatch fl (RLit word) st k = Some res -> starts_like fl word (rest st) = true.
Proof.
  induction word as [|c word IH]; intros st k res Hm; [reflexivity|].
  cbn [RLit rmatch] in Hm.
  destruct (rest st) as [|a s'] eqn:Hrest; [discriminate|].
  cbn [cset_matches] in Hm. cbn [starts_like].
  destruct (char_eq fl a c); [|discriminate].
  apply IH in Hm. exact Hm.
Qed.

(** The statement pattern of a keyword matches only in a text whose
    upper-cased form holds the keyword. *)
Lemma statement_needs_keyword (keyword text : string) (p : option ascii) (pos : nat) :
  all_upper keyword = true ->
  contains keyword (upper text) = false ->
  search_from SqlDetector.flags_inline (SqlDetector.pattern_statement keyword) p text pos
  = None.
Proof.
  intros Hupper Hnone.
  destruct (search_from _ _ p text pos) as [m|] eqn:Hsearch; [|reflexivity].
  destruct (search_from_found _ _ _ _ _ _ Hsearch) as (p' & s' & pos' & Hsuf & Hm).
  unfold match_at in Hm.
  destruct (rmatch _ _ _ Some) as [st|] eqn:Hr; [|discriminate].
  unfold SqlDetector.pattern_statement in Hr. cbn [rmatch RCat] in Hr.
  destruct (xorb _ _); [|discriminate].
  apply rmatch_literal in Hr. cbn [open_group rest] in Hr.
  apply starts_like_upper in Hr; [|reflexivity | exact Hupper].
  assert (Hocc : contains keyword (upper text) = true).
  { apply contains_spec. apply startswith_spec in Hr. destruct Hr as [post Hpost].
    destruct Hsuf as [pre ->]. rewrite upper_append, Hpost.
    by exists (upper pre), post. }
  congruence.
Qed.

End TextFacts.

(** ** The detector and the keywords *)

Module DetectorSound.
Import PyStr Re SqlDetector Spec State Guards.

#[local] Arguments String.append !s1 s2 : simpl nomatch.

(** A text in whose upper-cased form no keyword occurs has no piece in
    which one occurs. *)
Lemma piece_without_keyword (keywords : list string) (piece text : string) :
  occurs_in piece text ->
  contains_sql_patterns_in keywords text = false ->
  contains_sql_patterns_in keywords piece = false.
Proof.
  unfold contains_sql_patterns_in. intros Hpiece Hnone.
  destruct (existsb _ keywords) eqn:Hsome in |- *; [|reflexivity].
  apply existsb_exists in Hsome. destruct Hsome as (keyword & Hin & Hword).
  rewrite <- Hnone. symmetry. apply existsb_exists. exists keyword.
  split; [exact Hin|]. eapply TextFacts.contains_upper_piece; eassumption.
Qed.

Lemma block_queries_none (keywords : list string) (text : string) :
  contains_sql_patterns_in keywords text = false ->
  block_queries keywords text = [].
Proof.
  intros Hnone. unfold block_queries.
  assert (Hall : forall m, In m (finditer flags_block code_block_pattern text) ->
                   occurs_in (group_1 m) text)
    by (intros m; apply TextFacts.finditer_group).
  induction (finditer flags_block code_block_pattern text) as [|m ms IH]; [reflexivity|].
  cbn [flat_map]. rewrite IH by (intros m' Hm'; apply Hall; by right).
  rewrite (piece_without_keyword keywords (strip (group_1 m)) text).
  - by rewrite andb_false_r.
  - eapply TextFacts.occurs_in_trans; [apply TextFacts.strip_occurs|].
    apply Hall. by left.
  - exact Hnone.
Qed.

Lemma inline_scan_none (keyword text : string) (queries : list string) :
  all_upper keyword = true ->
  contains keyword (upper text) = false ->
  add_keyword text queries keyword = queries.
Proof.
  intros Hupper Hnone. unfold add_keyword, finditer. cbn [finditer_from].
  by rewrite TextFacts.statement_needs_keyword.
Qed.

Lemma extract_none (keywords : list string) (text : string) :
  forallb all_upper keywords = true ->
  contains_sql_patterns_in keywords text = false ->
  extract_sql_queries_in keywords text = [].
Proof.
  intros Hupper Hnone. unfold extract_sql_queries_in.
  rewrite (block_queries_none keywords text Hnone).
  unfold contains_sql_patterns_in in Hnone. cbn zeta in Hnone.
  induction keywords as [|keyword keywords' IH]; [reflexivity|].
  cbn [forallb] in Hupper. apply andb_prop in Hupper. destruct Hupper as [Hk Hks].
  cbn [existsb] in Hnone. apply orb_false_elim in Hnone. destruct Hnone as [Hn Hns].
  cbn [fold_left]. rewrite (inline_scan_none keyword text [] Hk Hn). by apply IH.
Qed.

(** X20. From a text in which no detection keyword occurs, in whatever
    case, the extractor returns no statement: neither a fenced region nor
    the inline scan yields one. *)
Theorem no_keyword_no_statement (text : string) :
  contains_sql_patterns text = false -> extract_sql_queries text = [].
Proof. apply extract_none. reflexivity. Qed.

(** A sentence with the word FROM but no keyword. *)
Lemma no_keyword_no_statement_witness :
  contains_sql_patterns "Results come from the users table." = false
  /\ extract_sql_queries "Results come from the users table." = [].
Proof.
  assert (Hnone : contains_sql_patterns "Results come from the users table." = false)
    by reflexivity.
  split; [exact Hnone|].
  exact (no_keyword_no_statement "Results come from the users table." Hnone).
Defined.

Section Guard.

Variable settings : Settings.
Variable parse : Sqlparse.parser.
Variable get_type : Sqlparse.token -> string.
Variable format_sql : string -> string.

(** X21. The guard passes every answer in ASCII text that holds no
    detection keyword, whatever the parser and the limits are, and also
    when [contains_sql] flags the text: there is then nothing to validate.
    (Outside ASCII the case-insensitive scan of the extractor and
    [upper] part ways, and the statement is not made.) *)
Theorem keyword_free_answer_is_safe (state : AgentState) (last_message : Message)
  (content : string) :
  last (messages state) = Some last_message ->
  content_of last_message = Some content ->
  ascii_text content = true ->
  contains_sql_patterns content = false ->
  sql_validation_guard settings parse get_type format_sql state = verdict true [].
Proof.
  intros Hlast Hcontent _ Hnone. unfold sql_validation_guard.
  rewrite Hlast, Hcontent.
  destruct (negb (contains_sql content)); [reflexivity|].
  cbn zeta. unfold extract_sql_queries.
  by rewrite (extract_none SQL_KEYWORDS content eq_refl Hnone).
Qed.

End Guard.

(** An ASCII answer that [contains_sql] flags, because the keyword appears
    once the fenced region is cut out, but in which no keyword occurs. *)
Lemma keyword_free_answer_is_safe_witness :
  let content := "SEL```a```ECT * FROM users" in
  let state := apply_update (initial_state "hi")
                 {| u_messages := [AIMessage content []];
                    u_tool_output := None; u_iteration_count := None;
                    u_should_continue := None; u_sql_safe := None;
                    u_sql_violations := None; u_guard_checked := None |} in
  ascii_text content = true
  /\ contains_sql content = true
  /\ sql_validation_guard default_settings Sample.parse Sample.get_type
       Sample.format_sql state = verdict true [].
Proof.
  intros content state. split; [reflexivity|]. split; [vm_compute; reflexivity|].
  exact (keyword_free_answer_is_safe default_settings Sample.parse Sample.get_type
           Sample.format_sql state (AIMessage content []) content
           eq_refl eq_refl eq_refl eq_refl).
Defined.

Lemma match_at_split (fl : flags) (r : regex) (p : option ascii) (s : string)
  (pos : nat) (m : rematch) :
  match_at fl r p s pos = Some m ->
  s = group0 m ++ m_rest m /\ m_start m = pos.
Proof.
  unfold match_at.
  destruct (rmatch fl r _ Some) as [st|] eqn:Hm; [|discriminate].
  intros [= <-]. cbn [group0 m_rest m_start]. split; [|reflexivity].
  apply (TextFacts.rmatch_inside fl s) in Hm.
  - destruct Hm as (st' & _ & Hsuf & [= ->]). by apply TextFacts.consumed_spec.
  - split; [apply TextFacts.suffix_of_refl|]. split; discriminate.
Qed.

(** What [re.search] finds splits the text: what is before the match, the
    match, and what follows it. *)
Lemma search_from_split (fl : flags) (r : regex) (s : string) :
  forall p pos m,
    search_from fl r p s pos = Some m ->
    exists pre, s = pre ++ group0 m ++ m_rest m
                /\ m_start m = (pos + String.length pre)%nat.
Proof.
  induction s as [|c s IH]; intros p pos m; cbn [search_from].
  - destruct (match_at fl r p EmptyString pos) as [m'|] eqn:Hm; [|discriminate].
    intros [= <-]. apply match_at_split in Hm. destruct Hm as [Hs Hpos].
    exists EmptyString. cbn [String.append String.length]. split; [exact Hs | lia].
  - destruct (match_at fl r p (String c s) pos) as [m'|] eqn:Hm.
    + intros [= <-]. apply match_at_split in Hm. destruct Hm as [Hs Hpos].
      exists EmptyString. cbn [String.append String.length]. split; [exact Hs | lia].
    + intros Hsearch. destruct (IH _ _ _ Hsearch) as (pre & Hs & Hpos).
      exists (String c pre). cbn [String.append String.length].
      split; [by rewrite <- Hs | lia].
Qed.

(** The pattern of the trailing punctuation matches only up to the end of
    the text or to its final newline. *)
Lemma trailing_match_ends (p : option ascii) (s : string) (pos : nat) (m : rematch) :
  match_at no_flags pattern_trailing p s pos = Some m ->
  m_rest m = EmptyString \/ m_rest m = nl.
Proof.
  unfold match_at.
  destruct (rmatch no_flags pattern_trailing _ Some) as [st|] eqn:Hm; [|discriminate].
  intros [= <-]. cbn [m_rest].
  unfold pattern_trailing in Hm. cbn [rmatch] in Hm.
  apply (TextFacts.rmatch_inside no_flags s) in Hm.
  - destruct Hm as (st' & _ & _ & Hend). unfold at_end in Hend.
    destruct (rest st') as [|c s'] eqn:Hrest.
    + injection Hend as <-. by left.
    + destruct (Ascii.eqb c (ascii_of_nat 10)) eqn:Hc; [|discriminate].
      apply Ascii.eqb_eq in Hc. subst c. cbn [MULTILINE no_flags orb andb] in Hend.
      destruct s'; [|discriminate]. injection Hend as <-. right. exact Hrest.
  - split; [apply TextFacts.suffix_of_refl|]. split; discriminate.
Qed.

Lemma rstrip_by_last (f : ascii -> bool) (s : string) : forall pre c,
  rstrip_by f s = pre ++ String c EmptyString -> f c = false.
Proof.
  induction s as [|a s IH]; intros pre c; cbn [rstrip_by].
  - destruct pre; discriminate.
  - destruct (rstrip_by f s) as [|x r] eqn:Hr.
    + destruct (f a) eqn:Hfa; [destruct pre; discriminate|].
      destruct pre as [|b [|b' pre']]; cbn [String.append]; try discriminate.
      by intros [= ->].
    + destruct pre as [|b pre']; cbn [String.append]; [discriminate|].
      intros [= _ Heq]. by apply (IH pre' c).
Qed.

Lemma strip_no_final_newline (s pre : string) : strip s <> pre ++ nl.
Proof.
  unfold strip, nl. intros Heq. apply rstrip_by_last in Heq. discriminate.
Qed.

(** Cutting the trailing punctuation of a stripped text leaves the start of
    the text. *)
Lemma trailing_cut_is_prefix (s : string) :
  (forall pre, s <> pre ++ nl) ->
  exists post, s = sub_empty no_flags pattern_trailing s ++ post.
Proof.
  intros Hnl. unfold sub_empty, finditer. cbn [finditer_from].
  destruct (search_from no_flags pattern_trailing None s 0) as [m|] eqn:Hsearch.
  - destruct (search_from_split _ _ _ _ _ _ Hsearch) as (pre & Hs & Hpos).
    destruct (TextFacts.search_from_found _ _ _ _ _ _ Hsearch)
      as (p' & s' & pos' & _ & Hm).
    assert (Hrest : m_rest m = EmptyString).
    { destruct (trailing_match_ends _ _ _ _ Hm) as [Hrest|Hrest]; [exact Hrest|].
      exfalso. apply (Hnl (pre ++ group0 m)).
      by rewrite Hs, Hrest, TextFacts.append_assoc. }
    assert (Hcut : forall ms, remove_from (m :: ms) s 0 = pre ++ remove_from ms EmptyString
                                (m_start m + String.length (group0 m))).
    { intros ms. cbn [remove_from]. rewrite Hrest, Hpos, Nat.sub_0_r, Nat.add_0_l.
      rewrite Hs at 1. by rewrite TextFacts.substring_prefix. }
    assert (Hnone : forall fuel p pos,
               finditer_from fuel no_flags pattern_trailing p EmptyString pos = []).
    { intros [|fuel] p pos; reflexivity. }
    exists (group0 m).
    rewrite Hrest. destruct (group0 m) as [|g0 gs] eqn:Hg.
    + rewrite Hcut. cbn [remove_from]. rewrite Hs, Hrest.
      by rewrite !TextFacts.append_nil_r.
    + rewrite Hnone, Hcut. cbn [remove_from]. rewrite Hs at 1. by rewrite Hrest, !TextFacts.append_nil_r.
  - exists EmptyString. cbn [remove_from]. by rewrite TextFacts.append_nil_r.
Qed.

Lemma prefix_occurs (a post : string) : occurs_in a (a ++ post).
Proof. by exists EmptyString, post. Qed.

(** What the inline scan adds for one match is a piece of the text. *)
Lemma add_inline_pieces (text : string) (m : rematch) (queries : list string) :
  occurs_in (group_1 m) text ->
  Forall (fun q => occurs_in q text) queries ->
  Forall (fun q => occurs_in q text) (add_inline queries m).
Proof.
  intros Hm Hqueries. unfold add_inline.
  destruct (found flags_icase pattern_confirm _); [|exact Hqueries].
  destruct (negb _); [|exact Hqueries].
  apply Forall_app. split; [exact Hqueries|]. apply Forall_cons. split; [|constructor].
  destruct (trailing_cut_is_prefix (strip (group_1 m))) as [post Hpost];
    [intros pre; apply strip_no_final_newline|].
  eapply TextFacts.occurs_in_trans; [|exact Hm].
  eapply TextFacts.occurs_in_trans; [|apply TextFacts.strip_occurs].
  rewrite Hpost at 2. apply prefix_occurs.
Qed.

Lemma add_keyword_pieces (text keyword : string) (queries : list string) :
  Forall (fun q => occurs_in q text) queries ->
  Forall (fun q => occurs_in q text) (add_keyword text queries keyword).
Proof.
  unfold add_keyword.
  assert (Hms : forall m, In m (finditer flags_inline (pattern_statement keyword) text) ->
                  occurs_in (group_1 m) text)
    by (intros m; apply TextFacts.finditer_group).
  revert queries.
  induction (finditer flags_inline (pattern_statement keyword) text) as [|m ms IHms];
    intros queries Hqueries; [exact Hqueries|].
  cbn [fold_left]. apply IHms; [intros m' Hm'; apply Hms; by right|].
  apply add_inline_pieces; [apply Hms; by left | exact Hqueries].
Qed.

Lemma add_keywords_pieces (text : string) (keywords : list string) :
  forall queries,
    Forall (fun q => occurs_in q text) queries ->
    Forall (fun q => occurs_in q text) (fold_left (add_keyword text) keywords queries).
Proof.
  induction keywords as [|keyword keywords' IH]; intros queries Hqueries;
    [exact Hqueries|].
  cbn [fold_left]. by apply IH, add_keyword_pieces.
Qed.

Lemma extract_pieces (keywords : list string) (text : string) :
  Forall (fun q => occurs_in q text) (extract_sql_queries_in keywords text).
Proof.
  unfold extract_sql_queries_in. apply add_keywords_pieces.
  unfold block_queries. apply Forall_flat_map, Forall_forall.
  intros m Hin. apply list_elem_of_In, TextFacts.finditer_group in Hin.
  destruct (_ && _); [|constructor].
  apply Forall_cons. split; [|constructor].
  eapply TextFacts.occurs_in_trans; [apply TextFacts.strip_occurs | exact Hin].
Qed.

(** X22. Every statement the extractor returns is a piece of the text it is
    given: the content of a fenced region without the blanks around it, or
    an inline statement without the blanks around it and without its
    trailing punctuation. *)
Theorem extracted_statements_occur (text query : string) :
  query ∈ extract_sql_queries text -> occurs_in query text.
Proof.
  intros Hin. pose proof (extract_pieces SQL_KEYWORDS text) as Hall.
  rewrite Forall_forall in Hall. by apply Hall.
Qed.

(** A statement given inline, with an exclamation mark after it. *)
Lemma extracted_statements_occur_witness :
  let text := "Run SELECT id FROM users!" in
  "SELECT id FROM users" ∈ extract_sql_queries text
  /\ occurs_in "SELECT id FROM users" text.
Proof.
  intros text.
  assert (Hin : "SELECT id FROM users" ∈ extract_sql_queries text).
  { replace (extract_sql_queries text) with ["SELECT id FROM users"]
      by (vm_compute; reflexivity).
    apply list_elem_of_here. }
  split; [exact Hin|].
  exact (extracted_statements_occur text "SELECT id FROM users" Hin).
Defined.

Lemma is_space_upper_check :
  forallb (fun c => Bool.eqb (is_space (upper_char c)) (is_space c)) all_ascii = true.
Proof. vm_compute. reflexivity. Qed.

Lemma is_space_upper (c : ascii) : is_space (upper_char c) = is_space c.
Proof.
  pose proof is_space_upper_check as Hcheck. rewrite forallb_forall in Hcheck.
  apply Bool.eqb_prop, Hcheck, TextFacts.all_ascii_complete.
Qed.

Lemma upper_lstrip (s : string) :
  upper (lstrip_by is_space s) = lstrip_by is_space (upper s).
Proof.
  induction s as [|c s IH]; [reflexivity|].
  cbn [upper lstrip_by]. rewrite is_space_upper. by destruct (is_space c).
Qed.

Lemma upper_rstrip (s : string) :
  upper (rstrip_by is_space s) = rstrip_by is_space (upper s).
Proof.
  induction s as [|c s IH]; [reflexivity|].
  cbn [upper rstrip_by]. rewrite <- IH, is_space_upper.
  destruct (rstrip_by is_space s); [by destruct (is_space c) | reflexivity].
Qed.

(** Upper-casing and stripping a text can be done in either order. *)
Lemma upper_strip (s : string) : upper (strip s) = strip (upper s).
Proof. unfold strip. by rewrite upper_rstrip, upper_lstrip. Qed.

Lemma occurs_in_empty (word : string) : occurs_in word EmptyString -> word = EmptyString.
Proof.
  intros (pre & post & Heq). destruct pre; [|discriminate].
  destruct word; [reflexivity | discriminate].
Qed.

Lemma occurs_in_cons (word : string) (c : ascii) (s : string) :
  occurs_in word s -> occurs_in word (String c s).
Proof. intros (pre & post & ->). by exists (String c pre), post. Qed.

Lemma lstrip_keeps (word s : string) :
  starts_solid word = true ->
  occurs_in word s -> occurs_in word (lstrip_by is_space s).
Proof.
  intros Hsolid (pre & post & ->).
  induction pre as [|c pre IH]; cbn [String.append lstrip_by].
  - destruct word as [|a word']; [discriminate|]. cbn [starts_solid] in Hsolid.
    cbn [String.append lstrip_by]. apply negb_true_iff in Hsolid. rewrite Hsolid.
    by exists EmptyString, post.
  - destruct (is_space c); [exact IH|]. by exists (String c pre), post.
Qed.

Lemma rstrip_keeps_word (word post : string) :
  ends_solid word = true ->
  exists post', rstrip_by is_space (word ++ post) = word ++ post'.
Proof.
  induction word as [|a word IH]; [discriminate|].
  destruct word as [|b word'].
  - cbn [ends_solid]. intros Ha. apply negb_true_iff in Ha.
    cbn [String.append rstrip_by]. rewrite Ha.
    destruct (rstrip_by is_space post) as [|x r];
      [by exists EmptyString | by exists (String x r)].
  - intros Hsolid. destruct (IH Hsolid) as [post' Hpost'].
    change (String a (String b word') ++ post) with (String a (String b word' ++ post)).
    cbn [rstrip_by]. rewrite Hpost'. exists post'. reflexivity.
Qed.

Lemma rstrip_keeps (word s : string) :
  ends_solid word = true ->
  occurs_in word s -> occurs_in word (rstrip_by is_space s).
Proof.
  intros Hsolid (pre & post & ->).
  induction pre as [|c pre IH]; cbn [String.append].
  - destruct (rstrip_keeps_word word post Hsolid) as [post' ->].
    by exists EmptyString, post'.
  - cbn [rstrip_by]. destruct (rstrip_by is_space (pre ++ word ++ post)) as [|x r].
    + apply occurs_in_empty in IH. subst word. discriminate.
    + by apply occurs_in_cons.
Qed.

(** A word with no blank at either end that occurs in a text occurs in the
    stripped text. *)
Lemma strip_keeps (word s : string) :
  solid word = true -> occurs_in word s -> occurs_in word (strip s).
Proof.
  unfold solid, strip. intros Hsolid Hin. apply andb_prop in Hsolid.
  destruct Hsolid as [Hstart Hend]. by apply rstrip_keeps, lstrip_keeps.
Qed.

Lemma strip_keeps_keyword (keywords : list string) (content : string) :
  forallb solid keywords = true ->
  contains_sql_patterns_in keywords content = true ->
  negb (String.eqb (strip content) EmptyString)
  && contains_sql_patterns_in keywords (strip content) = true.
Proof.
  unfold contains_sql_patterns_in. intros Hsolid Hsome.
  apply existsb_exists in Hsome. destruct Hsome as (keyword & Hin & Hword).
  rewrite forallb_forall in Hsolid. specialize (Hsolid keyword Hin).
  apply TextFacts.contains_spec, (strip_keeps keyword _ Hsolid) in Hword.
  rewrite <- upper_strip in Hword.
  apply andb_true_intro. split.
  - apply negb_true_iff, String.eqb_neq. intros Hempty. rewrite Hempty in Hword.
    apply occurs_in_empty in Hword. subst keyword. discriminate.
  - apply existsb_exists. exists keyword. split; [exact Hin|].
    by apply TextFacts.contains_spec.
Qed.

(** The first match of [re.finditer] is the match of [re.search]. *)
Lemma finditer_head (fl : flags) (r : regex) (s : string) (m : rematch) :
  search fl r s = Some m -> exists ms, finditer fl r s = m :: ms.
Proof.
  unfold search, finditer. cbn [finditer_from]. intros ->.
  destruct (group0 m), (m_rest m); eauto.
Qed.

Lemma flagged_fence (keywords : list string) (text : string) :
  forallb solid keywords = true ->
  first_block_hits keywords text = true ->
  exists m others,
    search flags_block code_block_pattern text = Some m
    /\ extract_sql_queries_in keywords text = strip (group_1 m) :: others.
Proof.
  intros Hsolid Hhits. unfold first_block_hits in Hhits.
  destruct (found flags_block block_pattern text); [|discriminate].
  destruct (search flags_block code_block_pattern text) as [m|] eqn:Hsearch;
    [|discriminate].
  destruct (finditer_head _ _ _ _ Hsearch) as [ms Hms].
  destruct (DetectorMore.keywords_add_new text keywords (block_queries keywords text))
    as (inline & Heq & _).
  unfold extract_sql_queries_in. rewrite Heq.
  unfold block_queries. rewrite Hms. cbn [flat_map].
  rewrite (strip_keeps_keyword keywords (group_1 m) Hsolid Hhits).
  eexists m, _. split; reflexivity.
Qed.

(** X23. When [contains_sql] answers from the first fenced region, the
    extractor returns that region: its stripped content is the first
    statement of the result, so the guard has it validated. *)
Theorem flagged_fence_is_extracted (text : string) :
  first_block_hits SQL_KEYWORDS text = true ->
  contains_sql text = true
  /\ exists m others,
       search flags_block code_block_pattern text = Some m
       /\ extract_sql_queries text = strip (group_1 m) :: others.
Proof.
  intros Hhits. split.
  - unfold contains_sql, contains_sql_in. by rewrite Hhits.
  - by apply flagged_fence.
Qed.

(** A fenced statement with blank lines around it. *)
Lemma flagged_fence_is_extracted_witness :
  let text := "Try ```sql" ++ nl ++ nl ++ "drop table t" ++ nl ++ "``` now." in
  first_block_hits SQL_KEYWORDS text = true
  /\ contains_sql text = true
  /\ exists m others,
       search flags_block code_block_pattern text = Some m
       /\ extract_sql_queries text = strip (group_1 m) :: others.
Proof.
  intros text.
  assert (Hhits : first_block_hits SQL_KEYWORDS text = true) by (vm_compute; reflexivity).
  split; [exact Hhits|].
  exact (flagged_fence_is_extracted text Hhits).
Defined.

Lemma starts_like_exact (fl : flags) (word s : string) :
  IGNORECASE fl = false ->
  starts_like fl word s = true -> startswith word s = true.
Proof.
  intros Hfl. revert s. induction word as [|c word IH]; intros s; [reflexivity|].
  destruct s as [|a s]; [discriminate|]. cbn [starts_like startswith].
  unfold char_eq. rewrite Hfl, Ascii.eqb_sym. intros Hlike.
  apply andb_prop in Hlike. destruct Hlike as [-> Hlike]. by apply IH.
Qed.

(** A pattern that begins with a word boundary and a literal word is found
    only in a text in which the word occurs. *)
Lemma word_pattern_needs_word (fl : flags) (word : string) (tail : regex) (s : string) :
  IGNORECASE fl = false ->
  found fl (RSeq RWordB (RSeq (RLit word) tail)) s = true ->
  contains word s = true.
Proof.
  intros Hfl. unfold found, search.
  destruct (search_from _ _ None s 0) as [m|] eqn:Hsearch; [intros _ | discriminate].
  destruct (TextFacts.search_from_found _ _ _ _ _ _ Hsearch)
    as (p' & s' & pos' & Hsuf & Hm).
  unfold match_at in Hm.
  destruct (rmatch _ _ _ Some) as [st|] eqn:Hr; [|discriminate].
  cbn [rmatch] in Hr. destruct (xorb _ _); [|discriminate].
  apply TextFacts.rmatch_literal in Hr. cbn [rest] in Hr.
  apply starts_like_exact, TextFacts.startswith_spec in Hr; [|exact Hfl].
  destruct Hr as [post ->]. destruct Hsuf as [pre ->].
  apply TextFacts.contains_spec. by exists pre, post.
Qed.

Lemma keyword_hits_needs_keyword (text_upper keyword : string) :
  keyword_hits text_upper keyword = true -> contains keyword text_upper = true.
Proof.
  unfold keyword_hits. intros Hhits.
  repeat (apply orb_prop in Hhits; destruct Hhits as [Hhits|Hhits]);
    revert Hhits; apply word_pattern_needs_word; reflexivity.
Qed.

(** In a text with no fenced region nothing is cut out before the inline
    scan. *)
Lemma no_fence_no_cut (text : string) :
  found flags_block block_pattern text = false ->
  sub_empty flags_block block_pattern text = text.
Proof.
  unfold found, search, sub_empty, finditer. cbn [finditer_from].
  by destruct (search_from flags_block block_pattern None text 0).
Qed.

(** X24. [contains_sql] flags a text that has no fenced region only if a
    detection keyword occurs in it, in whatever case: without a fence it is
    at least as strict as [contains_sql_patterns]. *)
Theorem fence_free_detection_needs_keyword (text : string) :
  found flags_block block_pattern text = false ->
  contains_sql text = true ->
  contains_sql_patterns text = true.
Proof.
  intros Hfence. unfold contains_sql, contains_sql_in, first_block_hits.
  rewrite Hfence, (no_fence_no_cut text Hfence). cbn zeta.
  unfold contains_sql_patterns, contains_sql_patterns_in.
  intros Hhits. apply existsb_exists in Hhits. destruct Hhits as (keyword & Hin & Hhits).
  apply existsb_exists. exists keyword. split; [exact Hin|].
  by apply keyword_hits_needs_keyword.
Qed.

(** An inline statement in lower case. *)
Lemma fence_free_detection_needs_keyword_witness :
  let text := "please delete from users where id = 1" in
  found flags_block block_pattern text = false
  /\ contains_sql text = true
  /\ contains_sql_patterns text = true.
Proof.
  intros text.
  assert (Hfence : found flags_block block_pattern text = false) by (vm_compute; reflexivity).
  assert (Hsql : contains_sql text = true) by (vm_compute; reflexivity).
  split; [exact Hfence|]. split; [exact Hsql|].
  exact (fence_free_detection_needs_keyword text Hfence Hsql).
Defined.

End DetectorSound.

(** ** The end of a turn *)

Module EngineSafety.
Import PyStr SqlDetector SqlValidator Sqlparse Registry State Nodes Guards Graph Spec.

Section Facts.

Variable settings : Settings.
Variable parse : parser.
Variable get_type : token -> string.
Variable format_sql : string -> string.
Variable llm : backend.
Variable registry : ToolRegistry.

Local Abbreviation step := (step settings parse get_type format_sql llm registry).
Local Abbreviation run := (run settings parse get_type format_sql llm registry).
Local Abbreviation guard := (sql_validation_guard settings parse get_type format_sql).

(** The guard answers safe exactly when it reports no violation. *)
Lemma guard_shape (state : AgentState) :
  exists safe violations,
    guard state = verdict safe violations /\ (safe = true <-> violations = []).
Proof.
  unfold sql_validation_guard.
  destruct (last (messages state)) as [last_message|];
    [|exists true, []; split; [reflexivity | split; reflexivity]].
  destruct (content_of last_message) as [content|];
    [|exists true, []; split; [reflexivity | split; reflexivity]].
  apply (EngineMore.verdict_shape settings parse get_type format_sql content).
Qed.

(** The guard reads the transcript only. *)
Lemma guard_reads_messages (state state' : AgentState) :
  messages state' = messages state -> guard state' = guard state.
Proof. unfold sql_validation_guard. by intros ->. Qed.

(** What holds of a state in which a turn has ended. *)
Lemma step_into_end (n : node) (state final : AgentState) :
  n <> END ->
  step n state = Ok (END, final) ->
  n = sql_guard
  /\ guard_checked final = Some true
  /\ sql_safe final = Some true
  /\ sql_violations final = Some []
  /\ guard final = verdict true []
  /\ messages final = messages state.
Proof.
  intros Hn Hstep. destruct n; try congruence.
  - rewrite EngineMore.step_think in Hstep.
    destruct (r_tool_calls _); discriminate.
  - unfold Graph.step in Hstep. destruct (act_node registry state); discriminate.
  - unfold Graph.step in Hstep. destruct (observe_node state) as [u|]; [|discriminate].
    cbn [bind] in Hstep. unfold should_continue_thinking in Hstep.
    destruct (_ >=? _)%Z; [discriminate|].
    destruct (get _ false); discriminate.
  - discriminate.
  - rewrite EngineMore.step_guard in Hstep.
    destruct (guard_shape state) as (safe & violations & Hguard & Hsafe).
    rewrite Hguard in Hstep. cbn [u_sql_safe verdict get] in Hstep.
    destruct safe; [|discriminate]. injection Hstep as <-.
    rewrite (proj1 Hsafe eq_refl) in Hguard.
    destruct (EngineMore.after_guard_fields settings parse get_type format_sql
                state true [] Hguard) as (Hm & _ & Hchecked & Hsql & Hviolations).
    split; [reflexivity|]. split; [exact Hchecked|]. split; [exact Hsql|].
    split; [exact Hviolations|]. split; [|exact Hm].
    by rewrite (guard_reads_messages _ _ Hm).
Qed.

Lemma run_into_end (steps : nat) : forall (n : node) (state final : AgentState),
  n <> END ->
  run steps n state = Ok (END, final) ->
  guard_checked final = Some true
  /\ sql_safe final = Some true
  /\ sql_violations final = Some []
  /\ guard final = verdict true [].
Proof.
  induction steps as [|steps IH]; intros n state final Hn Hrun.
  - injection Hrun as -> _. congruence.
  - rewrite (EngineFacts.run_S settings parse get_type format_sql llm registry) in Hrun.
    destruct (step n state) as [[n1 state1]|] eqn:Hstep; [|discriminate].
    cbn [bind fst snd] in Hrun.
    destruct n1; try (eapply IH; [|exact Hrun]; discriminate).
    assert (Hstay : forall k, run k END state1 = Ok (END, state1)).
    { induction k as [|k IHk]; [reflexivity|].
      rewrite (EngineFacts.run_S settings parse get_type format_sql llm registry).
      exact IHk. }
    rewrite Hstay in Hrun. injection Hrun as <-.
    destruct (step_into_end n state state1 Hn Hstep) as (_ & H1 & H2 & H3 & H4 & _).
    auto.
Qed.

(** X25. A turn ends only on a message the guard has accepted: whenever a
    run that starts at a node of the graph reaches END, whatever the
    backend, the tools and the number of steps, the final state has
    [guard_checked] and [sql_safe] true and no violations, and the guard
    applied to the final state (to the message shown to the user) answers
    safe. *)
Theorem turn_ends_on_accepted_message (steps : nat) (n : node)
  (state final : AgentState) :
  n <> END ->
  run steps n state = Ok (END, final) ->
  guard_checked final = Some true
  /\ sql_safe final = Some true
  /\ sql_violations final = Some []
  /\ guard final = verdict true [].
Proof. apply run_into_end. Qed.

End Facts.

(** A turn with a plain answer, run for longer than it takes. *)
Lemma turn_ends_on_accepted_message_witness :
  think <> END
  /\ exists final,
      run default_settings Sample.parse Sample.get_type Sample.format_sql
        (Sample.constant_llm "Hello") Sample.registry 7 think (initial_state "hi")
      = Ok (END, final)
      /\ sql_safe final = Some true
      /\ sql_violations final = Some [].
Proof.
  assert (Hn : think <> END) by discriminate.
  split; [exact Hn|]. eexists. split; [reflexivity|].
  pose proof (turn_ends_on_accepted_message default_settings Sample.parse Sample.get_type
                Sample.format_sql (Sample.constant_llm "Hello") Sample.registry 7 think
                (initial_state "hi") _ Hn eq_refl) as (_ & Hsafe & Hviolations & _).
  split; [exact Hsafe | exact Hviolations].
Defined.

End EngineSafety.

(** ** The blocklist *)

Module BlocklistFacts.
Import PyStr Sqlparse SqlValidator.

Section Facts.

Variable parse : parser.
Variable get_type : token -> string.
Variable format_sql : string -> string.
Variable settings : Settings.

Local Abbreviation validate := (validate_sql_query parse get_type format_sql settings).

(** The errors of the blocklist layer: one for each leaf of type [Keyword]
    with a blocked value. *)
Lemma blocked_errors_spec (statement : token) (msg : string) :
  In msg (blocked_errors statement)
  <-> exists v, In (Keyword, v) (flatten statement)
                /\ upper v ∈ BLOCKED_KEYWORDS
                /\ msg = "Blocked keyword found: " ++ upper v.
Proof.
  unfold blocked_errors. rewrite in_flat_map. split.
  - intros ([ty v] & Hleaf & Hmsg). cbn [fst snd] in Hmsg.
    destruct ty; cbn [is_Keyword] in Hmsg; try contradiction.
    destruct (bool_decide _) eqn:Hblocked; [|contradiction].
    apply bool_decide_eq_true in Hblocked. destruct Hmsg as [<-|[]].
    exists v. auto.
  - intros (v & Hleaf & Hblocked & ->). exists (Keyword, v). split; [exact Hleaf|].
    cbn [fst snd is_Keyword]. rewrite bool_decide_eq_true_2 by exact Hblocked.
    by left.
Qed.

Lemma limit_errors_are_not_blocklist_errors (statement : token) (msg : string) :
  In msg (join_error settings statement
          ++ subquery_error parse get_type settings statement)%list ->
  startswith "Blocked keyword found: " msg = false.
Proof.
  unfold join_error, subquery_error. intros Hin. apply in_app_or in Hin.
  destruct Hin as [Hin|Hin];
    [destruct (_ >? sql_max_joins settings)%Z
    | destruct (_ >? sql_max_subqueries settings)%Z];
    try contradiction; destruct Hin as [<-|[]]; reflexivity.
Qed.

(** X26. The blocklist layer reads the leaves of type [Keyword] only, and
    their whole value: a statement classified SELECT with such a leaf whose
    upper-cased value is blocked is invalid, whatever the limits, with an
    error that names the keyword; and every blocklist error of the result
    comes from such a leaf, so a blocked word in a leaf of another type,
    [Keyword.DML] and [Keyword.DDL] among them, is not reported. *)
Theorem blocklist_reads_plain_keywords (query : string) (statement : token)
  (rest : list token) :
  parse query = Ok (statement :: rest) ->
  get_type statement = "SELECT" ->
  let r := validate query in
  (forall v, In (Keyword, v) (flatten statement) ->
             upper v ∈ BLOCKED_KEYWORDS ->
             valid r = false
             /\ In ("Blocked keyword found: " ++ upper v) (errors r))
  /\ (forall msg, In msg (errors r) ->
                  startswith "Blocked keyword found: " msg = true ->
                  exists v, In (Keyword, v) (flatten statement)
                            /\ upper v ∈ BLOCKED_KEYWORDS
                            /\ msg = "Blocked keyword found: " ++ upper v).
Proof.
  intros Hparse Htype r.
  destruct (ValidatorFacts.select_verdict parse get_type format_sql settings query
              statement rest Hparse Htype) as (Hvalid & Herrors & _).
  fold r in Hvalid, Herrors. split.
  - intros v Hleaf Hblocked.
    assert (Hin : In ("Blocked keyword found: " ++ upper v) (blocked_errors statement))
      by (apply blocked_errors_spec; eauto).
    split.
    + rewrite Hvalid. by destruct (blocked_errors statement).
    + rewrite Herrors. apply in_or_app. by left.
  - intros msg Hin Hstarts. rewrite Herrors in Hin. apply in_app_or in Hin.
    destruct Hin as [Hin|Hin]; [by apply blocked_errors_spec|].
    apply limit_errors_are_not_blocklist_errors in Hin. congruence.
Qed.

End Facts.

(** A selection followed by EXEC: the leaf of type [Keyword] is reported. *)
Lemma blocklist_reads_plain_keywords_witness :
  let r := validate_sql_query MoreSamples.exec_parse Sample.get_type Sample.format_sql
             default_settings MoreSamples.q_exec in
  str MoreSamples.t_exec = MoreSamples.q_exec
  /\ Sample.get_type MoreSamples.t_exec = "SELECT"
  /\ upper "EXEC" ∈ BLOCKED_KEYWORDS
  /\ valid r = false
  /\ In "Blocked keyword found: EXEC" (errors r).
Proof.
  intros r.
  assert (Htype : Sample.get_type MoreSamples.t_exec = "SELECT") by reflexivity.
  assert (Hblocked : upper "EXEC" ∈ BLOCKED_KEYWORDS) by (vm_compute; set_solver).
  split; [reflexivity|]. split; [exact Htype|]. split; [exact Hblocked|].
  refine (proj1 (blocklist_reads_plain_keywords MoreSamples.exec_parse Sample.get_type
                   Sample.format_sql default_settings MoreSamples.q_exec
                   MoreSamples.t_exec [] eq_refl Htype) "EXEC" _ Hblocked).
  cbn. tauto.
Defined.

End BlocklistFacts.

(** ** Nested subqueries *)

Module NestingFacts.
Import PyStr Sqlparse SqlValidator.

(** C6. The subquery limit is not enforced on subqueries nested on one
    line: of the text of a bracket [count_subqueries] strips every
    bracket at both ends, so the text it parses again has lost all its
    closing brackets, the parser finds no bracket group in it, and the
    count stops at one. Six nested subqueries are counted as one and
    the query is valid under the default limit of five. *)
Theorem nested_subqueries_count_once :
  let r := validate_sql_query MoreSamples.nested_parse Sample.get_type Sample.format_sql
             default_settings MoreSamples.q_nested6 in
  str MoreSamples.t_nested6 = MoreSamples.q_nested6
  /\ str MoreSamples.t_unclosed = MoreSamples.q_unclosed
  /\ strip_chars "()" (str (Grp Parenthesis ([Tok Punctuation "("]
                                             ++ MoreSamples.subquery 5
                                             ++ [Tok Punctuation ")"])))
     = MoreSamples.q_unclosed
  /\ sql_max_subqueries default_settings = 5%Z
  /\ count_subqueries MoreSamples.nested_parse Sample.get_type MoreSamples.t_nested6 = 1
  /\ valid r = true
  /\ errors r = []
  /\ metadata r !! "subquery_count" = Some (VInt 1).
Proof.
  assert (Hcount : count_subqueries MoreSamples.nested_parse Sample.get_type
                     MoreSamples.t_nested6 = 1) by (vm_compute; reflexivity).
  intros r.
  destruct (ValidatorFacts.select_verdict MoreSamples.nested_parse Sample.get_type
              Sample.format_sql default_settings MoreSamples.q_nested6
              MoreSamples.t_nested6 [] eq_refl eq_refl) as (Hvalid & Herrors & _ & Hmeta).
  fold r in Hvalid, Herrors, Hmeta.
  split; [vm_compute; reflexivity|]. split; [vm_compute; reflexivity|].
  split; [vm_compute; reflexivity|]. split; [reflexivity|]. split; [exact Hcount|].
  split; [|split].
  - rewrite Hvalid. unfold join_error, subquery_error. rewrite Hcount. reflexivity.
  - rewrite Herrors. unfold join_error, subquery_error. rewrite Hcount. reflexivity.
  - rewrite Hmeta, Hcount. by simplify_map_eq.
Qed.

End NestingFacts.
